(** * Segmentation trainer: statistics accumulation, logging and prior correction

    A shallow embedding of [training/segmentation_trainer.py] (the
    class-based trainer), of the helpers it shares with
    [2_class/fcn_2class.py] and of the evaluation pass of that earlier
    script.

    Conventions of the embedding.
    - Python integers are [Z]; indices produced by [range] are [nat].
    - Python and torch floating-point values are the type [fl]: a finite
      value is an exact real number (no rounding, no overflow), the
      non-finite values [PInf], [NInf] and [NaN] follow IEEE 754.
    - A label tensor of shape N x H x W is a list of images, each a list of
      rows, each a list of labels.  Elementwise operations of numpy and
      torch act on the row-major flattening [ravel]; the arrays they combine
      have the same shape in the source ([pred] is the class-axis argmax of
      the output that [target] labels).
    - A score tensor of shape N x C x H x W is a list of images, each a
      list of C class planes, each the row-major list of its H*W pixels.
    - Mutable objects (the statistics hanging off the model, the confusion
      matrix, what is printed) live in an explicit state; a raised
      exception keeps the state reached so far, as in Python. *)

From Stdlib Require Import String.
From Stdlib Require Import ZArith List Bool Lia Reals Lra.
Import ListNotations.

Local Open Scope Z_scope.

(** ** Exceptions and the state-and-exception monad *)

(** The built-in exceptions the modelled code can raise. *)
Inductive exn : Type :=
| ZeroDivisionError
| IndexError
| AssertionError.

Definition exn_name (e : exn) : string :=
  match e with
  | ZeroDivisionError => "ZeroDivisionError"
  | IndexError => "IndexError"
  | AssertionError => "AssertionError"
  end.

Inductive result (A : Type) : Type :=
| Ok (a : A)
| Raise (e : exn).
Arguments Ok {A} a.
Arguments Raise {A} e.

(** A computation over a mutable state [S]: the outcome and the state left
    behind, whether it returned or raised. *)
Definition M (S A : Type) : Type := S -> result A * S.

Definition ret {S A} (a : A) : M S A := fun s => (Ok a, s).

Definition bind {S A B} (c : M S A) (k : A -> M S B) : M S B :=
  fun s => match c s with
           | (Ok a, s') => k a s'
           | (Raise e, s') => (Raise e, s')
           end.

Definition raise {S A} (e : exn) : M S A := fun s => (Raise e, s).
Definition get {S} : M S S := fun s => (Ok s, s).
Definition put {S} (s : S) : M S unit := fun _ => (Ok tt, s).
Definition modify {S} (f : S -> S) : M S unit := fun s => (Ok tt, f s).

(** Lift a result that touches no state. *)
Definition lift {S A} (r : result A) : M S A := fun s => (r, s).

(** Run a computation on a component of the state. *)
Definition zoom {S T A} (proj : S -> T) (inj : T -> S -> S) (c : M T A) : M S A :=
  fun s => let '(r, t') := c (proj s) in (r, inj t' s).

Declare Scope monad_scope.
Delimit Scope monad_scope with monad.
Notation "x <- c ;; k" := (bind c (fun x => k))
  (at level 61, c at next level, right associativity) : monad_scope.
Notation "c ;; k" := (bind c (fun _ => k))
  (at level 61, right associativity) : monad_scope.
Local Open Scope monad_scope.

(** [for x in xs: body(x)] *)
Fixpoint for_each {S B} (xs : list B) (body : B -> M S unit) : M S unit :=
  match xs with
  | [] => ret tt
  | x :: xs' => body x ;; for_each xs' body
  end.

(** [range(n)] *)
Definition range (n : nat) : list nat := seq 0 n.

(** [enumerate(xs)] *)
Definition enumerate {B} (xs : list B) : list (nat * B) :=
  combine (seq 0 (length xs)) xs.

(** ** Python sequences *)

(** [l[i]] for an index coming out of [range]. *)
Definition getitem {A} (l : list A) (i : nat) : result A :=
  match nth_error l i with
  | Some x => Ok x
  | None => Raise IndexError
  end.

(** [l[k0], l[k1], ...] read from left to right. *)
Fixpoint getitems {A} (l : list A) (ks : list nat) : result (list A) :=
  match ks with
  | [] => Ok []
  | k :: ks' =>
      match getitem l k with
      | Ok x => match getitems l ks' with
                | Ok xs => Ok (x :: xs)
                | Raise e => Raise e
                end
      | Raise e => Raise e
      end
  end.

Fixpoint update {A} (l : list A) (i : nat) (x : A) : list A :=
  match l, i with
  | [], _ => []
  | _ :: t, O => x :: t
  | h :: t, S i' => h :: update t i' x
  end.

(** [l[i] = x] *)
Definition setitem {A} (l : list A) (i : nat) (x : A) : result (list A) :=
  if (i <? length l)%nat then Ok (update l i x) else Raise IndexError.

(** [a % b] on Python integers: the sign follows the divisor. *)
Definition py_mod (a b : Z) : result Z :=
  if b =? 0 then Raise ZeroDivisionError else Ok (a mod b).

Definition sumZ (l : list Z) : Z := fold_right Z.add 0 l.

(** ** Label tensors *)

Definition label_tensor : Type := list (list (list Z)).

Definition ravel (t : label_tensor) : list Z := concat (concat t).

(** [a - k] for an integer array and a scalar. *)
Definition np_sub_scalar (a : list Z) (k : Z) : list Z :=
  map (fun x => x - k) a.

(** [np.logical_or(a, b)]: an entry is true when it is nonzero in [a] or in [b]. *)
Definition np_logical_or (a b : list Z) : list bool :=
  map (fun xy => negb (fst xy =? 0) || negb (snd xy =? 0)) (combine a b).

Definition np_logical_not (a : list bool) : list bool := map negb a.

(** [len(np.where(a)[0])]: the number of true entries. *)
Definition np_where_len (a : list bool) : Z :=
  Z.of_nat (length (filter (fun b => b) a)).

(** ** The confusion accumulator: [get_per_class_accuracy] *)

Definition matrix : Type := list (list Z).

(** The inner function [prediction_error(predicted_label, target_label)]. *)
Definition prediction_error (prediction_numpy target_numpy : list Z)
    (predicted_label target_label : Z) : Z :=
  np_where_len
    (np_logical_not
       (np_logical_or (np_sub_scalar prediction_numpy predicted_label)
                      (np_sub_scalar target_numpy target_label))).

(** [acc_dict[j][i] += v] *)
Definition iadd_cell (j i : nat) (v : Z) : M matrix unit :=
  acc <- get ;;
  row <- lift (getitem acc j) ;;
  x <- lift (getitem row i) ;;
  row' <- lift (setitem row i (x + v)) ;;
  acc' <- lift (setitem acc j row') ;;
  put acc'.

Definition get_per_class_accuracy (pred target : label_tensor) : M matrix unit :=
  let prediction_numpy := ravel pred in
  let target_numpy := ravel target in
  acc0 <- get ;;
  for_each (range (length acc0)) (fun i =>
    acc <- get ;;
    row_i <- lift (getitem acc i) ;;
    for_each (range (length row_i)) (fun j =>
      iadd_cell j i
        (prediction_error prediction_numpy target_numpy
           (Z.of_nat i) (Z.of_nat j)))).

(** [np.diagonal(m).copy()] *)
Definition np_diagonal (m : matrix) : list Z :=
  map (fun k => nth k (nth k m []) 0) (range (Nat.min (length m) (length (hd [] m)))).

(** Reading a cell, a row sum, a column sum and the sum of all entries. *)
Definition cell (m : matrix) (r c : nat) : Z := nth c (nth r m []) 0.
Definition row_sum (m : matrix) (r : nat) : Z := sumZ (nth r m []).
Definition col_sum (m : matrix) (c : nat) : Z := sumZ (map (fun row => nth c row 0) m).
Definition matrix_sum (m : matrix) : Z := sumZ (map sumZ m).

(** The number of pixels carrying a given (predicted, target) pair, of
    pixels predicted as a class, and of pixels labelled with a class. *)
Definition count_pairs (pred target : label_tensor) (p t : Z) : Z :=
  Z.of_nat (length (filter (fun xy => (fst xy =? p) && (snd xy =? t))
                           (combine (ravel pred) (ravel target)))).

Definition count_label (x : label_tensor) (c : Z) : Z :=
  Z.of_nat (length (filter (fun v => v =? c) (ravel x))).

(** The scenario of the specification: one 2x2 image. *)
Definition scenario_target : label_tensor := [[[0; 1]; [1; 1]]].
Definition scenario_pred : label_tensor := [[[0; 0]; [1; 1]]].
Definition zeros2 : matrix := [[0; 0]; [0; 0]].


(** ** Floating-point values *)

Inductive fl : Type :=
| Fin (r : R)
| PInf
| NInf
| NaN.

Definition fl_of_Z (n : Z) : fl := Fin (IZR n).

Definition fl_neg (x : fl) : fl :=
  match x with
  | Fin r => Fin (- r)
  | PInf => NInf
  | NInf => PInf
  | NaN => NaN
  end.

Definition fl_add (x y : fl) : fl :=
  match x, y with
  | NaN, _ | _, NaN => NaN
  | Fin a, Fin b => Fin (a + b)
  | PInf, NInf | NInf, PInf => NaN
  | PInf, _ | _, PInf => PInf
  | NInf, _ | _, NInf => NInf
  end.

Definition fl_sub (x y : fl) : fl := fl_add x (fl_neg y).

(** IEEE division (zeros carry no sign here: a nonzero value over zero takes
    the sign of the numerator). *)
Definition fl_div (x y : fl) : fl :=
  match x, y with
  | NaN, _ | _, NaN => NaN
  | Fin a, Fin b =>
      if Req_dec_T b 0
      then (if Req_dec_T a 0 then NaN else if Rlt_dec 0 a then PInf else NInf)
      else Fin (a / b)
  | Fin _, _ => Fin 0
  | PInf, Fin b => if Rlt_dec b 0 then NInf else PInf
  | NInf, Fin b => if Rlt_dec b 0 then PInf else NInf
  | _, _ => NaN
  end.

(** [np.e ** x] *)
Definition fl_exp (x : fl) : fl :=
  match x with
  | Fin r => Fin (exp r)
  | PInf => PInf
  | NInf => Fin 0
  | NaN => NaN
  end.

(** [np.log(x)]: minus infinity at zero, NaN below it (numpy warns and goes on). *)
Definition fl_log (x : fl) : fl :=
  match x with
  | Fin r => if Rlt_dec 0 r then Fin (ln r)
             else if Req_dec_T r 0 then NInf else NaN
  | PInf => PInf
  | NInf => NaN
  | NaN => NaN
  end.

Arguments fl_div : simpl never.
Arguments fl_log : simpl never.

Definition sigmoid (r : R) : R := (1 / (1 + exp (- r)))%R.

(** [torch.sigmoid(x)] *)
Definition fl_sigmoid (x : fl) : fl :=
  match x with
  | Fin r => Fin (sigmoid r)
  | PInf => Fin 1
  | NInf => Fin 0
  | NaN => NaN
  end.

(** [x < y]; false as soon as one side is NaN. *)
Definition fl_ltb (x y : fl) : bool :=
  match x, y with
  | NaN, _ | _, NaN => false
  | Fin a, Fin b => if Rlt_dec a b then true else false
  | NInf, NInf => false
  | NInf, _ => true
  | _, NInf => false
  | PInf, _ => false
  | _, PInf => true
  end.

Definition fl_sum (l : list fl) : fl := fold_left fl_add l (Fin 0).

(** [np.mean(l)] and [torch.mean(t)]: NaN on an empty input. *)
Definition fl_mean (l : list fl) : fl :=
  fl_div (fl_sum l) (fl_of_Z (Z.of_nat (length l))).

(** [x / n] for a Python float and a Python integer. *)
Definition py_truediv (x : fl) (n : Z) : result fl :=
  if n =? 0 then Raise ZeroDivisionError
  else Ok (match x with
           | Fin r => Fin (r / IZR n)
           | PInf => if n <? 0 then NInf else PInf
           | NInf => if n <? 0 then PInf else NInf
           | NaN => NaN
           end).

(** [x / y] for two Python integers. *)
Definition py_int_truediv (x y : Z) : result fl :=
  if y =? 0 then Raise ZeroDivisionError else Ok (Fin (IZR x / IZR y)).

(** [list(map(f, xs, ys))]: stops with the shorter list, raises at the
    first element on which [f] does. *)
Fixpoint py_map2 {A B C} (f : A -> B -> result C) (xs : list A) (ys : list B)
    : result (list C) :=
  match xs, ys with
  | x :: xs', y :: ys' =>
      match f x y with
      | Ok c => match py_map2 f xs' ys' with
                | Ok cs => Ok (c :: cs)
                | Raise e => Raise e
                end
      | Raise e => Raise e
      end
  | _, _ => Ok []
  end.

Fixpoint zip_with {A B C} (f : A -> B -> C) (xs : list A) (ys : list B) : list C :=
  match xs, ys with
  | x :: xs', y :: ys' => f x y :: zip_with f xs' ys'
  | _, _ => []
  end.

(** ** Per-class loss: [get_per_class_loss] *)

(** [target.eq(i)] *)
Definition torch_eq_scalar (t : list Z) (i : Z) : list bool :=
  map (fun x => x =? i) t.

(** [torch.sum(mask).item()] *)
Definition torch_sum_mask (mask : list bool) : Z :=
  Z.of_nat (length (filter (fun b => b) mask)).

(** [torch.masked_select(loss, mask)] *)
Definition torch_masked_select (loss : list fl) (mask : list bool) : list fl :=
  map fst (filter snd (combine loss mask)).

(** [loss] is the elementwise loss, flattened like [target]; the state is
    [loss_vec], written in place. *)
Definition get_per_class_loss (loss : list fl) (target : label_tensor)
    : M (list fl) unit :=
  loss_vec0 <- get ;;
  for_each (range (length loss_vec0)) (fun i =>
    let mask := torch_eq_scalar (ravel target) (Z.of_nat i) in
    let total_num := torch_sum_mask mask in
    loss_vec <- get ;;
    if total_num >? 0 then
      loss_vec' <- lift (setitem loss_vec i
                           (fl_div (fl_sum (torch_masked_select loss mask))
                                   (fl_of_Z total_num))) ;;
      put loss_vec'
    else
      loss_vec' <- lift (setitem loss_vec i
                           (fl_sum (torch_masked_select loss mask))) ;;
      put loss_vec').

(** The element-wise losses of the pixels whose target is class [c]. *)
Fixpoint losses_of_class (loss : list fl) (target : list Z) (c : Z) : list fl :=
  match loss, target with
  | l :: loss', t :: target' =>
      if t =? c then l :: losses_of_class loss' target' c
      else losses_of_class loss' target' c
  | _, _ => []
  end.

(** ** Per-class overlap counts *)

(** [x.byte()]: the cast to an unsigned 8-bit integer. *)
Definition torch_byte (x : Z) : Z := x mod 256.

(** [a.byte().eq(torch.ones(shape, dtype=uint8) * i)] *)
Definition byte_eq_class (a : list Z) (i : Z) : list bool :=
  map (fun x => torch_byte x =? torch_byte i) a.

(** [torch.where(cond, ones, zeros).sum().item()] *)
Definition torch_where_sum (cond : list bool) : Z :=
  sumZ (map (fun b : bool => if b then 1 else 0) cond).

Definition correct_pixels (pred target : label_tensor) (i : nat) : Z :=
  torch_where_sum
    (zip_with andb (byte_eq_class (ravel pred) (Z.of_nat i))
                   (byte_eq_class (ravel target) (Z.of_nat i))).

Definition jaccard_or_pixels (pred target : label_tensor) (i : nat) : Z :=
  torch_where_sum
    (zip_with orb (byte_eq_class (ravel pred) (Z.of_nat i))
                  (byte_eq_class (ravel target) (Z.of_nat i))).

(** The [for i in range(self.num_classes)] loop of [train] and [test]; the
    state is the pair of Python lists [(class_correct, class_jacard_or)]. *)
Definition record_pixel_measurements (num_classes : nat) (pred target : label_tensor)
    : M (list Z * list Z) unit :=
  for_each (range num_classes) (fun i =>
    st <- get ;;
    c <- lift (getitem (fst st) i) ;;
    class_correct <- lift (setitem (fst st) i (c + correct_pixels pred target i)) ;;
    u <- lift (getitem (snd st) i) ;;
    class_jacard_or <- lift (setitem (snd st) i (u + jaccard_or_pixels pred target i)) ;;
    put (class_correct, class_jacard_or)).

(** ** The statistics log of the model *)

Module Stats.
Record t : Type := mk {
  loss : list fl;
  accuracy : list fl;
  (** absent on models saved before the Jaccard index was recorded *)
  jaccard_accuracy : option (list fl);
  per_class_loss : list (list fl);
  per_class_accuracy : list (list Z);
  confusion : matrix
}.

Definition append_loss (x : fl) (s : t) : t :=
  mk (loss s ++ [x]) (accuracy s) (jaccard_accuracy s)
     (per_class_loss s) (per_class_accuracy s) (confusion s).
Definition append_accuracy (x : fl) (s : t) : t :=
  mk (loss s) (accuracy s ++ [x]) (jaccard_accuracy s)
     (per_class_loss s) (per_class_accuracy s) (confusion s).
(** [try: s.jaccard_accuracy.append(x) except AttributeError: pass] *)
Definition try_append_jaccard (x : fl) (s : t) : t :=
  mk (loss s) (accuracy s)
     (match jaccard_accuracy s with
      | Some l => Some (l ++ [x])
      | None => None
      end)
     (per_class_loss s) (per_class_accuracy s) (confusion s).
Definition append_per_class_loss (v : list fl) (s : t) : t :=
  mk (loss s) (accuracy s) (jaccard_accuracy s)
     (per_class_loss s ++ [v]) (per_class_accuracy s) (confusion s).
Definition append_per_class_accuracy (v : list Z) (s : t) : t :=
  mk (loss s) (accuracy s) (jaccard_accuracy s)
     (per_class_loss s) (per_class_accuracy s ++ [v]) (confusion s).
Definition set_confusion (m : matrix) (s : t) : t :=
  mk (loss s) (accuracy s) (jaccard_accuracy s)
     (per_class_loss s) (per_class_accuracy s) m.
End Stats.

(** ** Score tensors *)

(** One image: C class planes of P pixels. *)
Definition image : Type := list (list fl).
Definition tensor : Type := list image.

Definition tensor_map (f : fl -> fl) (t : tensor) : tensor :=
  map (map (map f)) t.

(** [torch.sum(img, dim=0)]: the sum across the class axis, per pixel. *)
Definition sum_dim0 (img : image) : list fl :=
  match img with
  | [] => []
  | plane :: planes => fold_left (zip_with fl_add) planes plane
  end.

(** [img / v] with [v] broadcast along the class axis. *)
Definition div_dim0 (img : image) (v : list fl) : image :=
  map (fun plane => zip_with fl_div plane v) img.

(** The class of largest score among [l]: the first one among equals, and a
    NaN counts as larger than every number. *)
Definition nan_gtb (v best : fl) : bool :=
  match best, v with
  | NaN, _ => false
  | _, NaN => true
  | _, _ => fl_ltb best v
  end.

Fixpoint argmax_from (l : list fl) (k : Z) (best_k : Z) (best : fl) : Z :=
  match l with
  | [] => best_k
  | v :: l' => if nan_gtb v best then argmax_from l' (k + 1) k v
               else argmax_from l' (k + 1) best_k best
  end.

Definition argmax_list (l : list fl) : Z :=
  match l with
  | [] => 0
  | v :: l' => argmax_from l' 1 0 v
  end.

(** The scores of pixel [p] along the class axis. *)
Definition class_scores (img : image) (p : nat) : list fl :=
  map (fun plane => nth p plane NaN) img.

Definition argmax_image (img : image) : list Z :=
  map (fun p => argmax_list (class_scores img p)) (range (length (hd [] img))).

(** [torch.argmax(output, dim=1, keepdim=False)] *)
Definition torch_argmax (output : tensor) : label_tensor :=
  map (fun img => [argmax_image img]) output.

(** ** Collaborators and the trainer's world *)

(** What the trainer consumes from outside: the network, the loss
    functions of torch, the optimizer, the CRF routine and the statistics
    provider. *)
Class Network : Type := {
  weights : Type;
  raw_samples : Type;
  (** [self.model(data)] *)
  forward : weights -> tensor -> tensor;
  (** [nn.CrossEntropyLoss(reduction="none")(output, target)], flattened *)
  cross_entropy_none : tensor -> label_tensor -> list fl;
  (** [nn.CrossEntropyLoss()(output, target).item()] *)
  cross_entropy_mean : tensor -> label_tensor -> fl;
  (** [loss.backward(); self.optimizer.step()] *)
  optimizer_step : weights -> tensor -> label_tensor -> weights;
  (** [crf_batch_postprocessing(raw_samples, output, num_classes)] *)
  crf_batch_postprocessing : raw_samples -> tensor -> nat -> tensor;
  (** [self.data_statistics.get_distribution()]: C planes of P pixels *)
  get_distribution : image
}.

(** What the run does to the outside, in order. *)
Inductive event `{Network} : Type :=
| Call_train_mode
| Call_eval_mode
| Call_zero_grad
| Call_forward (data : tensor)
| Call_loss
| Call_backward
| Call_step
| Call_crf
| Call_save
| Call_visualize
| Print_separator
| Print_report (name : string) (loss : fl) (correct total : Z) (accuracy jaccard : fl)
| Print_report_2class (name : string) (loss : fl) (correct total : Z) (accuracy : fl)
| Print_table_header (columns : nat)
| Print_table_na (class_type : nat)
| Print_table_row (class_type : nat) (total : Z) (percent : list fl)
| Print_loss_vec (loss_vec : list fl)
| Print_saving.

Record state `{Network} : Type := mk_state {
  model_weights : weights;
  train_stats : Stats.t;
  test_stats : Stats.t;
  trace : list event
}.
Arguments mk_state {_} _ _ _ _.

Record batch `{Network} : Type := mk_batch {
  b_raw : raw_samples;
  b_data : tensor;
  b_target : label_tensor
}.
Arguments mk_batch {_} _ _ _.

Record loader `{Network} : Type := mk_loader {
  batches : list batch;
  batch_size : Z;
  (** [len(loader.dataset)] *)
  dataset_len : Z
}.
Arguments mk_loader {_} _ _ _.

(** The fields of [SegmentationTrainer] set by [__init__]. *)
Record trainer `{Network} : Type := mk_trainer {
  train_loader : loader;
  test_loader : loader;
  num_classes : nat;
  log_spacing : Z;
  save_spacing : Z;
  per_class : bool
}.
Arguments mk_trainer {_} _ _ _ _ _ _.

Section Trainer.
Context `{net : Network}.

Definition emit (e : event) : M state unit :=
  modify (fun s => mk_state (model_weights s) (train_stats s) (test_stats s)
                            (trace s ++ [e])).

Definition set_train_stats (t : Stats.t) (s : state) : state :=
  mk_state (model_weights s) t (test_stats s) (trace s).
Definition set_test_stats (t : Stats.t) (s : state) : state :=
  mk_state (model_weights s) (train_stats s) t (trace s).
Definition set_weights (w : weights) (s : state) : state :=
  mk_state w (train_stats s) (test_stats s) (trace s).

Definition modify_train_stats (f : Stats.t -> Stats.t) : M state unit :=
  modify (fun s => set_train_stats (f (train_stats s)) s).
Definition modify_test_stats (f : Stats.t -> Stats.t) : M state unit :=
  modify (fun s => set_test_stats (f (test_stats s)) s).

(** The confusion matrix of [model.train_stats] and of [model.test_stats]
    as the state of a computation on a matrix. *)
Definition on_train_confusion {A} (c : M matrix A) : M state A :=
  zoom (fun s => Stats.confusion (train_stats s))
       (fun m s => set_train_stats (Stats.set_confusion m (train_stats s)) s) c.
Definition on_test_confusion {A} (c : M matrix A) : M state A :=
  zoom (fun s => Stats.confusion (test_stats s))
       (fun m s => set_test_stats (Stats.set_confusion m (test_stats s)) s) c.

(** *** [print_log] *)

(** One row of the per-class table over the first [columns] columns. *)
Definition print_table_row (columns : nat) (acc_dict : matrix) (class_type : nat)
    : M state unit :=
  row <- lift (getitem acc_dict class_type) ;;
  cells <- lift (getitems row (range columns)) ;;
  let total := sumZ cells in
  if total =? 0 then emit (Print_table_na class_type)
  else emit (Print_table_row class_type total
               (map (fun a => Fin (IZR (100 * a) / IZR total)) cells)).

Definition print_table (acc_dict : matrix) : M state unit :=
  (if (length acc_dict =? 3)%nat then
     emit (Print_table_header 3) ;;
     for_each (range (length acc_dict)) (print_table_row 3 acc_dict)
   else
     emit (Print_table_header 2) ;;
     for_each (range (length acc_dict)) (print_table_row 2 acc_dict)) ;;
  emit Print_separator.

Definition print_log (class_correct_pixels class_jacard_or : list Z) (loss : fl)
    (num_samples batch_size : Z) (name : string)
    (use_acc_dict : bool) (acc_dict : matrix) (test : bool) : M state unit :=
  loss <- lift (py_truediv loss (num_samples * batch_size)) ;;
  let total_samples := num_samples * batch_size * 1280 * 720 in
  accuracy <- lift (py_truediv (Fin (100 * IZR (sumZ class_correct_pixels)))
                               total_samples) ;;
  ratios <- lift (py_map2 py_int_truediv class_correct_pixels class_jacard_or) ;;
  let jaccard_accuracy := fl_mean ratios in
  emit Print_separator ;;
  emit (Print_report name loss (sumZ class_correct_pixels) total_samples
                     accuracy jaccard_accuracy) ;;
  (if test then
     modify_test_stats (Stats.append_loss loss) ;;
     modify_test_stats (Stats.append_accuracy accuracy) ;;
     modify_test_stats (Stats.try_append_jaccard jaccard_accuracy)
   else
     modify_train_stats (Stats.append_loss loss) ;;
     modify_train_stats (Stats.append_accuracy accuracy) ;;
     modify_test_stats (Stats.try_append_jaccard jaccard_accuracy)) ;;
  if use_acc_dict then print_table acc_dict else ret tt.

(** *** [train]

    The progress bar built at the top of [train] and of [test] is never
    advanced (its calls are commented out) and is left out. *)

(** The local variables of [train] that live across batches. *)
Record train_locals : Type := mk_train_locals {
  tl_class_correct : list Z;
  tl_class_jacard_or : list Z;
  tl_sum_loss : fl
}.

(** Run a computation on local variables next to the world. *)
Definition with_local {L A} (l : L) (c : M L A) : M state (A * L) :=
  fun s => match c l with
           | (Ok a, l') => (Ok (a, l'), s)
           | (Raise e, _) => (Raise e, s)
           end.

(** The body of the batch loop of [train] past the [start_index] guard. *)
Definition train_batch (self : trainer) (batch_idx : nat) (b : batch)
    (loc : train_locals) : M state train_locals :=
  let data := b_data b in
  let target := b_target b in
  let loss_vec := repeat (Fin 0) (num_classes self) in
  emit Call_zero_grad ;;
  s <- get ;;
  let output := forward (model_weights s) data in
  emit (Call_forward data) ;;
  let loss := cross_entropy_none output target in
  emit Call_loss ;;
  let pred := torch_argmax output in
  counts <- with_local (tl_class_correct loc, tl_class_jacard_or loc)
              (record_pixel_measurements (num_classes self) pred target) ;;
  let class_correct := fst (snd counts) in
  let class_jacard_or := snd (snd counts) in
  lv <- with_local loss_vec (get_per_class_loss loss target) ;;
  let loss_vec := snd lv in
  let loss := fl_sum loss_vec in
  modify_train_stats (Stats.append_per_class_loss loss_vec) ;;
  let sum_loss := fl_add (tl_sum_loss loc) loss in
  emit Call_backward ;;
  modify (fun s => set_weights (optimizer_step (model_weights s) data target) s) ;;
  emit Call_step ;;
  on_train_confusion (get_per_class_accuracy pred target) ;;
  m <- lift (py_mod (Z.of_nat batch_idx) (log_spacing self)) ;;
  (if m =? 0 then
     modify_train_stats (fun t =>
       Stats.append_per_class_accuracy (np_diagonal (Stats.confusion t)) t) ;;
     emit (Print_loss_vec loss_vec) ;;
     s <- get ;;
     print_log class_correct class_jacard_or sum_loss
               (Z.of_nat batch_idx + 1) (batch_size (train_loader self))
               "Training Set" (per_class self)
               (Stats.confusion (train_stats s)) false
   else ret tt) ;;
  m <- lift (py_mod (Z.of_nat batch_idx) (save_spacing self)) ;;
  (if m =? 0 then emit Print_saving ;; emit Call_save else ret tt) ;;
  ret (mk_train_locals class_correct class_jacard_or sum_loss).

(** [for batch_idx, b in enumerate(loader)] threading local variables. *)
Fixpoint for_batches {L} (xs : list (nat * batch))
    (body : nat -> batch -> L -> M state L) (loc : L) : M state L :=
  match xs with
  | [] => ret loc
  | (batch_idx, b) :: xs' =>
      loc' <- body batch_idx b loc ;;
      for_batches xs' body loc'
  end.

Definition train (self : trainer) (epoch : Z) (start_index : Z)
    : M state unit :=
  emit Call_train_mode ;;
  let class_correct := repeat 0 (num_classes self) in
  let class_jacard_or := repeat 0 (num_classes self) in
  let sum_loss := Fin 0 in
  for_batches (enumerate (batches (train_loader self)))
    (fun batch_idx b loc =>
       if Z.of_nat batch_idx <? start_index then ret loc
       else train_batch self batch_idx b loc)
    (mk_train_locals class_correct class_jacard_or sum_loss) ;;
  ret tt.

(** *** The evaluation pass: [test] *)

(** Lines 111-116: the penalty built from the class distribution. *)
Definition unbiased_prior (num_classes : nat) : M image unit :=
  for_each (range num_classes) (fun i =>
    prior <- get ;;
    plane <- lift (getitem prior i) ;;
    let m := fl_mean plane in
    prior' <- lift (setitem prior i (map (fun x => fl_div x m) plane)) ;;
    put prior') ;;
  prior <- get ;;
  let normalization := sum_dim0 prior in
  let prior := div_dim0 prior normalization in
  put (map (map (fun x => fl_sub (Fin 1) x)) prior).

(** One turn of the [for i in range(len(output))] loop of the prior
    correction, up to and including [output[i] /= normalization]. *)
Definition correct_image (prior : image) (img : image) : image :=
  let img := zip_with (zip_with fl_sub) img prior in
  let img := map (map fl_sigmoid) img in
  let normalization := sum_dim0 img in
  div_dim0 img normalization.

(** The denominator [normalization] computed in that turn. *)
Definition normalization_of (prior : image) (img : image) : list fl :=
  sum_dim0 (map (map fl_sigmoid) (zip_with (zip_with fl_sub) img prior)).

(** The loop body as written: the logarithm of the whole batch is taken
    inside the loop. *)
Definition prior_step (prior : image) (output : tensor) (i : nat) : tensor :=
  let output := update output i (correct_image prior (nth i output [])) in
  tensor_map fl_log output.

(** Lines 123-129. *)
Definition prior_correction (prior : image) (output : tensor) : tensor :=
  let output := tensor_map fl_exp output in
  fold_left (prior_step prior) (range (length output)) output.

(** The local variables of [test] that live across batches. *)
Record test_locals : Type := mk_test_locals {
  te_test_loss : fl;
  te_class_correct : list Z;
  te_class_jacard_or : list Z;
  te_batches_done : Z
}.

Definition test_batch (self : trainer) (dataset_name : string)
    (use_crf visualize use_prior : bool) (prior : image)
    (batch_idx : nat) (b : batch) (loc : test_locals) : M state test_locals :=
  let raw_samples := b_raw b in
  let data := b_data b in
  let target := b_target b in
  s <- get ;;
  let output := forward (model_weights s) data in
  emit (Call_forward data) ;;
  let output := if use_prior then prior_correction prior output else output in
  (if use_crf then emit Call_crf else ret tt) ;;
  let output := if use_crf
                then crf_batch_postprocessing raw_samples output (num_classes self)
                else output in
  emit Call_loss ;;
  let test_loss := fl_add (te_test_loss loc) (cross_entropy_mean output target) in
  let pred := torch_argmax output in
  counts <- with_local (te_class_correct loc, te_class_jacard_or loc)
              (record_pixel_measurements (num_classes self) pred target) ;;
  let class_correct := fst (snd counts) in
  let class_jacard_or := snd (snd counts) in
  on_test_confusion (get_per_class_accuracy pred target) ;;
  let batches_done := te_batches_done loc + 1 in
  m <- lift (py_mod batches_done (log_spacing self)) ;;
  (if m =? 0 then
     modify_test_stats (fun t =>
       Stats.append_per_class_accuracy (np_diagonal (Stats.confusion t)) t) ;;
     s <- get ;;
     print_log class_correct class_jacard_or test_loss batches_done
               (batch_size (test_loader self)) dataset_name true
               (Stats.confusion (test_stats s)) true ;;
     emit Print_saving ;;
     emit Call_save ;;
     (if visualize then emit Call_visualize else ret tt)
   else ret tt) ;;
  ret (mk_test_locals test_loss class_correct class_jacard_or batches_done).

Definition test (self : trainer) (dataset_name : string)
    (use_crf : bool) (iters_per_log : Z) (visualize use_prior : bool)
    : M state unit :=
  emit Call_eval_mode ;;
  let test_loss := Fin 0 in
  let class_correct := repeat 0 (num_classes self) in
  let class_jacard_or := repeat 0 (num_classes self) in
  let batches_done := 0 in
  p <- with_local get_distribution (unbiased_prior (num_classes self)) ;;
  let prior := snd p in
  for_batches (enumerate (batches (test_loader self)))
    (test_batch self dataset_name use_crf visualize use_prior prior)
    (mk_test_locals test_loss class_correct class_jacard_or batches_done) ;;
  ret tt.

End Trainer.

(** ** The earlier two-class script: [2_class/fcn_2class.py]

    [get_per_class_loss] and [get_per_class_accuracy] are the same
    functions as above; [print_log] and [test] differ.  The batches of its
    loader carry no raw samples. *)

Module TwoClass.
Section Script.
Context `{net : Network}.

Definition print_log (correct_pixels : Z) (loss : fl) (num_samples batch_size : Z)
    (name : string) (use_acc_dict : bool) (acc_dict : matrix) : M state unit :=
  loss <- lift (py_truediv loss (num_samples * batch_size)) ;;
  let total_samples := num_samples * batch_size * 1280 * 720 in
  emit Print_separator ;;
  accuracy <- lift (py_truediv (Fin (100 * IZR correct_pixels)) total_samples) ;;
  emit (Print_report_2class name loss correct_pixels total_samples accuracy) ;;
  (if use_acc_dict then
     emit (Print_table_header 2) ;;
     for_each (range (length acc_dict)) (print_table_row 2 acc_dict)
   else ret tt) ;;
  emit Print_separator.

(** [pred.shape == (batch_size, 1280, 720)], on flattened images. *)
Definition shape_ok (pred : label_tensor) (batch_size : Z) : bool :=
  (Z.of_nat (length pred) =? batch_size)
  && forallb (fun img => Z.of_nat (length (concat img)) =? 1280 * 720) pred.

(** [pred.eq(target.view_as(pred)).sum().item()] *)
Definition eq_pixels (pred target : label_tensor) : Z :=
  Z.of_nat (length (filter (fun xy => fst xy =? snd xy)
                           (combine (ravel pred) (ravel target)))).

Record test_locals : Type := mk_test_locals {
  test_loss : fl;
  correct : Z;
  batches_done : Z;
  acc_dict : matrix
}.

Definition test_batch (test_loader : loader) (dataset_name : string)
    (iters_per_log : Z) (visualize : bool)
    (batch_idx : nat) (b : batch) (loc : test_locals) : M state test_locals :=
  let data := b_data b in
  let target := b_target b in
  s <- get ;;
  let output := forward (model_weights s) data in
  emit (Call_forward data) ;;
  emit Call_loss ;;
  let test_loss := fl_add (test_loss loc) (cross_entropy_mean output target) in
  let pred := torch_argmax output in
  (if shape_ok pred (batch_size test_loader) then ret tt else raise AssertionError) ;;
  let correct := correct loc + eq_pixels pred target in
  acc <- with_local (acc_dict loc) (get_per_class_accuracy pred target) ;;
  let acc_dict := snd acc in
  let batches_done := batches_done loc + 1 in
  m <- lift (py_mod batches_done iters_per_log) ;;
  (if m =? 0 then
     print_log correct test_loss batches_done (batch_size test_loader)
               dataset_name true acc_dict ;;
     (if visualize then emit Call_visualize else ret tt)
   else ret tt) ;;
  ret (mk_test_locals test_loss correct batches_done acc_dict).

Definition test (test_loader : loader) (dataset_name : string) (use_crf : bool)
    (iters_per_log : Z) (visualize : bool) : M state unit :=
  emit Call_eval_mode ;;
  loc <- for_batches (enumerate (batches test_loader))
           (test_batch test_loader dataset_name iters_per_log visualize)
           (mk_test_locals (Fin 0) 0 0 [[0; 0]; [0; 0]]) ;;
  print_log (correct loc) (test_loss loc) (dataset_len test_loader) 1
            dataset_name true (acc_dict loc).

End Script.
End TwoClass.

(** ** Projections of the trace *)

Section Traces.
Context `{net : Network}.

(** The inputs of the forward passes, in order. *)
Fixpoint forwards (tr : list event) : list tensor :=
  match tr with
  | [] => []
  | Call_forward d :: tr' => d :: forwards tr'
  | _ :: tr' => forwards tr'
  end.

Definition is_report (e : event) : bool :=
  match e with
  | Print_report _ _ _ _ _ _ | Print_report_2class _ _ _ _ _ => true
  | _ => false
  end.
Definition is_save (e : event) : bool :=
  match e with Call_save => true | _ => false end.
Definition is_step (e : event) : bool :=
  match e with Call_step => true | _ => false end.
Definition is_loss (e : event) : bool :=
  match e with Call_loss => true | _ => false end.
Definition is_forward (e : event) : bool :=
  match e with Call_forward _ => true | _ => false end.

(** How many events of a kind the trace holds. *)
Definition count_events (kind : event -> bool) (tr : list event) : nat :=
  length (filter kind tr).

End Traces.

(** ** A small network for worked examples

    The scores are the input itself, every pixel costs a loss of 1, the
    optimizer leaves the (trivial) weights alone and the class distribution
    is uniform over two classes. *)
Definition example_net : Network := {|
  weights := unit;
  raw_samples := unit;
  forward := fun _ data => data;
  cross_entropy_none := fun _ target => map (fun _ => Fin 1) (ravel target);
  cross_entropy_mean := fun _ _ => Fin 1;
  optimizer_step := fun w _ _ => w;
  crf_batch_postprocessing := fun _ output _ => output;
  get_distribution := [[Fin (1 / 2)]; [Fin (1 / 2)]]
|}.

Definition empty_stats (n : nat) : Stats.t :=
  Stats.mk [] [] (Some []) [] [] (repeat (repeat 0 n) n).

Definition example_state : @state example_net :=
  @mk_state example_net tt (empty_stats 2) (empty_stats 2) [].

(** ** Worked inputs *)

(** Log-probabilities of the one-hot prediction [[0, 0], [1, 1]]. *)
Definition one_hot_scores : tensor :=
  [[[Fin 0; Fin 0; NInf; NInf]; [NInf; NInf; Fin 0; Fin 0]]].

Definition example_batch : @batch example_net :=
  @mk_batch example_net tt one_hot_scores scenario_target.

Definition example_loader (n : nat) : @loader example_net :=
  @mk_loader example_net (repeat example_batch n) 1 (Z.of_nat n).

Definition example_trainer (n : nat) (log_spacing : Z) : @trainer example_net :=
  @mk_trainer example_net (example_loader n) (example_loader n) 2 log_spacing 100 false.

(** ** The log points of an evaluation pass *)

Inductive mark : Type :=
| Mforward
| Mreport
| Msave.

Section Marks.
Context `{net : Network}.

Fixpoint marks (tr : list event) : list mark :=
  match tr with
  | [] => []
  | Call_forward _ :: tr' => Mforward :: marks tr'
  | Print_report _ _ _ _ _ _ :: tr' => Mreport :: marks tr'
  | Call_save :: tr' => Msave :: marks tr'
  | _ :: tr' => marks tr'
  end.

Definition has_mark (e : event) : bool :=
  match e with
  | Call_forward _ | Print_report _ _ _ _ _ _ | Call_save => true
  | _ => false
  end.

End Marks.

(** What [n] batches leave when a report and a checkpoint follow exactly
    the batches whose count [batches_done] is a multiple of [log_spacing]. *)
Definition expected_marks (log_spacing : Z) (done : Z) (n : nat) : list mark :=
  flat_map (fun k => Mforward ::
                     (if (done + Z.of_nat k) mod log_spacing =? 0
                      then [Mreport; Msave] else []))
           (seq 1 n).

Definition log_points (log_spacing : Z) (done : Z) (n : nat) : nat :=
  length (filter (fun k => (done + Z.of_nat k) mod log_spacing =? 0) (seq 1 n)).

(** ** Two classes, one pixel *)

(** The share of the score [x] once the penalty [c] is subtracted from the
    exponentiated scores [x0] and [x1] of a pixel, squashed and
    renormalized. *)
Definition share (c x x0 x1 : R) : R :=
  (sigmoid (x + - c) / (sigmoid (x0 + - c) + sigmoid (x1 + - c)))%R.

(** One image of two class planes over a single pixel. *)
Definition pixel2 (x0 x1 : fl) : image := [[x0]; [x1]].
Arguments pixel2 : simpl never.

(** A value a sum of squashed scores can take: a finite number that is not
    negative, or NaN. *)
Definition squashed (x : fl) : Prop :=
  match x with
  | Fin r => (0 <= r)%R
  | NaN => True
  | _ => False
  end.

(** A trainer over a loader of [n] copies of one batch whose scores are
    the given tensor. *)
Definition trainer_on (scores : tensor) (target : label_tensor) (n : nat)
    (log_spacing : Z) : @trainer example_net :=
  let l := @mk_loader example_net
             (repeat (@mk_batch example_net tt scores target) n) 1 (Z.of_nat n) in
  @mk_trainer example_net l l 2 log_spacing 100 false.

(** ** Vocabulary of the statements *)

(** Two matrices with rows of the same lengths. *)
Definition same_shape (a b : matrix) : Prop := map (@length Z) a = map (@length Z) b.

(** An [n] by [n] matrix. *)
Definition square (n : nat) (m : matrix) : Prop :=
  length m = n /\ forall r, (r < n)%nat -> length (nth r m []) = n.

(** The sum of [f 0 .. f (n-1)]. *)
Definition sum_over (n : nat) (f : nat -> Z) : Z := sumZ (map f (range n)).

(** Every label lies in [[0, n)]. *)
Definition in_range (n : nat) (x : label_tensor) : Prop :=
  Forall (fun v => 0 <= v < Z.of_nat n) (ravel x).

Definition all_squashed (planes : list (list fl)) : Prop :=
  Forall (Forall squashed) planes.

Section Vocabulary.
Context `{net : Network}.

(** The computation leaves the projection [P] of the state as it was,
    whether it returns or raises. *)
Definition preserves {X A} (P : state -> X) (c : M state A) : Prop :=
  forall s, P (snd (c s)) = P s.

(** A projection of the state that does not read the trace. *)
Definition ignores_trace {X} (P : state -> X) : Prop :=
  forall w tr ts tr1 tr2, P (mk_state w tr ts tr1) = P (mk_state w tr ts tr2).

Definition train_jaccard (s : state) : option (list fl) :=
  Stats.jaccard_accuracy (train_stats s).

Definition forwarded (s : state) : list tensor := forwards (trace s).

Definition marked (s : state) : list mark := marks (trace s).

Definition snapshots (s : state) : nat := length (Stats.per_class_accuracy (test_stats s)).

(** A projection of the state that neither a line other than a report
    nor an update of the test confusion matrix changes. *)
Definition quiet {X} (P : state -> X) : Prop :=
  (forall e, is_report e = false -> preserves P (emit e)) /\
  (forall A (c : M matrix A), preserves P (on_test_confusion c)).

(** From a state satisfying [I] the computation returns a value satisfying
    [Q] and leaves a state satisfying [I]. *)
Definition returns {A} (I : state -> Prop) (c : M state A) (Q : A -> Prop) : Prop :=
  forall s, I s -> exists a s', c s = (Ok a, s') /\ I s' /\ Q a.

(** A property of the state that does not read the trace. *)
Definition trace_blind (I : state -> Prop) : Prop :=
  forall w tr ts t1 t2, I (mk_state w tr ts t1) -> I (mk_state w tr ts t2).

(** The state invariant of an evaluation pass: a square confusion matrix. *)
Definition test_confusion_square (n : nat) (s : state) : Prop :=
  square n (Stats.confusion (test_stats s)).

(** The properties of the local variables kept from batch to batch. *)
Definition locals_fit (self : trainer) (done : Z) (loc : test_locals) : Prop :=
  (num_classes self <= length (te_class_correct loc))%nat /\
  (num_classes self <= length (te_class_jacard_or loc))%nat /\
  te_batches_done loc = done.

End Vocabulary.

(** ** Further vocabulary *)


(** The number of pixels on which both label maps are defined. *)
Definition pixel_count (pred target : label_tensor) : Z :=
  Z.of_nat (length (combine (ravel pred) (ravel target))).

(** Every label fits an unsigned byte. *)
Definition byte_labels (x : label_tensor) : Prop :=
  Forall (fun v => 0 <= v < 256) (ravel x).

(** The loss [get_per_class_loss] writes for class [i]. *)
Definition class_loss (loss : list fl) (target : label_tensor) (i : nat) : fl :=
  let mask := torch_eq_scalar (ravel target) (Z.of_nat i) in
  let total_num := torch_sum_mask mask in
  if total_num >? 0
  then fl_div (fl_sum (torch_masked_select loss mask)) (fl_of_Z total_num)
  else fl_sum (torch_masked_select loss mask).

Section FurtherProjections.
Context `{net : Network}.

(** Everything [model.test_stats] holds except the Jaccard list. *)
Definition test_stats_but_jaccard (s : state)
    : list fl * list fl * list (list fl) * list (list Z) * matrix :=
  let t := test_stats s in
  (Stats.loss t, Stats.accuracy t, Stats.per_class_loss t,
   Stats.per_class_accuracy t, Stats.confusion t).

(** The calls only a training step makes. *)
Definition is_training_call (e : event) : bool :=
  match e with
  | Call_train_mode | Call_zero_grad | Call_backward | Call_step => true
  | _ => false
  end.

(** What an evaluation pass has no business changing. *)
Definition untouched_by_test (s : state) : weights * Stats.t * list event :=
  (model_weights s, train_stats s, filter is_training_call (trace s)).

(** The state [print_log] reaches once the report is printed and the
    three values are recorded, before the per-class table. *)
Definition logged (test : bool) (name : string) (loss : fl) (correct total : Z)
    (accuracy jaccard : fl) (s : state) : state :=
  let tr := trace s ++ [Print_separator;
                        Print_report name loss correct total accuracy jaccard] in
  if test then
    mk_state (model_weights s) (train_stats s)
      (Stats.try_append_jaccard jaccard
         (Stats.append_accuracy accuracy (Stats.append_loss loss (test_stats s))))
      tr
  else
    mk_state (model_weights s)
      (Stats.append_accuracy accuracy (Stats.append_loss loss (train_stats s)))
      (Stats.try_append_jaccard jaccard (test_stats s))
      tr.

(** The number of columns [print_log] tabulates. *)
Definition table_columns (acc_dict : matrix) : nat :=
  if (length acc_dict =? 3)%nat then 3%nat else 2%nat.

(** What the batch of index [i] leaves in a training run that goes on:
    its forward pass, a report when [i] is a multiple of [log_spacing], a
    checkpoint when it is a multiple of [save_spacing]. *)
Definition train_marks (self : trainer) (i : nat) : list mark :=
  Mforward ::
    (if Z.of_nat i mod log_spacing self =? 0 then [Mreport] else []) ++
    (if Z.of_nat i mod save_spacing self =? 0 then [Msave] else []).

(** One parameter update per batch, in order. *)
Definition steps (bs : list batch) (w : weights) : weights :=
  fold_left (fun w b => optimizer_step w (b_data b) (b_target b)) bs w.

(** The per-class loss vector [train] computes for batch [b] under the
    weights [w]. *)
Definition loss_vector (self : trainer) (w : weights) (b : batch) : list fl :=
  map (class_loss (cross_entropy_none (forward w (b_data b)) (b_target b)) (b_target b))
      (range (num_classes self)).

(** The loss vectors of a run over the batches [bs] from the weights [w]:
    each batch is scored under the weights the previous update left. *)
Fixpoint loss_vectors (self : trainer) (bs : list batch) (w : weights)
    : list (list fl) :=
  match bs with
  | [] => []
  | b :: bs' =>
      loss_vector self w b
      :: loss_vectors self bs' (optimizer_step w (b_data b) (b_target b))
  end.

(** The reports printed so far, in order. *)
Definition report_lines (s : state) : list event := filter is_report (trace s).

(** The model as the two passes can change it: weights and both
    statistics records. *)
Definition model_record (s : state) : weights * Stats.t * Stats.t :=
  (model_weights s, train_stats s, test_stats s).

(** The number of reports printed so far. *)
Definition reports (s : state) : nat := count_events is_report (trace s).

End FurtherProjections.



(** ** A network that counts its parameter updates

    As [example_net], with the number of updates so far as its weights. *)
Definition counting_net : Network := {|
  weights := nat;
  raw_samples := unit;
  forward := fun _ data => data;
  cross_entropy_none := fun _ target => map (fun _ => Fin 1) (ravel target);
  cross_entropy_mean := fun _ _ => Fin 1;
  optimizer_step := fun w _ _ => S w;
  crf_batch_postprocessing := fun _ output _ => output;
  get_distribution := [[Fin (1 / 2)]; [Fin (1 / 2)]]
|}.

Definition counting_state : @state counting_net :=
  @mk_state counting_net 0%nat (empty_stats 2) (empty_stats 2) [].

Definition counting_batch : @batch counting_net :=
  @mk_batch counting_net tt one_hot_scores scenario_target.

Definition counting_trainer (n : nat) (log_spacing save_spacing : Z)
    : @trainer counting_net :=
  let l := @mk_loader counting_net (repeat counting_batch n) 1 (Z.of_nat n) in
  @mk_trainer counting_net l l 2 log_spacing save_spacing false.

(** ** The training loop of the two-class script: [fcn_2class.train] *)

Module TwoClassTrain.
Section Script.
Context `{net : Network}.

(** The local variables of the script's [train] that live across batches. *)
Record train_locals : Type := mk_train_locals {
  sum_num_correct : Z;
  sum_loss : fl;
  acc_dict : matrix
}.

Definition train_batch (train_loader : loader) (log_spacing save_spacing : Z)
    (per_class : bool) (batch_idx : nat) (b : batch) (loc : train_locals)
    : M state train_locals :=
  let loss_vec := [Fin 0; Fin 0] in
  let data := b_data b in
  let target := b_target b in
  emit Call_zero_grad ;;
  s <- get ;;
  let output := forward (model_weights s) data in
  emit (Call_forward data) ;;
  let loss := cross_entropy_none output target in
  emit Call_loss ;;
  let pred := torch_argmax output in
  (if TwoClass.shape_ok pred (batch_size train_loader) then ret tt
   else raise AssertionError) ;;
  let sum_num_correct := sum_num_correct loc + TwoClass.eq_pixels pred target in
  lv <- with_local loss_vec (get_per_class_loss loss target) ;;
  let loss_vec := snd lv in
  let loss := fl_sum loss_vec in
  let sum_loss := fl_add (sum_loss loc) loss in
  emit Call_backward ;;
  modify (fun s => set_weights (optimizer_step (model_weights s) data target) s) ;;
  emit Call_step ;;
  acc <- (if per_class
          then with_local (acc_dict loc) (get_per_class_accuracy pred target)
          else ret (tt, acc_dict loc)) ;;
  let acc_dict := snd acc in
  m <- lift (py_mod (Z.of_nat batch_idx) log_spacing) ;;
  (if m =? 0 then
     emit (Print_loss_vec loss_vec) ;;
     TwoClass.print_log sum_num_correct sum_loss (Z.of_nat batch_idx + 1)
                        (batch_size train_loader) "Training Set" per_class acc_dict
   else ret tt) ;;
  m <- lift (py_mod (Z.of_nat batch_idx) save_spacing) ;;
  (if m =? 0 then emit Print_saving ;; emit Call_save else ret tt) ;;
  ret (mk_train_locals sum_num_correct sum_loss acc_dict).

Definition train (train_loader : loader) (epoch : Z) (log_spacing save_spacing : Z)
    (per_class : bool) : M state unit :=
  emit Call_train_mode ;;
  for_batches (enumerate (batches train_loader))
    (train_batch train_loader log_spacing save_spacing per_class)
    (mk_train_locals 0 (Fin 0) [[0; 0]; [0; 0]]) ;;
  ret tt.


End Script.
End TwoClassTrain.


(** * Properties *)

(** ** Lists updated in place *)

Lemma update_length {A} (l : list A) i x : length (update l i x) = length l.
Proof.
  revert i; induction l as [|h t IH]; intros [|i]; simpl; auto.
Qed.

Lemma nth_update_same {A} (l : list A) i x d :
  (i < length l)%nat -> nth i (update l i x) d = x.
Proof.
  revert i; induction l as [|h t IH]; intros [|i] Hi; simpl in *; try lia; auto.
  apply IH; lia.
Qed.

Lemma nth_update_other {A} (l : list A) i k x d :
  k <> i -> nth k (update l i x) d = nth k l d.
Proof.
  revert i k; induction l as [|h t IH]; intros [|i] [|k] Hk; simpl; auto; try lia.
Qed.

Lemma getitem_nth {A} (l : list A) i d :
  (i < length l)%nat -> getitem l i = Ok (nth i l d).
Proof.
  intros Hi. unfold getitem.
  destruct (nth_error l i) as [x|] eqn:E.
  - erewrite nth_error_nth; eauto.
  - apply nth_error_None in E; lia.
Qed.

Lemma setitem_ok {A} (l : list A) i x :
  (i < length l)%nat -> setitem l i x = Ok (update l i x).
Proof.
  intros Hi. unfold setitem.
  destruct (Nat.ltb_spec i (length l)); [reflexivity | lia].
Qed.

(** ** The confusion accumulator *)

Lemma same_shape_length a b : same_shape a b -> length a = length b.
Proof.
  unfold same_shape; intros H.
  rewrite <- (length_map (@length Z) a), H, length_map; reflexivity.
Qed.

Lemma same_shape_row a b r :
  same_shape a b -> length (nth r a []) = length (nth r b []).
Proof.
  unfold same_shape; intros H.
  transitivity (nth r (map (@length Z) a) 0%nat).
  - symmetry. apply (map_nth (@length Z) a [] r).
  - rewrite H. apply (map_nth (@length Z) b [] r).
Qed.

Lemma same_shape_square n a b : same_shape a b -> square n a -> square n b.
Proof.
  intros H [Hl Hr]; split.
  - rewrite <- (same_shape_length _ _ H); auto.
  - intros r Hlt. rewrite <- (same_shape_row _ _ r H); auto.
Qed.

Lemma update_row_shape (acc : matrix) j row :
  length row = length (nth j acc []) -> (j < length acc)%nat ->
  same_shape (update acc j row) acc.
Proof.
  unfold same_shape. revert j; induction acc as [|h t IH]; intros [|j] Hrow Hj;
    simpl in *; try lia.
  - now rewrite Hrow.
  - f_equal. apply IH; auto; lia.
Qed.

Lemma iadd_cell_spec (acc : matrix) j i v :
  (j < length acc)%nat -> (i < length (nth j acc []))%nat ->
  exists acc',
    iadd_cell j i v acc = (Ok tt, acc') /\ same_shape acc' acc /\
    forall r c, cell acc' r c
                = cell acc r c + (if (r =? j)%nat && (c =? i)%nat then v else 0).
Proof.
  intros Hj Hi.
  exists (update acc j (update (nth j acc []) i (cell acc j i + v))).
  split; [|split].
  - unfold iadd_cell, bind, get, lift, put.
    rewrite (getitem_nth acc j []) by assumption.
    rewrite (getitem_nth (nth j acc []) i 0) by assumption.
    rewrite setitem_ok by assumption.
    rewrite setitem_ok by assumption.
    reflexivity.
  - apply update_row_shape; auto. apply update_length.
  - intros r c. unfold cell.
    destruct (Nat.eqb_spec r j) as [->|Hr]; simpl.
    + rewrite nth_update_same by assumption.
      destruct (Nat.eqb_spec c i) as [->|Hc].
      * rewrite nth_update_same by assumption. reflexivity.
      * rewrite nth_update_other by assumption. lia.
    + rewrite nth_update_other by assumption. lia.
Qed.

(** The inner loop: one column [i], the rows listed in [js]. *)
Lemma column_loop_spec (f : nat -> Z) i (js : list nat) :
  NoDup js ->
  forall acc : matrix,
    (forall j, In j js -> (j < length acc)%nat /\ (i < length (nth j acc []))%nat) ->
    exists acc',
      for_each js (fun j => iadd_cell j i (f j)) acc = (Ok tt, acc') /\
      same_shape acc' acc /\
      forall r c, cell acc' r c
                  = cell acc r c
                    + (if (c =? i)%nat && existsb (Nat.eqb r) js then f r else 0).
Proof.
  induction 1 as [|j js Hnin Hnd IH]; intros acc Hin.
  - exists acc. simpl. repeat split; auto.
    intros r c. rewrite andb_false_r. lia.
  - destruct (Hin j (or_introl eq_refl)) as [Hj Hi].
    destruct (iadd_cell_spec acc j i (f j) Hj Hi) as (acc1 & E1 & S1 & C1).
    destruct (IH acc1) as (acc2 & E2 & S2 & C2).
    { intros k Hk. destruct (Hin k (or_intror Hk)) as [Hk1 Hk2].
      rewrite (same_shape_length _ _ S1), (same_shape_row _ _ k S1). auto. }
    exists acc2. split; [|split].
    + simpl. unfold bind at 1. rewrite E1. exact E2.
    + unfold same_shape in *. congruence.
    + intros r c. rewrite C2, C1. simpl existsb.
      destruct (Nat.eqb_spec c i) as [->|Hc]; simpl.
      * destruct (Nat.eqb_spec r j) as [->|Hr]; simpl.
        -- replace (existsb (Nat.eqb j) js) with false; [lia|].
           symmetry. apply not_true_is_false. intros Hex.
           apply existsb_exists in Hex. destruct Hex as (x & Hx & Hxe).
           apply Nat.eqb_eq in Hxe. subst. contradiction.
        -- lia.
      * rewrite andb_false_r. lia.
Qed.

Lemma existsb_range r n : existsb (Nat.eqb r) (range n) = (r <? n)%nat.
Proof.
  unfold range. destruct (Nat.ltb_spec r n) as [H|H].
  - apply existsb_exists. exists r. split; [apply in_seq; lia | apply Nat.eqb_refl].
  - apply not_true_is_false. intros Hex. apply existsb_exists in Hex.
    destruct Hex as (x & Hx & Hxe). apply in_seq in Hx. apply Nat.eqb_eq in Hxe. lia.
Qed.

(** The outer loop over the columns listed in [is], on an [n] by [n] matrix. *)
Lemma matrix_loop_spec (f : nat -> nat -> Z) n (cols : list nat) :
  NoDup cols -> (forall i, In i cols -> (i < n)%nat) ->
  forall acc : matrix, square n acc ->
    exists acc',
      for_each cols (fun i =>
        acc <- get ;;
        row_i <- lift (getitem acc i) ;;
        for_each (range (length row_i)) (fun j => iadd_cell j i (f i j))) acc
      = (Ok tt, acc') /\
      same_shape acc' acc /\
      forall r c, cell acc' r c
                  = cell acc r c
                    + (if (r <? n)%nat && existsb (Nat.eqb c) cols then f c r else 0).
Proof.
  induction 1 as [|i cols Hnin Hnd IH]; intros Hlt acc Hsq.
  - exists acc. simpl. repeat split; auto.
    intros r c. rewrite andb_false_r. lia.
  - assert (Hi : (i < n)%nat) by (apply Hlt; left; reflexivity).
    destruct Hsq as [Hlen Hrows].
    destruct (column_loop_spec (f i) i (range n) (seq_NoDup n 0) acc)
      as (acc1 & E1 & S1 & C1).
    { intros j Hj. apply in_seq in Hj. rewrite Hlen, Hrows by lia. lia. }
    destruct (IH (fun k Hk => Hlt k (or_intror Hk)) acc1) as (acc2 & E2 & S2 & C2).
    { apply (same_shape_square n acc); [|split; auto].
      unfold same_shape in *; congruence. }
    exists acc2. split; [|split].
    + simpl. unfold bind at 1. unfold bind at 1. unfold get at 1.
      unfold bind at 1. unfold lift at 1.
      rewrite (getitem_nth acc i []) by lia.
      rewrite Hrows by lia. rewrite E1. exact E2.
    + unfold same_shape in *. congruence.
    + intros r c. rewrite C2, C1. rewrite existsb_range. simpl existsb.
      destruct (Nat.ltb_spec r n) as [Hr|Hr]; simpl.
      * destruct (Nat.eqb_spec c i) as [->|Hc]; simpl.
        -- replace (existsb (Nat.eqb i) cols) with false; [lia|].
           symmetry. apply not_true_is_false. intros Hex.
           apply existsb_exists in Hex. destruct Hex as (x & Hx & Hxe).
           apply Nat.eqb_eq in Hxe. subst. contradiction.
        -- lia.
      * rewrite andb_false_r. lia.
Qed.

Lemma prediction_error_counts (a b : list Z) p t :
  prediction_error a b p t
  = Z.of_nat (length (filter (fun xy => (fst xy =? p) && (snd xy =? t)) (combine a b))).
Proof.
  unfold prediction_error, np_where_len, np_logical_not, np_logical_or, np_sub_scalar.
  f_equal. revert b; induction a as [|x a IH]; intros [|y b]; simpl; auto.
  destruct (Z.eqb_spec (x - p) 0), (Z.eqb_spec (y - t) 0),
           (Z.eqb_spec x p), (Z.eqb_spec y t); simpl; try lia;
    rewrite IH; reflexivity.
Qed.

(** What one call does to an [n] by [n] matrix: the cell in row [t] and
    column [p] grows by the number of pixels predicted [p] whose target is
    [t]. *)
Lemma get_per_class_accuracy_cells (pred target : label_tensor) n (acc : matrix) :
  square n acc ->
  exists acc',
    get_per_class_accuracy pred target acc = (Ok tt, acc') /\
    square n acc' /\
    forall t p, (t < n)%nat -> (p < n)%nat ->
      cell acc' t p = cell acc t p + count_pairs pred target (Z.of_nat p) (Z.of_nat t).
Proof.
  intros Hsq.
  destruct (matrix_loop_spec
              (fun i j => prediction_error (ravel pred) (ravel target)
                            (Z.of_nat i) (Z.of_nat j))
              n (range n) (seq_NoDup n 0)) with (acc := acc)
    as (acc' & E & S & C); auto.
  { intros i Hi. apply in_seq in Hi. lia. }
  exists acc'. split; [|split].
  - unfold get_per_class_accuracy. unfold bind at 1. unfold get at 1.
    destruct Hsq as [Hlen _]. rewrite Hlen. exact E.
  - apply (same_shape_square n acc); auto. unfold same_shape in *; congruence.
  - intros t p Ht Hp. rewrite C, existsb_range.
    rewrite (proj2 (Nat.ltb_lt t n) Ht), (proj2 (Nat.ltb_lt p n) Hp). simpl.
    rewrite prediction_error_counts. reflexivity.
Qed.

(** *** Sums over an index range *)

Lemma sumZ_app l1 l2 : sumZ (l1 ++ l2) = sumZ l1 + sumZ l2.
Proof. induction l1; simpl; lia. Qed.

Lemma sum_over_S n f : sum_over (S n) f = sum_over n f + f n.
Proof.
  unfold sum_over, range. rewrite seq_S, map_app, sumZ_app. simpl. lia.
Qed.

Lemma sum_over_ext n f g :
  (forall k, (k < n)%nat -> f k = g k) -> sum_over n f = sum_over n g.
Proof.
  induction n as [|n IH]; intros H; [reflexivity|].
  rewrite !sum_over_S, IH, H; auto.
Qed.

Lemma sum_over_add n f g :
  sum_over n (fun k => f k + g k) = sum_over n f + sum_over n g.
Proof.
  induction n as [|n IH]; [reflexivity|]. rewrite !sum_over_S, IH. lia.
Qed.

Lemma sum_over_zero n : sum_over n (fun _ => 0) = 0.
Proof. induction n as [|n IH]; [reflexivity|]. rewrite sum_over_S, IH. lia. Qed.

Lemma sum_over_indicator n (x v : Z) :
  sum_over n (fun k => if x =? Z.of_nat k then v else 0)
  = if (0 <=? x) && (x <? Z.of_nat n) then v else 0.
Proof.
  induction n as [|n IH].
  - unfold sum_over; simpl. destruct (0 <=? x) eqn:E1, (x <? 0) eqn:E2; simpl; auto. lia.
  - rewrite sum_over_S, IH.
    destruct (Z.eqb_spec x (Z.of_nat n)), (Z.leb_spec 0 x),
             (Z.ltb_spec x (Z.of_nat n)), (Z.ltb_spec x (Z.of_nat (S n)));
      simpl; lia.
Qed.

Lemma sumZ_nth (l : list Z) : sumZ l = sum_over (length l) (fun k => nth k l 0).
Proof.
  induction l as [|x l IH] using rev_ind; [reflexivity|].
  rewrite sumZ_app, length_app, Nat.add_comm. simpl length. rewrite sum_over_S.
  rewrite IH. simpl. rewrite app_nth2, Nat.sub_diag by lia. simpl.
  f_equal; [|lia]. apply sum_over_ext. intros k Hk. now rewrite app_nth1.
Qed.

Lemma row_sum_cells n (m : matrix) r :
  square n m -> (r < n)%nat -> row_sum m r = sum_over n (cell m r).
Proof.
  intros [_ Hrows] Hr. unfold row_sum. rewrite sumZ_nth, Hrows by assumption.
  reflexivity.
Qed.

Lemma matrix_sum_rows n (m : matrix) :
  square n m -> matrix_sum m = sum_over n (row_sum m).
Proof.
  intros [Hlen _]. unfold matrix_sum. rewrite sumZ_nth, length_map, Hlen.
  apply sum_over_ext. intros k Hk. unfold row_sum.
  change 0 with (sumZ []). apply map_nth.
Qed.

Lemma col_sum_cells n (m : matrix) c :
  square n m -> col_sum m c = sum_over n (fun r => cell m r c).
Proof.
  intros [Hlen _]. unfold col_sum. rewrite sumZ_nth, length_map, Hlen.
  apply sum_over_ext. intros k Hk. unfold cell.
  transitivity (nth k (map (fun row : list Z => nth c row 0) m) (nth c [] 0)).
  - destruct c; reflexivity.
  - apply (map_nth (fun row : list Z => nth c row 0)).
Qed.

(** *** Counting pixels *)

Lemma count_pairs_sum_pred n (a b : list Z) t :
  length a = length b -> Forall (fun v => 0 <= v < Z.of_nat n) a ->
  sum_over n (fun p =>
    Z.of_nat (length (filter (fun xy => (fst xy =? Z.of_nat p) && (snd xy =? t))
                             (combine a b))))
  = Z.of_nat (length (filter (fun v => v =? t) b)).
Proof.
  revert b; induction a as [|x a IH]; intros [|y b] Hlen Hin; simpl in *; try discriminate.
  - apply sum_over_zero.
  - inversion Hin as [|? ? Hx Ha]; subst.
    rewrite (sum_over_ext n _
               (fun p => (if x =? Z.of_nat p then (if y =? t then 1 else 0) else 0)
                         + Z.of_nat (length (filter
                             (fun xy => (fst xy =? Z.of_nat p) && (snd xy =? t))
                             (combine a b))))).
    + rewrite sum_over_add, IH by (auto; lia). rewrite sum_over_indicator.
      destruct (Z.leb_spec 0 x), (Z.ltb_spec x (Z.of_nat n)); try lia. simpl.
      destruct (y =? t); simpl length; lia.
    + intros k _. destruct (x =? Z.of_nat k), (y =? t); simpl length; lia.
Qed.

Lemma count_pairs_sum_target n (a b : list Z) p :
  length a = length b -> Forall (fun v => 0 <= v < Z.of_nat n) b ->
  sum_over n (fun t =>
    Z.of_nat (length (filter (fun xy => (fst xy =? p) && (snd xy =? Z.of_nat t))
                             (combine a b))))
  = Z.of_nat (length (filter (fun v => v =? p) a)).
Proof.
  revert b; induction a as [|x a IH]; intros [|y b] Hlen Hin; simpl in *; try discriminate.
  - apply sum_over_zero.
  - inversion Hin as [|? ? Hy Hb]; subst.
    rewrite (sum_over_ext n _
               (fun t => (if y =? Z.of_nat t then (if x =? p then 1 else 0) else 0)
                         + Z.of_nat (length (filter
                             (fun xy => (fst xy =? p) && (snd xy =? Z.of_nat t))
                             (combine a b))))).
    + rewrite sum_over_add, IH by (auto; lia). rewrite sum_over_indicator.
      destruct (Z.leb_spec 0 y), (Z.ltb_spec y (Z.of_nat n)); try lia. simpl.
      destruct (x =? p); simpl length; lia.
    + intros k _. destruct (y =? Z.of_nat k), (x =? p); simpl length; lia.
Qed.

Lemma count_label_total n (a : list Z) :
  Forall (fun v => 0 <= v < Z.of_nat n) a ->
  sum_over n (fun c => Z.of_nat (length (filter (fun v => v =? Z.of_nat c) a)))
  = Z.of_nat (length a).
Proof.
  induction 1 as [|x a Hx Ha IH]; cbn [filter].
  - apply sum_over_zero.
  - rewrite (sum_over_ext n _
               (fun c => (if x =? Z.of_nat c then 1 else 0)
                         + Z.of_nat (length (filter (fun v => v =? Z.of_nat c) a)))).
    + rewrite sum_over_add, IH, sum_over_indicator.
      destruct (Z.leb_spec 0 x), (Z.ltb_spec x (Z.of_nat n)); simpl length; simpl andb;
        cbv iota; lia.
    + intros k _. destruct (x =? Z.of_nat k); simpl length; lia.
Qed.

(** Each row of the accumulated matrix gains the number of pixels whose
    _target_ is the row's class, each column the number of pixels
    _predicted_ as the column's class, and the whole matrix one per pixel. *)
Lemma get_per_class_accuracy_sums (pred target : label_tensor) n (acc : matrix) :
  square n acc ->
  length (ravel pred) = length (ravel target) ->
  in_range n pred -> in_range n target ->
  exists acc',
    get_per_class_accuracy pred target acc = (Ok tt, acc') /\
    (forall t, (t < n)%nat ->
       row_sum acc' t = row_sum acc t + count_label target (Z.of_nat t)) /\
    (forall p, (p < n)%nat ->
       col_sum acc' p = col_sum acc p + count_label pred (Z.of_nat p)) /\
    matrix_sum acc' = matrix_sum acc + Z.of_nat (length (ravel target)).
Proof.
  intros Hsq Hlen Hp Ht.
  destruct (get_per_class_accuracy_cells pred target n acc Hsq) as (acc' & E & Hsq' & C).
  exists acc'. split; [exact E|].
  assert (Hrow : forall t, (t < n)%nat ->
            row_sum acc' t = row_sum acc t + count_label target (Z.of_nat t)).
  { intros t Hlt.
    rewrite (row_sum_cells n acc' t Hsq' Hlt), (row_sum_cells n acc t Hsq Hlt).
    rewrite (sum_over_ext n (cell acc' t)
               (fun p => cell acc t p + count_pairs pred target (Z.of_nat p) (Z.of_nat t)))
      by (intros; apply C; auto).
    rewrite sum_over_add. f_equal.
    apply count_pairs_sum_pred; auto. }
  split; [exact Hrow|]. split.
  { intros p Hlt.
    rewrite (col_sum_cells n acc' p Hsq'), (col_sum_cells n acc p Hsq).
    rewrite (sum_over_ext n (fun r => cell acc' r p)
               (fun t => cell acc t p + count_pairs pred target (Z.of_nat p) (Z.of_nat t)))
      by (intros; apply C; auto).
    rewrite sum_over_add. f_equal.
    apply count_pairs_sum_target; auto. }
  rewrite (matrix_sum_rows n acc' Hsq'), (matrix_sum_rows n acc Hsq).
  rewrite (sum_over_ext n (row_sum acc')
             (fun t => row_sum acc t + count_label target (Z.of_nat t))) by auto.
  rewrite sum_over_add. f_equal.
  apply count_label_total; auto.
Qed.

(** C1 (the code departs from the claim).  On the scenario of the
    specification the accumulator leaves [[1, 0], [1, 2]]: the pixel
    predicted 0 with target 1 is counted in row 1, column 0, that is, in
    the cell indexed by (target class, predicted class), and the cell
    indexed by (predicted 0, target 1) stays 0.  The matrix [[1, 1], [0, 2]]
    of the claim is its transpose.  Three of the four pixels are on the
    diagonal. *)
Theorem scenario_confusion_is_transposed :
  get_per_class_accuracy scenario_pred scenario_target zeros2
  = (Ok tt, [[1; 0]; [1; 2]]) /\
  snd (get_per_class_accuracy scenario_pred scenario_target zeros2)
  <> [[1; 1]; [0; 2]] /\
  count_pairs scenario_pred scenario_target 0 1 = 1 /\
  cell (snd (get_per_class_accuracy scenario_pred scenario_target zeros2)) 0 1 = 0 /\
  cell (snd (get_per_class_accuracy scenario_pred scenario_target zeros2)) 1 0 = 1 /\
  sumZ (np_diagonal (snd (get_per_class_accuracy scenario_pred scenario_target zeros2))) = 3 /\
  Z.of_nat (length (ravel scenario_target)) = 4.
Proof.
  repeat split; try reflexivity.
  intros H; discriminate H.
Qed.

(** C8 (the code departs from the claim).  On the scenario the whole
    matrix sums to the 4 pixels processed, but row 0 sums to 1, the number
    of pixels whose target is class 0, while 2 pixels are predicted as
    class 0: the pixels predicted as a class are summed by its column. *)
Theorem scenario_row_sums_count_targets :
  matrix_sum (snd (get_per_class_accuracy scenario_pred scenario_target zeros2)) = 4 /\
  row_sum (snd (get_per_class_accuracy scenario_pred scenario_target zeros2)) 0 = 1 /\
  count_label scenario_target 0 = 1 /\
  count_label scenario_pred 0 = 2 /\
  col_sum (snd (get_per_class_accuracy scenario_pred scenario_target zeros2)) 0 = 2.
Proof. repeat split; reflexivity. Qed.

(** ** Per-class loss *)

Lemma masked_select_losses (loss : list fl) (target : list Z) c :
  torch_masked_select loss (torch_eq_scalar target c) = losses_of_class loss target c.
Proof.
  unfold torch_masked_select, torch_eq_scalar.
  revert target; induction loss as [|l loss IH]; intros [|t target]; simpl; auto.
  destruct (t =? c); simpl; now rewrite IH.
Qed.

Lemma sum_mask_count (target : list Z) c :
  torch_sum_mask (torch_eq_scalar target c)
  = Z.of_nat (length (filter (fun v => v =? c) target)).
Proof.
  unfold torch_sum_mask, torch_eq_scalar. f_equal.
  induction target as [|t target IH]; simpl; auto.
  destruct (t =? c); simpl; now rewrite IH.
Qed.

Lemma losses_of_class_length (loss : list fl) (target : list Z) c :
  length loss = length target ->
  length (losses_of_class loss target c) = length (filter (fun v => v =? c) target).
Proof.
  revert target; induction loss as [|l loss IH]; intros [|t target] H; simpl in *;
    try discriminate; auto.
  destruct (t =? c); simpl; rewrite IH; auto.
Qed.

(** The loop of [get_per_class_loss] over the classes listed in [cs]. *)
Lemma per_class_loss_loop (entry : nat -> fl) (body : nat -> M (list fl) unit)
    (cs : list nat) :
  (forall i lv, (i < length lv)%nat -> body i lv = (Ok tt, update lv i (entry i))) ->
  NoDup cs ->
  forall lv, (forall i, In i cs -> (i < length lv)%nat) ->
    exists lv',
      for_each cs body lv = (Ok tt, lv') /\ length lv' = length lv /\
      forall k d, nth k lv' d = if existsb (Nat.eqb k) cs then entry k else nth k lv d.
Proof.
  intros Hbody. induction 1 as [|i cs Hnin Hnd IH]; intros lv Hin.
  - exists lv. simpl. auto.
  - destruct (IH (update lv i (entry i))) as (lv' & E & L & N).
    { intros k Hk. rewrite update_length. apply Hin. now right. }
    exists lv'. split; [|split].
    + simpl. unfold bind at 1. rewrite Hbody by (apply Hin; now left). exact E.
    + rewrite L. apply update_length.
    + intros k d. rewrite N. simpl existsb.
      destruct (Nat.eqb_spec k i) as [->|Hk]; simpl.
      * replace (existsb (Nat.eqb i) cs) with false.
        -- apply nth_update_same. apply Hin. now left.
        -- symmetry. apply not_true_is_false. intros Hex.
           apply existsb_exists in Hex. destruct Hex as (x & Hx & Hxe).
           apply Nat.eqb_eq in Hxe. subst. contradiction.
      * destruct (existsb (Nat.eqb k) cs); auto. now apply nth_update_other.
Qed.

(** C6.  [get_per_class_loss] always returns; in [loss_vec] it writes, for
    every class [c], 0 (the sum over the empty selection) when no target
    pixel has class [c], and otherwise the mean of the element-wise loss
    over exactly the pixels whose target is [c]. *)
Theorem get_per_class_loss_spec (loss : list fl) (target : label_tensor)
    (loss_vec : list fl) :
  length loss = length (ravel target) ->
  exists loss_vec',
    get_per_class_loss loss target loss_vec = (Ok tt, loss_vec') /\
    length loss_vec' = length loss_vec /\
    forall c, (c < length loss_vec)%nat ->
      (count_label target (Z.of_nat c) = 0 -> nth c loss_vec' NaN = Fin 0) /\
      (count_label target (Z.of_nat c) > 0 ->
         nth c loss_vec' NaN
         = fl_mean (losses_of_class loss (ravel target) (Z.of_nat c))).
Proof.
  intros Hlen.
  set (entry := fun i : nat =>
         if count_label target (Z.of_nat i) >? 0
         then fl_mean (losses_of_class loss (ravel target) (Z.of_nat i))
         else fl_sum (losses_of_class loss (ravel target) (Z.of_nat i))).
  destruct (per_class_loss_loop entry
              (fun i =>
                 let mask := torch_eq_scalar (ravel target) (Z.of_nat i) in
                 let total_num := torch_sum_mask mask in
                 loss_vec <- get ;;
                 if total_num >? 0 then
                   loss_vec' <- lift (setitem loss_vec i
                                  (fl_div (fl_sum (torch_masked_select loss mask))
                                          (fl_of_Z total_num))) ;;
                   put loss_vec'
                 else
                   loss_vec' <- lift (setitem loss_vec i
                                  (fl_sum (torch_masked_select loss mask))) ;;
                   put loss_vec')
              (range (length loss_vec)))
    with (lv := loss_vec) as (lv' & E & L & N).
  - intros i lv Hi. cbv zeta. unfold bind at 1, get at 1.
    rewrite sum_mask_count, masked_select_losses. unfold entry, count_label, fl_mean.
    rewrite (losses_of_class_length _ _ _ Hlen).
    destruct (Z.of_nat (length (filter (fun v => v =? Z.of_nat i) (ravel target))) >? 0);
      unfold bind, lift, put; rewrite setitem_ok by assumption; reflexivity.
  - apply seq_NoDup.
  - intros i Hi. apply in_seq in Hi. lia.
  - exists lv'. split; [|split].
    + unfold get_per_class_loss. unfold bind at 1, get at 1. exact E.
    + exact L.
    + intros c Hc. rewrite N, existsb_range, (proj2 (Nat.ltb_lt _ _) Hc).
      unfold entry. split; intros Hcount.
      * rewrite Hcount. simpl.
        assert (Hnil : losses_of_class loss (ravel target) (Z.of_nat c) = []).
        { apply length_zero_iff_nil. rewrite (losses_of_class_length _ _ _ Hlen).
          unfold count_label in Hcount. lia. }
        rewrite Hnil. reflexivity.
      * destruct (Z.gtb_spec (count_label target (Z.of_nat c)) 0); [reflexivity | lia].
Qed.

Lemma get_per_class_loss_spec_witness :
  length [Fin 1; Fin 3; Fin 2; Fin 4] = length (ravel scenario_target) /\
  exists loss_vec',
    get_per_class_loss [Fin 1; Fin 3; Fin 2; Fin 4] scenario_target
                       [Fin 0; Fin 0; Fin 0] = (Ok tt, loss_vec') /\
    length loss_vec' = 3%nat /\
    forall c, (c < 3)%nat ->
      (count_label scenario_target (Z.of_nat c) = 0 -> nth c loss_vec' NaN = Fin 0) /\
      (count_label scenario_target (Z.of_nat c) > 0 ->
         nth c loss_vec' NaN
         = fl_mean (losses_of_class [Fin 1; Fin 3; Fin 2; Fin 4]
                                    (ravel scenario_target) (Z.of_nat c))).
Proof.
  split; [reflexivity|].
  apply (get_per_class_loss_spec [Fin 1; Fin 3; Fin 2; Fin 4] scenario_target
                                 [Fin 0; Fin 0; Fin 0]).
  reflexivity.
Defined.

(** ** Framing: what a computation leaves alone *)

Section Frames.
Context `{net : Network}.

Lemma preserves_ret {X A} (P : state -> X) (a : A) : preserves P (ret a).
Proof. intros s; reflexivity. Qed.

Lemma preserves_get {X} (P : state -> X) : preserves P get.
Proof. intros s; reflexivity. Qed.

Lemma preserves_lift {X A} (P : state -> X) (r : result A) : preserves P (lift r).
Proof. intros s; reflexivity. Qed.

Lemma preserves_with_local {X L A} (P : state -> X) (l : L) (c : M L A) :
  preserves P (with_local l c).
Proof. intros s; unfold with_local. destruct (c l) as [[a|e] l']; reflexivity. Qed.

Lemma preserves_bind {X A B} (P : state -> X) (c : M state A) (k : A -> M state B) :
  preserves P c -> (forall a, preserves P (k a)) -> preserves P (bind c k).
Proof.
  intros Hc Hk s. unfold bind. specialize (Hc s).
  destruct (c s) as [[a|e] s']; simpl in *; [rewrite Hk|]; assumption.
Qed.

(** Past a prefix [c], a continuation that preserves [P] adds nothing. *)
Lemma preserves_bind_tail {X A B} (P : state -> X) (c : M state A) (k : A -> M state B) :
  (forall a, preserves P (k a)) ->
  forall s, P (snd (bind c k s)) = P (snd (c s)).
Proof.
  intros Hk s. unfold bind. destruct (c s) as [[a|e] s']; simpl; [apply Hk | reflexivity].
Qed.

Lemma preserves_modify {X} (P : state -> X) (f : state -> state) :
  (forall s, P (f s) = P s) -> preserves P (modify f).
Proof. intros H s; apply H. Qed.

Lemma preserves_for_each {X B} (P : state -> X) (xs : list B) (body : B -> M state unit) :
  (forall x, preserves P (body x)) -> preserves P (for_each xs body).
Proof.
  intros H. induction xs as [|x xs IH]; simpl.
  - apply preserves_ret.
  - apply preserves_bind; auto.
Qed.

Lemma preserves_for_batches {X L} (P : state -> X) (xs : list (nat * batch))
    (body : nat -> batch -> L -> M state L) :
  (forall i b l, preserves P (body i b l)) ->
  forall loc, preserves P (for_batches xs body loc).
Proof.
  intros H. induction xs as [|[i b] xs IH]; intros loc; simpl.
  - apply preserves_ret.
  - apply preserves_bind; auto.
Qed.

Lemma preserves_zoom {X T A} (P : state -> X) (proj : state -> T)
    (inj : T -> state -> state) (c : M T A) :
  (forall t s, P (inj t s) = P s) -> preserves P (zoom proj inj c).
Proof. intros H s. unfold zoom. destruct (c (proj s)) as [r t']. apply H. Qed.

Lemma preserves_emit {X} (P : state -> X) (e : event) :
  ignores_trace P -> preserves P (emit e).
Proof. intros H [w tr ts t]. apply H. Qed.

Lemma preserves_emit_filter (keep : event -> bool) (e : event) :
  keep e = false -> preserves (fun s => filter keep (trace s)) (emit e).
Proof.
  intros H s. unfold emit, modify. simpl. rewrite filter_app. simpl. rewrite H.
  apply app_nil_r.
Qed.

Lemma forwards_app (t1 t2 : list event) : forwards (t1 ++ t2) = forwards t1 ++ forwards t2.
Proof.
  induction t1 as [|e t1 IH]; simpl; auto. destruct e; simpl; rewrite IH; reflexivity.
Qed.

Lemma preserves_emit_forwards (e : event) :
  is_forward e = false -> preserves (fun s => forwards (trace s)) (emit e).
Proof.
  intros H s. unfold emit, modify. simpl. rewrite forwards_app.
  destruct e; try discriminate; simpl; apply app_nil_r.
Qed.

End Frames.

(** Break a computation into its steps and frame each of them. *)
Ltac frame_step :=
  first
    [ apply preserves_ret
    | apply preserves_get
    | apply preserves_lift
    | apply preserves_with_local
    | apply preserves_for_each; intros
    | apply preserves_for_batches; intros
    | apply preserves_bind; [|intros]
    | match goal with
      | |- preserves _ (if ?b then _ else _) => destruct b
      | |- preserves _ (let _ := _ in _) => cbv zeta
      end ].

(** ** [print_log] *)

Section PrintLog.
Context `{net : Network}.

Lemma py_map2_truediv_zero (xs ys : list Z) c :
  (c < length xs)%nat -> (c < length ys)%nat -> nth c ys 1 = 0 ->
  py_map2 py_int_truediv xs ys = Raise ZeroDivisionError.
Proof.
  revert xs ys; induction c as [|c IH]; intros [|x xs] [|y ys] Hx Hy H0;
    simpl in *; try lia.
  - subst y. reflexivity.
  - unfold py_int_truediv at 1. destruct (y =? 0); [reflexivity|].
    rewrite (IH xs ys) by (auto; lia). reflexivity.
Qed.

Lemma py_truediv_raises x n e : py_truediv x n = Raise e -> e = ZeroDivisionError.
Proof. unfold py_truediv. destruct (n =? 0); congruence. Qed.

Lemma py_truediv_ok x n : n <> 0 -> exists y, py_truediv x n = Ok y.
Proof.
  intros H. unfold py_truediv. destruct (Z.eqb_spec n 0); [contradiction|]. eauto.
Qed.

(** C4, amended.  When the union count of some class is zero at a logging
    point, [print_log] raises Python's built-in [ZeroDivisionError] before
    it prints or records anything: no metric value is produced and the
    statistics and the output are as they were. *)
Theorem print_log_zero_union_raises
    (class_correct_pixels class_jacard_or : list Z) (loss : fl)
    (num_samples batch_size : Z) (name : string) (use_acc_dict : bool)
    (acc_dict : matrix) (test : bool) (st : state) (c : nat) :
  length class_correct_pixels = length class_jacard_or ->
  (c < length class_jacard_or)%nat ->
  nth c class_jacard_or 1 = 0 ->
  print_log class_correct_pixels class_jacard_or loss num_samples batch_size
            name use_acc_dict acc_dict test st
  = (Raise ZeroDivisionError, st).
Proof.
  intros Hlen Hc H0. unfold print_log.
  unfold bind at 1, lift at 1.
  destruct (py_truediv loss (num_samples * batch_size)) as [l|e] eqn:E1.
  2:{ apply py_truediv_raises in E1. now subst. }
  unfold bind at 1, lift at 1.
  destruct (py_truediv (Fin (100 * IZR (sumZ class_correct_pixels)))
              (num_samples * batch_size * 1280 * 720)) as [a|e] eqn:E2.
  2:{ apply py_truediv_raises in E2. now subst. }
  unfold bind at 1, lift at 1.
  rewrite (py_map2_truediv_zero _ _ c) by (auto; lia). reflexivity.
Qed.

Lemma preserves_print_table {X} (P : state -> X) (acc_dict : matrix) :
  ignores_trace P -> preserves P (print_table acc_dict).
Proof.
  intros HP. unfold print_table, print_table_row.
  repeat (frame_step || apply preserves_emit; try assumption).
Qed.

End PrintLog.

Lemma print_log_zero_union_raises_witness :
  @print_log example_net [1; 0] [2; 0] (Fin 1) 1 1 "Test set" true zeros2 true
             example_state
  = (Raise ZeroDivisionError, example_state).
Proof.
  apply (@print_log_zero_union_raises example_net [1; 0] [2; 0] (Fin 1) 1 1
           "Test set" true zeros2 true example_state 1%nat).
  - reflexivity.
  - simpl; lia.
  - reflexivity.
Defined.

(** C4 as stated fails: with a zero union count for class 1 the exception
    that reaches the caller is not a [MetricComputationError]. *)
Lemma print_log_error_is_not_metric_error :
  exists e,
    fst (@print_log example_net [1; 0] [2; 0] (Fin 1) 1 1 "Test set" true zeros2 true
                    example_state) = Raise e /\
    exn_name e <> "MetricComputationError"%string.
Proof.
  exists ZeroDivisionError. split.
  - reflexivity.
  - discriminate.
Qed.

(** Whatever does not read the trace is framed step by step. *)
Ltac frame :=
  repeat first
    [ apply preserves_print_table; intros ? ? ? ? ?; reflexivity
    | apply preserves_emit; intros ? ? ? ? ?; reflexivity
    | apply preserves_modify; intros []; reflexivity
    | apply preserves_zoom; intros ? []; reflexivity
    | frame_step ].

Section TrainingLog.
Context `{net : Network}.

Lemma print_log_train_keeps_jaccard ccp cjo loss n b name use acc :
  preserves train_jaccard (print_log ccp cjo loss n b name use acc false).
Proof.
  unfold print_log, modify_train_stats, modify_test_stats, train_jaccard. frame.
Qed.

Lemma train_batch_keeps_jaccard self batch_idx b loc :
  preserves train_jaccard (train_batch self batch_idx b loc).
Proof.
  unfold train_batch, on_train_confusion, modify_train_stats.
  repeat first [ apply print_log_train_keeps_jaccard | unfold train_jaccard; progress frame ].
Qed.

Lemma train_keeps_jaccard self epoch start_index :
  preserves train_jaccard (train self epoch start_index).
Proof.
  unfold train.
  repeat first [ apply train_batch_keeps_jaccard | unfold train_jaccard; progress frame ].
Qed.

(** C9.  A log event of the training loop ([test=False]) appends the loss
    and accuracy snapshots to [model.train_stats] and the Jaccard snapshot
    to [model.test_stats] (when that list exists); it leaves the loss and
    accuracy of [model.test_stats] alone, and neither it nor any other
    step of [train] ever changes [model.train_stats.jaccard_accuracy]. *)
Theorem print_log_training_appends
    (class_correct_pixels class_jacard_or : list Z) (loss : fl)
    (num_samples batch_size : Z) (name : string) (use_acc_dict : bool)
    (acc_dict : matrix) (st : state) (l a : fl) (ratios : list fl) :
  py_truediv loss (num_samples * batch_size) = Ok l ->
  py_truediv (Fin (100 * IZR (sumZ class_correct_pixels)))
             (num_samples * batch_size * 1280 * 720) = Ok a ->
  py_map2 py_int_truediv class_correct_pixels class_jacard_or = Ok ratios ->
  let st' := snd (print_log class_correct_pixels class_jacard_or loss num_samples
                            batch_size name use_acc_dict acc_dict false st) in
  Stats.loss (train_stats st') = Stats.loss (train_stats st) ++ [l] /\
  Stats.accuracy (train_stats st') = Stats.accuracy (train_stats st) ++ [a] /\
  Stats.jaccard_accuracy (test_stats st')
  = option_map (fun js => js ++ [fl_mean ratios])
               (Stats.jaccard_accuracy (test_stats st)) /\
  Stats.jaccard_accuracy (train_stats st') = Stats.jaccard_accuracy (train_stats st) /\
  Stats.loss (test_stats st') = Stats.loss (test_stats st) /\
  Stats.accuracy (test_stats st') = Stats.accuracy (test_stats st) /\
  forall (self : trainer) (epoch start_index : Z) (s : state),
    Stats.jaccard_accuracy (train_stats (snd (train self epoch start_index s)))
    = Stats.jaccard_accuracy (train_stats s).
Proof.
  intros H1 H2 H3 st'.
  assert (Hst' : forall X (P : state -> X), ignores_trace P ->
            P st' = P (set_test_stats
                         (Stats.try_append_jaccard (fl_mean ratios) (test_stats st))
                         (set_train_stats
                            (Stats.append_accuracy a
                               (Stats.append_loss l (train_stats st))) st))).
  { intros X P HP. subst st'. unfold print_log.
    unfold bind at 1, lift at 1. rewrite H1.
    unfold bind at 1, lift at 1. rewrite H2.
    unfold bind at 1, lift at 1. rewrite H3.
    cbv beta iota zeta delta [bind emit modify_train_stats modify_test_stats modify].
    destruct use_acc_dict.
    - rewrite (preserves_print_table P acc_dict HP).
      destruct st as [w tr ts t]. apply HP.
    - destruct st as [w tr ts t]. apply HP. }
  repeat split.
  - rewrite (Hst' _ (fun s => Stats.loss (train_stats s))) by (intros ? ? ? ? ?; reflexivity).
    reflexivity.
  - rewrite (Hst' _ (fun s => Stats.accuracy (train_stats s)))
      by (intros ? ? ? ? ?; reflexivity).
    reflexivity.
  - rewrite (Hst' _ (fun s => Stats.jaccard_accuracy (test_stats s)))
      by (intros ? ? ? ? ?; reflexivity).
    simpl. destruct (Stats.jaccard_accuracy (test_stats st)); reflexivity.
  - rewrite (Hst' _ (fun s => Stats.jaccard_accuracy (train_stats s)))
      by (intros ? ? ? ? ?; reflexivity).
    reflexivity.
  - rewrite (Hst' _ (fun s => Stats.loss (test_stats s))) by (intros ? ? ? ? ?; reflexivity).
    reflexivity.
  - rewrite (Hst' _ (fun s => Stats.accuracy (test_stats s)))
      by (intros ? ? ? ? ?; reflexivity).
    reflexivity.
  - intros self epoch start_index s. apply (train_keeps_jaccard self epoch start_index s).
Qed.

End TrainingLog.

Lemma print_log_training_appends_witness :
  let st' := snd (@print_log example_net [1; 2] [2; 3] (Fin 1) 1 1 "Training Set"
                             false zeros2 false example_state) in
  Stats.loss (train_stats st') = [Fin (1 / IZR (1 * 1))] /\
  Stats.accuracy (train_stats st')
  = [Fin (100 * IZR (sumZ [1; 2]) / IZR (1 * 1 * 1280 * 720))] /\
  Stats.jaccard_accuracy (test_stats st')
  = Some [fl_mean [Fin (IZR 1 / IZR 2); Fin (IZR 2 / IZR 3)]] /\
  Stats.jaccard_accuracy (train_stats st') = Some [].
Proof.
  pose proof (@print_log_training_appends example_net [1; 2] [2; 3] (Fin 1) 1 1
                "Training Set" false zeros2 example_state
                (Fin (1 / IZR (1 * 1)))
                (Fin (100 * IZR (sumZ [1; 2]) / IZR (1 * 1 * 1280 * 720)))
                [Fin (IZR 1 / IZR 2); Fin (IZR 2 / IZR 3)]
                eq_refl eq_refl eq_refl) as H.
  cbv zeta in H. destruct H as (H1 & H2 & H3 & H4 & _).
  cbv zeta. repeat split; assumption.
Defined.

(** ** The training loop and [start_index] *)

(** Framing a projection of the trace: every emitted event is checked
    against the projection by computation. *)
Ltac frame_trace :=
  repeat first
    [ apply preserves_emit_forwards; reflexivity
    | apply preserves_emit_filter; reflexivity
    | apply preserves_modify; intros []; reflexivity
    | apply preserves_zoom; intros ? []; reflexivity
    | frame_step ].

Section TrainingLoop.
Context `{net : Network}.

Lemma print_log_keeps_forwarded ccp cjo loss n b name use acc test :
  preserves forwarded (print_log ccp cjo loss n b name use acc test).
Proof.
  unfold print_log, print_table, print_table_row, modify_train_stats,
    modify_test_stats, forwarded.
  frame_trace.
Qed.

(** A batch that gets past the guard runs exactly one forward pass, on its
    own input, whether or not the rest of the body completes. *)
Lemma train_batch_forwarded self batch_idx b loc st :
  forwarded (snd (train_batch self batch_idx b loc st)) = forwarded st ++ [b_data b].
Proof.
  unfold train_batch. cbv zeta.
  unfold bind at 1, emit at 1, modify at 1.
  unfold bind at 1, get at 1.
  unfold bind at 1, emit at 1, modify at 1.
  rewrite (preserves_bind_tail forwarded).
  - unfold emit, modify, forwarded. destruct st as [w tr ts t]. simpl.
    rewrite !forwards_app. simpl. rewrite !app_nil_r. reflexivity.
  - intros _. unfold on_train_confusion, modify_train_stats.
    repeat first [ apply print_log_keeps_forwarded | unfold forwarded; progress frame_trace ].
Qed.

Lemma for_batches_train_forwarded self (xs : list (nat * batch)) :
  forall loc st,
    exists k, (k <= length xs)%nat /\
      forwarded (snd (for_batches xs (train_batch self) loc st))
      = forwarded st ++ map (fun x => b_data (snd x)) (firstn k xs) /\
      (forall loc', fst (for_batches xs (train_batch self) loc st) = Ok loc' ->
         k = length xs).
Proof.
  induction xs as [|[i b] xs IH]; intros loc st.
  - exists 0%nat. simpl. rewrite app_nil_r. auto.
  - simpl for_batches. unfold bind.
    pose proof (train_batch_forwarded self i b loc st) as Hb.
    destruct (train_batch self i b loc st) as [[loc1|e] st1]; simpl in Hb.
    + destruct (IH loc1 st1) as (k & Hk & Hf & Hok).
      exists (S k). split; [simpl; lia|]. split.
      * rewrite Hf, Hb. simpl. rewrite <- app_assoc. reflexivity.
      * intros loc' H. simpl. f_equal. eapply Hok; eauto.
    + exists 1%nat. split; [simpl; lia|]. split.
      * simpl. rewrite Hb. destruct xs; reflexivity.
      * intros loc' H. discriminate H.
Qed.

(** The guard [if batch_idx < start_index: continue] drops a prefix. *)
Lemma for_batches_guard {L} (body : nat -> batch -> L -> M state L) (start_index : Z)
    (bs : list batch) :
  forall k loc st,
    for_batches (combine (seq k (length bs)) bs)
      (fun batch_idx b loc =>
         if Z.of_nat batch_idx <? start_index then ret loc else body batch_idx b loc)
      loc st
    = for_batches (skipn (Z.to_nat start_index - k) (combine (seq k (length bs)) bs))
        body loc st.
Proof.
  induction bs as [|b bs IH]; intros k loc st.
  - simpl. rewrite skipn_nil. reflexivity.
  - cbn [length seq combine for_batches].
    destruct (Z.ltb_spec (Z.of_nat k) start_index) as [Hlt|Hge].
    + replace (Z.to_nat start_index - k)%nat with (S (Z.to_nat start_index - S k)) by lia.
      cbn [skipn]. unfold bind at 1, ret at 1. apply IH.
    + replace (Z.to_nat start_index - k)%nat with 0%nat by lia.
      cbn [skipn for_batches]. unfold bind.
      destruct (body k b loc st) as [[loc1|e] st1]; [|reflexivity].
      rewrite IH. replace (Z.to_nat start_index - S k)%nat with 0%nat by lia.
      reflexivity.
Qed.

Lemma skipn_enumerate_data (bs : list batch) s :
  forall k, map (fun x : nat * batch => b_data (snd x))
              (firstn k (skipn s (enumerate bs)))
            = map b_data (firstn k (skipn s bs)).
Proof.
  intros k. unfold enumerate.
  assert (H : forall j, map snd (skipn s (combine (seq j (length bs)) bs)) = skipn s bs).
  { revert s. induction bs as [|b bs IH]; intros s j.
    - simpl. rewrite !skipn_nil. reflexivity.
    - destruct s; simpl.
      + f_equal. apply (IH 0%nat).
      + apply IH. }
  rewrite <- (H 0%nat), firstn_map, map_map. reflexivity.
Qed.

(** C7.  [train] with a resume offset [start_index] is the loop body run
    on exactly the batches from [start_index] on, each under its own
    index: the earlier batches contribute nothing to the state, to the
    statistics or to the trace (no forward pass, loss, parameter update,
    report or checkpoint).  The forward passes the call performs are those
    of a prefix of these batches, and of all of them when the call
    returns. *)
Theorem train_resumes_at_start_index (self : trainer) (epoch start_index : Z)
    (st : state) :
  let bs := batches (train_loader self) in
  let s := Z.to_nat start_index in
  let init := mk_train_locals (repeat 0 (num_classes self))
                              (repeat 0 (num_classes self)) (Fin 0) in
  train self epoch start_index st
  = (emit Call_train_mode ;;
     for_batches (skipn s (enumerate bs)) (train_batch self) init ;;
     ret tt) st /\
  exists k, (k <= length bs - s)%nat /\
    forwards (trace (snd (train self epoch start_index st)))
    = forwards (trace st) ++ map b_data (firstn k (skipn s bs)) /\
    (fst (train self epoch start_index st) = Ok tt -> k = (length bs - s)%nat).
Proof.
  intros bs s init.
  assert (E : train self epoch start_index st
              = (emit Call_train_mode ;;
                 for_batches (skipn s (enumerate bs)) (train_batch self) init ;;
                 ret tt) st).
  { unfold train. fold bs. fold init. unfold enumerate, bind, emit, modify.
    rewrite (for_batches_guard (train_batch self) start_index bs 0%nat).
    rewrite Nat.sub_0_r. reflexivity. }
  split; [exact E|].
  rewrite E. unfold bind, emit, modify. cbv beta iota.
  set (st0 := mk_state (model_weights st) (train_stats st) (test_stats st)
                       (trace st ++ [Call_train_mode])).
  destruct (for_batches_train_forwarded self (skipn s (enumerate bs)) init st0)
    as (k & Hk & Hf & Hok).
  assert (Hlen : length (skipn s (enumerate bs)) = (length bs - s)%nat).
  { rewrite length_skipn. unfold enumerate.
    rewrite length_combine, length_seq, Nat.min_id. reflexivity. }
  assert (Hst0 : forwarded st0 = forwards (trace st)).
  { unfold forwarded, st0. simpl. rewrite forwards_app. simpl. apply app_nil_r. }
  rewrite skipn_enumerate_data, Hst0 in Hf. unfold forwarded in Hf.
  exists k. split; [lia|].
  destruct (for_batches (skipn s (enumerate bs)) (train_batch self) init st0)
    as [[loc|e] st1]; simpl in *.
  - split; [exact Hf|]. intros _. rewrite <- Hlen. apply (Hok loc eq_refl).
  - split; [exact Hf|]. intros H. discriminate H.
Qed.

End TrainingLoop.

(** ** The evaluation pass *)

Lemma bind_ok_inv {S A B} (c : M S A) (k : A -> M S B) s b s2 :
  bind c k s = (Ok b, s2) ->
  exists a s1, c s = (Ok a, s1) /\ k a s1 = (Ok b, s2).
Proof.
  unfold bind. destruct (c s) as [[a|e] s1]; intros H; [eauto | discriminate H].
Qed.

Lemma bind_ok {S A B} (c : M S A) (k : A -> M S B) s a s1 :
  c s = (Ok a, s1) -> bind c k s = k a s1.
Proof. intros E. unfold bind. rewrite E. reflexivity. Qed.

(** Peel the first step off a computation known to return. *)
Tactic Notation "step_ok" hyp(H) "as" ident(a) ident(s1) ident(Hc) :=
  apply bind_ok_inv in H; destruct H as (a & s1 & Hc & H).

Section Evaluation.
Context `{net : Network}.

Lemma preserves_run {X A} (P : state -> X) (c : M state A) s r s' :
  preserves P c -> c s = (r, s') -> P s' = P s.
Proof. intros Hp Hc. specialize (Hp s). rewrite Hc in Hp. exact Hp. Qed.

Lemma marks_app (t1 t2 : list event) : marks (t1 ++ t2) = marks t1 ++ marks t2.
Proof.
  induction t1 as [|e t1 IH]; simpl; auto. destruct e; simpl; rewrite IH; reflexivity.
Qed.

Lemma preserves_emit_marks (e : event) :
  has_mark e = false -> preserves marked (emit e).
Proof.
  intros H s. unfold emit, modify, marked. simpl. rewrite marks_app.
  destruct e; try discriminate; simpl; apply app_nil_r.
Qed.

Lemma emit_marked (e : event) (s : state) :
  marked (snd (emit e s)) = marked s ++ marks [e].
Proof. unfold emit, modify, marked. simpl. apply marks_app. Qed.

Lemma emit_run (e : event) (s : state) r s' :
  emit e s = (r, s') ->
  s' = mk_state (model_weights s) (train_stats s) (test_stats s) (trace s ++ [e]).
Proof. unfold emit, modify. intros H. injection H as _ <-. reflexivity. Qed.

End Evaluation.

Ltac frame_marks :=
  repeat first
    [ apply preserves_emit_marks; reflexivity
    | apply preserves_emit_filter; reflexivity
    | apply preserves_emit; intros ? ? ? ? ?; reflexivity
    | apply preserves_modify; intros []; reflexivity
    | apply preserves_zoom; intros ? []; reflexivity
    | frame_step ].

Section EvaluationLoop.
Context `{net : Network}.

Lemma print_table_keeps_marked acc : preserves marked (print_table acc).
Proof. unfold print_table, print_table_row, marked. frame_marks. Qed.

Lemma print_table_keeps_snapshots acc : preserves snapshots (print_table acc).
Proof. unfold print_table, print_table_row, snapshots. frame_marks. Qed.

(** A report that completes leaves one report mark and no snapshot. *)
Lemma print_log_ok ccp cjo loss n b name use acc test st st' :
  print_log ccp cjo loss n b name use acc test st = (Ok tt, st') ->
  marked st' = marked st ++ [Mreport] /\ snapshots st' = snapshots st.
Proof.
  unfold print_log. intros H.
  step_ok H as l s1 H1. unfold lift in H1. injection H1 as _ <-.
  step_ok H as a s2 H2. unfold lift in H2. injection H2 as _ <-.
  step_ok H as ratios s3 H3. unfold lift in H3. injection H3 as _ <-.
  step_ok H as u4 s4 H4. apply emit_run in H4.
  step_ok H as u5 s5 H5. apply emit_run in H5.
  step_ok H as u6 s6 H6.
  assert (E6 : marked s6 = marked s5 /\ snapshots s6 = snapshots s5).
  { split.
    - eapply preserves_run; [|exact H6].
      unfold modify_train_stats, modify_test_stats, marked. frame_marks.
    - eapply preserves_run; [|exact H6].
      unfold modify_train_stats, modify_test_stats, snapshots. frame_marks. }
  assert (E7 : marked st' = marked s6 /\ snapshots st' = snapshots s6).
  { destruct use.
    - split; (eapply preserves_run; [|exact H]);
        [apply print_table_keeps_marked | apply print_table_keeps_snapshots].
    - unfold ret in H. injection H as <-. auto. }
  destruct E6 as [E6m E6s], E7 as [E7m E7s].
  rewrite E7m, E7s, E6m, E6s. subst s5 s4. unfold marked, snapshots. simpl.
  rewrite !marks_app. simpl. rewrite app_nil_r. auto.
Qed.

(** One batch of the evaluation pass that completes: the batch counter
    advances by one, and the snapshot, the report and the checkpoint
    follow exactly when the new count is a multiple of [log_spacing]. *)
Lemma test_batch_ok self name use_crf visualize use_prior prior i b loc st loc' st' :
  test_batch self name use_crf visualize use_prior prior i b loc st = (Ok loc', st') ->
  te_batches_done loc' = te_batches_done loc + 1 /\
  log_spacing self <> 0 /\
  marked st'
  = marked st ++ Mforward ::
      (if (te_batches_done loc + 1) mod log_spacing self =? 0
       then [Mreport; Msave] else []) /\
  snapshots st'
  = (snapshots st
     + if ((te_batches_done loc + 1) mod log_spacing self =? 0)%Z then 1 else 0)%nat.
Proof.
  unfold test_batch. cbv zeta. intros H.
  step_ok H as s0 s1 H1. unfold get in H1. injection H1 as <- <-.
  step_ok H as u2 s2 H2. apply emit_run in H2.
  step_ok H as u3 s3 H3.
  assert (E3 : marked s3 = marked s2 /\ snapshots s3 = snapshots s2).
  { split; (eapply preserves_run; [|exact H3]); [unfold marked | unfold snapshots];
      frame_marks. }
  step_ok H as u4 s4 H4. apply emit_run in H4.
  step_ok H as counts s5 H5.
  assert (E5 : s5 = s4).
  { unfold with_local in H5.
    destruct (record_pixel_measurements _ _ _ _) as [[[]|e] l]; [|discriminate H5].
    injection H5 as _ <-. reflexivity. }
  step_ok H as u6 s6 H6.
  assert (E6 : marked s6 = marked s5 /\ snapshots s6 = snapshots s5).
  { split; (eapply preserves_run; [|exact H6]); unfold on_test_confusion;
      [unfold marked | unfold snapshots]; frame_marks. }
  step_ok H as m s7 H7. unfold lift in H7. injection H7 as H7 <-.
  unfold py_mod in H7.
  destruct (Z.eqb_spec (log_spacing self) 0) as [|Hls]; [discriminate H7|].
  injection H7 as <-.
  step_ok H as u8 s8 H8. unfold ret in H. injection H as <- <-. simpl.
  split; [reflexivity|]. split; [assumption|].
  assert (E0 : marked s6 = marked st ++ [Mforward] /\ snapshots s6 = snapshots st).
  { destruct E3 as [E3m E3s], E6 as [E6m E6s].
    rewrite E6m, E6s, E5. subst s4. unfold marked, snapshots in *. simpl.
    rewrite marks_app. simpl. rewrite app_nil_r.
    rewrite E3m, E3s. subst s2. simpl.
    rewrite marks_app. simpl. auto. }
  destruct E0 as [E0m E0s].
  destruct ((te_batches_done loc + 1) mod log_spacing self =? 0).
  - step_ok H8 as u9 s9 H9. unfold modify_test_stats, modify in H9. injection H9 as _ <-.
    step_ok H8 as s10' s10 H10. unfold get in H10. injection H10 as <- <-.
    step_ok H8 as u11 s11 H11. destruct u11.
    apply print_log_ok in H11. destruct H11 as [H11m H11s].
    step_ok H8 as u12 s12 H12. apply emit_run in H12.
    step_ok H8 as u13 s13 H13. apply emit_run in H13.
    assert (E14 : marked s8 = marked s13 /\ snapshots s8 = snapshots s13).
    { split; (eapply preserves_run; [|exact H8]); [unfold marked | unfold snapshots];
        frame_marks. }
    destruct E14 as [E14m E14s]. rewrite E14m, E14s. subst s13 s12.
    unfold marked, snapshots in *. simpl. rewrite !marks_app. simpl.
    rewrite app_nil_r. rewrite H11m, H11s. simpl.
    rewrite E0m. rewrite length_app. simpl.
    rewrite <- !app_assoc. simpl. split; [reflexivity|].
    rewrite E0s. reflexivity.
  - unfold ret in H8. injection H8 as _ <-.
    rewrite E0m, E0s. split; [reflexivity | lia].
Qed.

End EvaluationLoop.

Lemma expected_marks_S log_spacing done n :
  expected_marks log_spacing done (S n)
  = (Mforward :: if (done + 1) mod log_spacing =? 0 then [Mreport; Msave] else [])
    ++ expected_marks log_spacing (done + 1) n.
Proof.
  unfold expected_marks. simpl seq. rewrite <- seq_shift. cbn [flat_map].
  change (Z.of_nat 1) with 1. f_equal.
  rewrite flat_map_concat_map, map_map, <- flat_map_concat_map.
  apply flat_map_ext. intros k.
  replace (done + 1 + Z.of_nat k) with (done + Z.of_nat (S k)) by lia. reflexivity.
Qed.

Lemma log_points_S log_spacing done n :
  log_points log_spacing done (S n)
  = ((if ((done + 1) mod log_spacing =? 0)%Z then 1 else 0)
     + log_points log_spacing (done + 1)%Z n)%nat.
Proof.
  unfold log_points. simpl seq. rewrite <- seq_shift. cbn [filter].
  replace (done + Z.of_nat 1) with (done + 1) by lia.
  assert (E : filter (fun k => (done + Z.of_nat k) mod log_spacing =? 0) (map S (seq 1 n))
              = map S (filter (fun k => (done + 1 + Z.of_nat k) mod log_spacing =? 0)
                              (seq 1 n))).
  { induction (seq 1 n) as [|k l IH]; simpl; auto.
    replace (done + Z.pos (Pos.of_succ_nat k)) with (done + 1 + Z.of_nat k) by lia.
    destruct ((done + 1 + Z.of_nat k) mod log_spacing =? 0); simpl; now rewrite IH. }
  rewrite E. destruct ((done + 1) mod log_spacing =? 0); simpl; now rewrite length_map.
Qed.

Section EvaluationRuns.
Context `{net : Network}.

Lemma for_batches_test_ok self name use_crf visualize use_prior prior
    (xs : list (nat * batch)) :
  forall loc st loc' st',
    for_batches xs (test_batch self name use_crf visualize use_prior prior) loc st
    = (Ok loc', st') ->
    te_batches_done loc' = te_batches_done loc + Z.of_nat (length xs) /\
    marked st'
    = marked st ++ expected_marks (log_spacing self) (te_batches_done loc) (length xs) /\
    snapshots st'
    = (snapshots st + log_points (log_spacing self) (te_batches_done loc) (length xs))%nat.
Proof.
  induction xs as [|[i b] xs IH]; intros loc st loc' st' H.
  - simpl in H. unfold ret in H. injection H as <- <-.
    unfold expected_marks, log_points. simpl. rewrite app_nil_r. repeat split; lia.
  - simpl for_batches in H. step_ok H as loc1 st1 H1.
    apply test_batch_ok in H1. destruct H1 as (Hd & _ & Hm & Hs).
    apply IH in H. destruct H as (Hd' & Hm' & Hs').
    simpl length. rewrite expected_marks_S, log_points_S.
    rewrite Hd', Hm', Hs', Hd, Hm, Hs. split; [lia|]. split.
    + rewrite <- app_assoc. reflexivity.
    + lia.
Qed.

(** C10.  [test] never reads [iters_per_log]: two runs that differ only in
    it are the same run.  In a run that returns, the per-class-accuracy
    snapshot, the report and the [model.save()] checkpoint follow exactly
    the batches whose count [batches_done] is a (positive) multiple of the
    [log_spacing] given to the constructor. *)
Theorem test_ignores_iters_per_log (self : trainer) (dataset_name : string)
    (use_crf : bool) (iters_per_log iters_per_log' : Z) (visualize use_prior : bool)
    (st : state) :
  let n := length (batches (test_loader self)) in
  let st' := snd (test self dataset_name use_crf iters_per_log visualize use_prior st) in
  test self dataset_name use_crf iters_per_log' visualize use_prior st
  = test self dataset_name use_crf iters_per_log visualize use_prior st /\
  (fst (test self dataset_name use_crf iters_per_log visualize use_prior st) = Ok tt ->
   marks (trace st') = marks (trace st) ++ expected_marks (log_spacing self) 0 n /\
   length (Stats.per_class_accuracy (test_stats st'))
   = (length (Stats.per_class_accuracy (test_stats st))
      + log_points (log_spacing self) 0 n)%nat).
Proof.
  intros n st'. split; [reflexivity|]. intros Hok.
  subst st'.
  destruct (test self dataset_name use_crf iters_per_log visualize use_prior st)
    as [[[]|e] st'] eqn:H; simpl in *; [clear Hok | discriminate Hok].
  unfold test in H.
  step_ok H as u1 s1 H1. apply emit_run in H1.
  step_ok H as p s2 H2.
  assert (E2 : s2 = s1).
  { unfold with_local in H2.
    destruct (unbiased_prior _ _) as [[[]|e] l]; [|discriminate H2].
    injection H2 as _ <-. reflexivity. }
  step_ok H as loc' s3 H3. unfold ret in H. injection H as <-.
  apply for_batches_test_ok in H3. destruct H3 as (_ & Hm & Hs).
  simpl te_batches_done in *. unfold enumerate in *.
  rewrite length_combine, length_seq, Nat.min_id in *. fold n in Hm, Hs.
  unfold marked, snapshots in *. rewrite Hm, Hs, E2. subst s1. simpl.
  rewrite marks_app. simpl. rewrite app_nil_r. auto.
Qed.

(** *** Runs shorter than the log spacing *)

Lemma preserves_bind_lift {X A B} (P : state -> X) (r : result A) (k : A -> M state B) :
  (forall a, r = Ok a -> preserves P (k a)) -> preserves P (bind (lift r) k).
Proof.
  intros H s. unfold bind, lift. destruct r as [a|e]; [apply (H a eq_refl) | reflexivity].
Qed.

Lemma test_batch_quiet {X} (P : state -> X) self name use_crf visualize use_prior
    prior i b loc :
  quiet P ->
  (te_batches_done loc + 1) mod log_spacing self <> 0 ->
  preserves P (test_batch self name use_crf visualize use_prior prior i b loc).
Proof.
  intros [Hemit Hconf] Hmod. unfold test_batch. cbv zeta.
  apply preserves_bind; [apply preserves_get | intros s0].
  apply preserves_bind; [apply Hemit; reflexivity | intros _].
  apply preserves_bind;
    [destruct use_crf; [apply Hemit; reflexivity | apply preserves_ret] | intros _].
  apply preserves_bind; [apply Hemit; reflexivity | intros _].
  apply preserves_bind; [apply preserves_with_local | intros counts].
  apply preserves_bind; [apply Hconf | intros _].
  apply preserves_bind_lift. intros m Hm.
  unfold py_mod in Hm. destruct (log_spacing self =? 0); [discriminate Hm|].
  injection Hm as <-.
  destruct (Z.eqb_spec ((te_batches_done loc + 1) mod log_spacing self) 0);
    [contradiction|].
  apply preserves_bind; [apply preserves_ret | intros _; apply preserves_ret].
Qed.

Lemma for_batches_test_quiet {X} (P : state -> X) self name use_crf visualize
    use_prior prior (xs : list (nat * batch)) :
  quiet P ->
  forall loc,
    0 <= te_batches_done loc ->
    te_batches_done loc + Z.of_nat (length xs) < log_spacing self ->
    preserves P (for_batches xs (test_batch self name use_crf visualize use_prior prior)
                             loc).
Proof.
  intros HP. induction xs as [|[i b] xs IH]; intros loc H0 Hlt.
  - apply preserves_ret.
  - simpl length in Hlt. simpl for_batches. intros s. unfold bind.
    assert (Hq : preserves P (test_batch self name use_crf visualize use_prior
                                         prior i b loc)).
    { apply test_batch_quiet; auto. rewrite Z.mod_small by lia. lia. }
    destruct (test_batch self name use_crf visualize use_prior prior i b loc s)
      as [[loc1|e] s1] eqn:E; simpl.
    + pose proof (preserves_run P _ _ _ _ Hq E) as E1.
      apply test_batch_ok in E. destruct E as (Hd & _).
      rewrite IH by lia. exact E1.
    + exact (preserves_run P _ _ _ _ Hq E).
Qed.

Lemma quiet_reports : quiet (fun s => filter is_report (trace s)).
Proof.
  split.
  - intros e He. apply preserves_emit_filter. exact He.
  - intros A c. unfold on_test_confusion. apply preserves_zoom. intros ? []. reflexivity.
Qed.

Lemma quiet_test_stats {X} (f : Stats.t -> X) :
  (forall m t, f (Stats.set_confusion m t) = f t) ->
  quiet (fun s => f (test_stats s)).
Proof.
  intros Hf. split.
  - intros e _. apply preserves_emit. intros ? ? ? ? ?. reflexivity.
  - intros A c. unfold on_test_confusion. apply preserves_zoom. intros m []. simpl.
    apply Hf.
Qed.

Lemma test_quiet {X} (P : state -> X) self name use_crf iters_per_log visualize
    use_prior :
  quiet P ->
  Z.of_nat (length (batches (test_loader self))) < log_spacing self ->
  preserves P (test self name use_crf iters_per_log visualize use_prior).
Proof.
  intros HP Hlt. unfold test.
  apply preserves_bind; [apply (proj1 HP); reflexivity | intros _].
  apply preserves_bind; [apply preserves_with_local | intros p].
  apply preserves_bind; [|intros; apply preserves_ret].
  apply for_batches_test_quiet; auto; simpl; [lia|].
  unfold enumerate. rewrite length_combine, length_seq, Nat.min_id. lia.
Qed.

(** C3 (the code departs from the claim).  [SegmentationTrainer.test] has
    nothing after its batch loop: on a data set with fewer batches than
    [log_spacing] the pass prints no report at all and records no loss,
    accuracy or Jaccard value, whatever the batches are. *)
Theorem test_emits_no_final_report (self : trainer) (dataset_name : string)
    (use_crf : bool) (iters_per_log : Z) (visualize use_prior : bool) (st : state) :
  Z.of_nat (length (batches (test_loader self))) < log_spacing self ->
  let st' := snd (test self dataset_name use_crf iters_per_log visualize use_prior st) in
  filter is_report (trace st') = filter is_report (trace st) /\
  Stats.loss (test_stats st') = Stats.loss (test_stats st) /\
  Stats.accuracy (test_stats st') = Stats.accuracy (test_stats st) /\
  Stats.jaccard_accuracy (test_stats st') = Stats.jaccard_accuracy (test_stats st).
Proof.
  intros Hlt st'. subst st'. repeat split.
  - apply (test_quiet (fun s => filter is_report (trace s))); auto using quiet_reports.
  - apply (test_quiet (fun s => Stats.loss (test_stats s))); auto.
    apply (quiet_test_stats Stats.loss). reflexivity.
  - apply (test_quiet (fun s => Stats.accuracy (test_stats s))); auto.
    apply (quiet_test_stats Stats.accuracy). reflexivity.
  - apply (test_quiet (fun s => Stats.jaccard_accuracy (test_stats s))); auto.
    apply (quiet_test_stats Stats.jaccard_accuracy). reflexivity.
Qed.

(** The two-class script does report after its loop: a run of
    [fcn_2class.test] that returns ends with one more report, over the
    whole data set ([num_samples = len(test_loader.dataset)],
    [batch_size = 1]). *)
Lemma two_class_test_reports_after_loop (test_loader : loader) (dataset_name : string)
    (use_crf : bool) (iters_per_log : Z) (visualize : bool) (st st' : state) :
  TwoClass.test test_loader dataset_name use_crf iters_per_log visualize st
  = (Ok tt, st') ->
  exists loc s1 l a,
    for_batches (enumerate (batches test_loader))
      (TwoClass.test_batch test_loader dataset_name iters_per_log visualize)
      (TwoClass.mk_test_locals (Fin 0) 0 0 [[0; 0]; [0; 0]])
      (snd (emit Call_eval_mode st))
    = (Ok loc, s1) /\
    filter is_report (trace st')
    = filter is_report (trace s1)
      ++ [Print_report_2class dataset_name l (TwoClass.correct loc)
            (dataset_len test_loader * 1 * 1280 * 720) a].
Proof.
  unfold TwoClass.test. intros H.
  step_ok H as u0 s0 H0. apply emit_run in H0.
  step_ok H as loc s1 H1.
  unfold TwoClass.print_log in H.
  step_ok H as l s2 H2. unfold lift in H2. injection H2 as _ <-.
  step_ok H as u3 s3 H3. apply emit_run in H3.
  step_ok H as a s4 H4. unfold lift in H4. injection H4 as _ <-.
  step_ok H as u5 s5 H5. apply emit_run in H5.
  step_ok H as u6 s6 H6.
  assert (E6 : filter is_report (trace s6) = filter is_report (trace s5)).
  { apply (preserves_run (fun s => filter is_report (trace s)) _ _ _ _) with (2 := H6).
    unfold print_table_row. frame_marks. }
  apply emit_run in H.
  exists loc, s1, l, a. split.
  - subst s0. unfold emit, modify. simpl. exact H1.
  - subst st'. simpl. rewrite filter_app, E6. subst s5 s3. simpl.
    rewrite !filter_app. simpl. rewrite !app_nil_r. reflexivity.
Qed.

End EvaluationRuns.

Lemma test_ignores_iters_per_log_witness :
  fst (@test example_net (example_trainer 4 2) "Test set" false 100 false false
             example_state) = Ok tt /\
  @test example_net (example_trainer 4 2) "Test set" false 7000 false false example_state
  = @test example_net (example_trainer 4 2) "Test set" false 100 false false example_state /\
  marks (trace (snd (@test example_net (example_trainer 4 2) "Test set" false 100
                           false false example_state)))
  = [Mforward; Mforward; Mreport; Msave; Mforward; Mforward; Mreport; Msave] /\
  length (Stats.per_class_accuracy
            (test_stats (snd (@test example_net (example_trainer 4 2) "Test set" false
                                    100 false false example_state)))) = 2%nat.
Proof.
  assert (Hok : fst (@test example_net (example_trainer 4 2) "Test set" false 100 false
                           false example_state) = Ok tt)
    by (vm_compute; reflexivity).
  split; [exact Hok|].
  destruct (@test_ignores_iters_per_log example_net (example_trainer 4 2) "Test set"
              false 100 7000 false false example_state) as [Heq Hmarks].
  split; [exact Heq|]. exact (Hmarks Hok).
Defined.

Lemma test_emits_no_final_report_witness :
  Z.of_nat (length (batches (test_loader (example_trainer 1 100)))) < 100 /\
  filter is_report
    (trace (snd (@test example_net (example_trainer 1 100) "Test set" false 100 false
                       false example_state))) = [] /\
  Stats.loss (test_stats (snd (@test example_net (example_trainer 1 100) "Test set" false
                                     100 false false example_state))) = [].
Proof.
  assert (Hlt : Z.of_nat (length (batches (test_loader (example_trainer 1 100)))) < 100)
    by (simpl; lia).
  split; [exact Hlt|].
  destruct (@test_emits_no_final_report example_net (example_trainer 1 100) "Test set"
              false 100 false false example_state Hlt) as (H1 & H2 & _).
  split; [exact H1 | exact H2].
Defined.

(** ** Prior correction *)

Section FloatFacts.
Local Open Scope R_scope.

Lemma fl_div_fin (a b : R) : b <> 0 -> fl_div (Fin a) (Fin b) = Fin (a / b).
Proof. intros H. unfold fl_div. destruct (Req_dec_T b 0); [contradiction | reflexivity]. Qed.

Lemma fl_div_zero_zero (a b : R) : a = 0 -> b = 0 -> fl_div (Fin a) (Fin b) = NaN.
Proof.
  intros Ha Hb. unfold fl_div.
  destruct (Req_dec_T b 0); [|contradiction].
  destruct (Req_dec_T a 0); [reflexivity | contradiction].
Qed.

Lemma fl_log_pos (r : R) : 0 < r -> fl_log (Fin r) = Fin (ln r).
Proof. intros H. unfold fl_log. destruct (Rlt_dec 0 r); [reflexivity | contradiction]. Qed.

Lemma fl_log_neg (r : R) : r < 0 -> fl_log (Fin r) = NaN.
Proof.
  intros H. unfold fl_log.
  destruct (Rlt_dec 0 r); [lra|]. destruct (Req_dec_T r 0); [lra | reflexivity].
Qed.

Lemma fl_log_zero (r : R) : r = 0 -> fl_log (Fin r) = NInf.
Proof.
  intros H. unfold fl_log.
  destruct (Rlt_dec 0 r); [lra|]. destruct (Req_dec_T r 0); [reflexivity | contradiction].
Qed.

Lemma fl_log_exp (r : R) : fl_log (Fin (exp r)) = Fin r.
Proof. rewrite fl_log_pos by apply exp_pos. now rewrite ln_exp. Qed.

Lemma sigmoid_pos (x : R) : 0 < sigmoid x.
Proof.
  unfold sigmoid. pose proof (exp_pos (- x)).
  apply Rdiv_lt_0_compat; lra.
Qed.

Lemma sigmoid_increasing (x y : R) : x < y -> sigmoid x < sigmoid y.
Proof.
  intros H. unfold sigmoid.
  pose proof (exp_pos (- x)). pose proof (exp_pos (- y)).
  assert (exp (- y) < exp (- x)) by (apply exp_increasing; lra).
  unfold Rdiv. rewrite !Rmult_1_l. apply Rinv_lt_contravar; nra.
Qed.

Lemma share_bounds (c x0 x1 : R) :
  0 < share c x0 x0 x1 < 1 /\ 0 < share c x1 x0 x1 < 1.
Proof.
  unfold share.
  pose proof (sigmoid_pos (x0 + - c)) as H0. pose proof (sigmoid_pos (x1 + - c)) as H1.
  set (s0 := sigmoid (x0 + - c)) in *. set (s1 := sigmoid (x1 + - c)) in *.
  assert (P0 : 0 < s0 / (s0 + s1)) by (apply Rdiv_lt_0_compat; lra).
  assert (P1 : 0 < s1 / (s0 + s1)) by (apply Rdiv_lt_0_compat; lra).
  assert (E : s0 / (s0 + s1) + s1 / (s0 + s1) = 1) by (field; lra).
  lra.
Qed.

Lemma share_increasing (c x0 x1 : R) :
  x0 < x1 -> share c x0 x0 x1 < share c x1 x0 x1.
Proof.
  intros H. unfold share.
  pose proof (sigmoid_pos (x0 + - c)). pose proof (sigmoid_pos (x1 + - c)).
  assert (sigmoid (x0 + - c) < sigmoid (x1 + - c)) by (apply sigmoid_increasing; lra).
  unfold Rdiv. apply Rmult_lt_compat_r; [|assumption].
  apply Rinv_0_lt_compat. lra.
Qed.

Lemma ln_share_neg (c x x0 x1 : R) : 0 < share c x x0 x1 < 1 -> ln (share c x x0 x1) < 0.
Proof.
  intros [H0 H1]. rewrite <- ln_1. apply ln_increasing; assumption.
Qed.

(** One turn of the correction on a two-class pixel with finite scores. *)
Lemma correct_image_pixel2 (c x0 x1 : R) :
  correct_image (pixel2 (Fin c) (Fin c)) (pixel2 (Fin x0) (Fin x1))
  = pixel2 (Fin (share c x0 x0 x1)) (Fin (share c x1 x0 x1)).
Proof.
  unfold correct_image, pixel2, div_dim0, sum_dim0. simpl.
  pose proof (sigmoid_pos (x0 + - c)). pose proof (sigmoid_pos (x1 + - c)).
  rewrite !fl_div_fin by lra. reflexivity.
Qed.

Lemma log_share_pixel2 (c x0 x1 : R) :
  map (map fl_log) (pixel2 (Fin (share c x0 x0 x1)) (Fin (share c x1 x0 x1)))
  = pixel2 (Fin (ln (share c x0 x0 x1))) (Fin (ln (share c x1 x0 x1))).
Proof.
  destruct (share_bounds c x0 x1) as [[H0 _] [H1 _]].
  unfold pixel2. simpl. rewrite !fl_log_pos by assumption. reflexivity.
Qed.

(** A second logarithm of the shares: they are below 1, their logarithms
    are negative, and the logarithm of a negative number is NaN. *)
Lemma log_log_share_pixel2 (c x0 x1 : R) :
  map (map fl_log) (pixel2 (Fin (ln (share c x0 x0 x1))) (Fin (ln (share c x1 x0 x1))))
  = pixel2 NaN NaN.
Proof.
  destruct (share_bounds c x0 x1) as [B0 B1].
  unfold pixel2. simpl. rewrite !fl_log_neg by (apply ln_share_neg; assumption).
  reflexivity.
Qed.

Lemma log_exp_pixel2 (x0 x1 : R) :
  map (map fl_log) (pixel2 (Fin (exp x0)) (Fin (exp x1))) = pixel2 (Fin x0) (Fin x1).
Proof. unfold pixel2. simpl. rewrite !fl_log_exp. reflexivity. Qed.

Lemma argmax_pixel2_fin (x0 x1 : R) :
  argmax_image (pixel2 (Fin x0) (Fin x1)) = [if Rlt_dec x0 x1 then 1%Z else 0%Z].
Proof.
  unfold argmax_image, pixel2, class_scores, argmax_list. simpl.
  destruct (Rlt_dec x0 x1); reflexivity.
Qed.

Lemma argmax_pixel2_nan : argmax_image (pixel2 NaN NaN) = [0%Z].
Proof. reflexivity. Qed.

(** The penalty built from a class distribution that is uniform over two
    classes is uniform: one half for each class. *)
Lemma unbiased_prior_uniform (f : R) :
  0 < f ->
  unbiased_prior 2 (pixel2 (Fin f) (Fin f))
  = (Ok tt, pixel2 (Fin (1 / 2)) (Fin (1 / 2))).
Proof.
  intros Hf. unfold unbiased_prior, pixel2. simpl.
  unfold bind, get, lift, put. simpl.
  unfold fl_mean, fl_sum, fl_of_Z, div_dim0, sum_dim0, fl_sub. simpl.
  rewrite (fl_div_fin (0 + f) 1) by lra.
  assert (N1 : (0 + f) / 1 <> 0) by (unfold Rdiv; rewrite Rinv_1; lra).
  rewrite (fl_div_fin f _ N1). simpl.
  set (u := f / ((0 + f) / 1)).
  assert (Hu : u = 1) by (unfold u; field; lra).
  rewrite (fl_div_fin u (u + u)) by lra. simpl.
  replace (1 + - (u / (u + u))) with (1 / 2) by (rewrite Hu; field).
  reflexivity.
Qed.

Lemma exp_pixel2 (x0 x1 : R) :
  map (map fl_exp) (pixel2 (Fin x0) (Fin x1)) = pixel2 (Fin (exp x0)) (Fin (exp x1)).
Proof. reflexivity. Qed.

(** The batch loop unrolled: with one image every step is taken once ... *)
Lemma prior_correction_one (prior i0 : image) :
  prior_correction prior [i0]
  = [map (map fl_log) (correct_image prior (map (map fl_exp) i0))].
Proof. reflexivity. Qed.

(** ... with two images the first one goes through the logarithm twice,
    and the second one through it before its penalty is subtracted ... *)
Lemma prior_correction_two (prior i0 i1 : image) :
  prior_correction prior [i0; i1]
  = [map (map fl_log) (map (map fl_log) (correct_image prior (map (map fl_exp) i0)));
     map (map fl_log)
       (correct_image prior (map (map fl_log) (map (map fl_exp) i1)))].
Proof. reflexivity. Qed.

(** ... and with three the third one through it twice before that. *)
Lemma prior_correction_three (prior i0 i1 i2 : image) :
  prior_correction prior [i0; i1; i2]
  = [map (map fl_log)
       (map (map fl_log)
          (map (map fl_log) (correct_image prior (map (map fl_exp) i0))));
     map (map fl_log)
       (map (map fl_log)
          (correct_image prior (map (map fl_log) (map (map fl_exp) i1))));
     map (map fl_log)
       (correct_image prior
          (map (map fl_log) (map (map fl_log) (map (map fl_exp) i2))))].
Proof. reflexivity. Qed.

(** With a single image in the batch the correction leaves the predicted
    class of a two-class pixel as it was. *)
Lemma prior_correction_single_image (c a0 a1 : R) :
  torch_argmax (prior_correction (pixel2 (Fin c) (Fin c)) [pixel2 (Fin a0) (Fin a1)])
  = torch_argmax [pixel2 (Fin a0) (Fin a1)].
Proof.
  rewrite prior_correction_one, exp_pixel2, correct_image_pixel2, log_share_pixel2.
  unfold torch_argmax. cbn [map]. rewrite !argmax_pixel2_fin.
  destruct (share_bounds c (exp a0) (exp a1)) as [[H0 _] [H1 _]].
  destruct (Rlt_dec a0 a1) as [Hlt|Hge].
  - destruct (Rlt_dec _ _) as [|Hn]; [reflexivity|]. exfalso. apply Hn.
    apply ln_increasing; [assumption|]. apply share_increasing.
    now apply exp_increasing.
  - destruct (Rlt_dec _ _) as [Hl|]; [|reflexivity]. exfalso. apply Hge.
    apply ln_lt_inv in Hl; try assumption.
    destruct (Rlt_dec a0 a1) as [|Hn]; [assumption|].
    assert (Hle : a1 <= a0) by lra. destruct Hle as [Hlt'|Heq].
    + pose proof (share_increasing c (exp a1) (exp a0) (exp_increasing _ _ Hlt')) as Hs.
      unfold share in *. rewrite (Rplus_comm (sigmoid (exp a1 + - c))) in Hs. lra.
    + subst a1. lra.
Qed.

End FloatFacts.

Section PriorCorrection.
Local Open Scope R_scope.

(** C2 (the code departs from the claim).  With a perfectly uniform class
    distribution the penalty is one half for both classes, and in a batch
    of two images the first one comes out of the correction as NaN at
    every class: its logarithm is taken a second time, inside the loop,
    when the second image is processed.  The class predicted from the
    corrected output is then 0, whereas the raw logits give 1. *)
Theorem prior_correction_breaks_first_of_two (f a0 a1 b0 b1 : R) :
  0 < f -> a0 < a1 ->
  let output := [pixel2 (Fin a0) (Fin a1); pixel2 (Fin b0) (Fin b1)] in
  exists prior,
    unbiased_prior 2 (pixel2 (Fin f) (Fin f)) = (Ok tt, prior) /\
    prior = pixel2 (Fin (1 / 2)) (Fin (1 / 2)) /\
    nth 0 (prior_correction prior output) [] = pixel2 NaN NaN /\
    nth 0 (torch_argmax (prior_correction prior output)) [] = [[0%Z]] /\
    nth 0 (torch_argmax output) [] = [[1%Z]].
Proof.
  intros Hf Ha output. exists (pixel2 (Fin (1 / 2)) (Fin (1 / 2))).
  split; [apply unbiased_prior_uniform; assumption|]. split; [reflexivity|].
  assert (E : nth 0 (prior_correction (pixel2 (Fin (1 / 2)) (Fin (1 / 2))) output) []
              = pixel2 NaN NaN).
  { unfold output. rewrite prior_correction_two. cbn [nth].
    rewrite exp_pixel2, correct_image_pixel2, log_share_pixel2, log_log_share_pixel2.
    reflexivity. }
  split; [exact E|]. split.
  - unfold torch_argmax. unfold output in *. rewrite prior_correction_two in *.
    cbn [nth map] in *. rewrite E. reflexivity.
  - unfold torch_argmax, output. cbn [nth map]. rewrite argmax_pixel2_fin.
    destruct (Rlt_dec a0 a1); [reflexivity | contradiction].
Qed.

Lemma prior_correction_breaks_first_of_two_witness :
  0 < 1 / 2 /\ 0 < 1 /\
  exists prior,
    unbiased_prior 2 (pixel2 (Fin (1 / 2)) (Fin (1 / 2))) = (Ok tt, prior) /\
    prior = pixel2 (Fin (1 / 2)) (Fin (1 / 2)) /\
    nth 0 (prior_correction prior [pixel2 (Fin 0) (Fin 1); pixel2 (Fin 0) (Fin 0)]) []
    = pixel2 NaN NaN /\
    nth 0 (torch_argmax
             (prior_correction prior [pixel2 (Fin 0) (Fin 1); pixel2 (Fin 0) (Fin 0)])) []
    = [[0%Z]] /\
    nth 0 (torch_argmax [pixel2 (Fin 0) (Fin 1); pixel2 (Fin 0) (Fin 0)]) [] = [[1%Z]].
Proof.
  split; [lra|]. split; [lra|].
  apply (prior_correction_breaks_first_of_two (1 / 2) 0 1 0 0); lra.
Defined.

(** *** A zero denominator *)

Lemma nth_error_zip_with {A B C} (f : A -> B -> C) (xs : list A) (ys : list B) p :
  nth_error (zip_with f xs ys) p
  = match nth_error xs p, nth_error ys p with
    | Some x, Some y => Some (f x y)
    | _, _ => None
    end.
Proof.
  revert xs ys; induction p as [|p IH]; intros [|x xs] [|y ys]; simpl; auto.
  destruct (nth_error xs p); reflexivity.
Qed.

Lemma squashed_sigmoid (x : fl) : squashed (fl_sigmoid x).
Proof.
  destruct x; simpl; try lra; auto. pose proof (sigmoid_pos r). lra.
Qed.

Lemma squashed_add (x y : fl) : squashed x -> squashed y -> squashed (fl_add x y).
Proof. destruct x, y; simpl; auto; try tauto. lra. Qed.

Lemma squashed_add_zero (x y : fl) :
  squashed x -> squashed y -> fl_add x y = Fin 0 -> x = Fin 0 /\ y = Fin 0.
Proof.
  destruct x, y; simpl; try discriminate; try tauto.
  intros Hx Hy H. injection H as H. split; f_equal; lra.
Qed.

Lemma zip_add_squashed (acc plane : list fl) :
  Forall squashed acc -> Forall squashed plane ->
  Forall squashed (zip_with fl_add acc plane).
Proof.
  intros Ha; revert plane. induction Ha as [|x acc Hx Ha IH]; intros [|y plane] Hp;
    simpl; auto.
  inversion Hp; subst. constructor; auto using squashed_add.
Qed.

Lemma nth_error_squashed (plane : list fl) p x :
  Forall squashed plane -> nth_error plane p = Some x -> squashed x.
Proof.
  intros H E. apply nth_error_In in E. rewrite Forall_forall in H. auto.
Qed.

(** Where the sum across the planes is zero, every plane is zero. *)
Lemma sum_planes_zero (planes : list (list fl)) :
  all_squashed planes ->
  forall acc p, Forall squashed acc ->
    nth_error (fold_left (zip_with fl_add) planes acc) p = Some (Fin 0) ->
    nth_error acc p = Some (Fin 0) /\
    forall plane, In plane planes -> nth_error plane p = Some (Fin 0).
Proof.
  induction 1 as [|pl planes Hpl Hrest IH]; intros acc p Hacc H; simpl in *.
  - split; [assumption | tauto].
  - apply IH in H; [|apply zip_add_squashed; assumption].
    destruct H as [H Hin]. rewrite nth_error_zip_with in H.
    destruct (nth_error acc p) as [a|] eqn:Ea; [|discriminate H].
    destruct (nth_error pl p) as [b|] eqn:Eb; [|discriminate H].
    injection H as H.
    apply squashed_add_zero in H; eauto using nth_error_squashed.
    destruct H as [-> ->]. split; [reflexivity|].
    intros plane [<-|Hp]; auto.
Qed.

Lemma correct_image_zero_denominator (prior img : image) (p : nat) :
  nth_error (normalization_of prior img) p = Some (Fin 0) ->
  forall k plane,
    nth_error (correct_image prior img) k = Some plane ->
    nth_error plane p = Some NaN.
Proof.
  unfold normalization_of, correct_image.
  set (sig := map (map fl_sigmoid) (zip_with (zip_with fl_sub) img prior)).
  assert (Hsig : all_squashed sig).
  { unfold sig, all_squashed. apply Forall_forall. intros pl Hin.
    apply in_map_iff in Hin. destruct Hin as (pl0 & <- & _).
    apply Forall_forall. intros x Hx. apply in_map_iff in Hx.
    destruct Hx as (x0 & <- & _). apply squashed_sigmoid. }
  intros Hzero k plane Hk.
  unfold div_dim0 in Hk. rewrite nth_error_map in Hk.
  destruct (nth_error sig k) as [pl|] eqn:Epl; [|discriminate Hk].
  injection Hk as <-.
  assert (Hpl : nth_error pl p = Some (Fin 0)).
  { apply nth_error_In in Epl. unfold sum_dim0 in Hzero.
    destruct sig as [|pl0 planes]; [contradiction|].
    inversion Hsig as [|? ? H0 Hrest]; subst.
    destruct (sum_planes_zero planes Hrest pl0 p H0 Hzero) as [Hacc Hin].
    destruct Epl as [<-|Hp]; auto. }
  rewrite nth_error_zip_with, Hpl, Hzero.
  rewrite fl_div_zero_zero; reflexivity.
Qed.

Lemma nth_tensor_map (f : fl -> fl) (t : tensor) i :
  nth i (tensor_map f t) [] = map (map f) (nth i t []).
Proof. unfold tensor_map. apply (map_nth (map (map f)) t [] i). Qed.

(** C5, amended.  Nothing guards the renormalization: where the
    denominator (the sum of the squashed scores across the class axis) of
    image [i] is zero at a pixel, the division is carried out all the
    same, the value of every class at that pixel is NaN, and it is still
    NaN when the turn of the loop ends with the logarithm. *)
Theorem zero_denominator_yields_nan (prior : image) (output : tensor) (i p : nat) :
  (i < length output)%nat ->
  nth_error (normalization_of prior (nth i output [])) p = Some (Fin 0) ->
  (forall k plane,
     nth_error (correct_image prior (nth i output [])) k = Some plane ->
     nth_error plane p = Some NaN) /\
  (forall k plane,
     nth_error (nth i (prior_step prior output i) []) k = Some plane ->
     nth_error plane p = Some NaN).
Proof.
  intros Hi Hzero.
  pose proof (correct_image_zero_denominator prior (nth i output []) p Hzero) as Hc.
  split; [exact Hc|].
  intros k plane Hk. unfold prior_step in Hk.
  rewrite nth_tensor_map, nth_update_same in Hk by assumption.
  rewrite nth_error_map in Hk.
  destruct (nth_error (correct_image prior (nth i output [])) k) as [pl|] eqn:E;
    [|discriminate Hk].
  injection Hk as <-. rewrite nth_error_map, (Hc k pl E). reflexivity.
Qed.

Lemma zero_denominator_yields_nan_witness :
  (0 < length [pixel2 NInf NInf])%nat /\
  nth_error (normalization_of (pixel2 (Fin (1 / 2)) (Fin (1 / 2)))
                              (nth 0 [pixel2 NInf NInf] [])) 0
  = Some (Fin 0) /\
  (forall k plane,
     nth_error (nth 0 (prior_step (pixel2 (Fin (1 / 2)) (Fin (1 / 2)))
                                  [pixel2 NInf NInf] 0) []) k = Some plane ->
     nth_error plane 0 = Some NaN).
Proof.
  assert (Hi : (0 < length [pixel2 NInf NInf])%nat) by (simpl; lia).
  assert (H : nth_error (normalization_of (pixel2 (Fin (1 / 2)) (Fin (1 / 2)))
                                          (nth 0 [pixel2 NInf NInf] [])) 0
              = Some (Fin 0)).
  { simpl. do 2 f_equal. lra. }
  split; [exact Hi|]. split; [exact H|].
  exact (proj2 (zero_denominator_yields_nan _ _ 0%nat 0%nat Hi H)).
Defined.

End PriorCorrection.

(** ** Runs that return *)

Section Returns.
Context `{net : Network}.

Lemma returns_ret {A} (I : state -> Prop) (a : A) (Q : A -> Prop) :
  Q a -> returns I (ret a) Q.
Proof. intros HQ s Hs. exists a, s. auto. Qed.

Lemma returns_bind {A B} (I : state -> Prop) (c : M state A) (k : A -> M state B)
    (Q1 : A -> Prop) (Q2 : B -> Prop) :
  returns I c Q1 -> (forall a, Q1 a -> returns I (k a) Q2) -> returns I (bind c k) Q2.
Proof.
  intros Hc Hk s Hs. destruct (Hc s Hs) as (a & s1 & E & Hs1 & Ha).
  destruct (Hk a Ha s1 Hs1) as (b & s2 & E2 & Hs2 & Hb).
  exists b, s2. unfold bind. rewrite E. auto.
Qed.

Lemma returns_get (I : state -> Prop) : returns I get (fun _ => True).
Proof. intros s Hs. exists s, s. auto. Qed.

Lemma returns_emit (I : state -> Prop) (e : event) :
  trace_blind I -> returns I (emit e) (fun _ => True).
Proof.
  intros HI [w tr ts t] Hs. eexists tt, _. unfold emit, modify. simpl.
  split; [reflexivity|]. split; [|exact Logic.I]. eapply HI; eassumption.
Qed.

Lemma returns_lift {A} (I : state -> Prop) (r : result A) (a : A) (Q : A -> Prop) :
  r = Ok a -> Q a -> returns I (lift r) Q.
Proof. intros -> HQ s Hs. exists a, s. auto. Qed.

Lemma returns_with_local {L A} (I : state -> Prop) (l : L) (c : M L A) a l'
    (Q : A * L -> Prop) :
  c l = (Ok a, l') -> Q (a, l') -> returns I (with_local l c) Q.
Proof.
  intros E HQ s Hs. exists (a, l'), s. unfold with_local. rewrite E. auto.
Qed.

(** The loop over the classes that records the pixel counts returns as
    long as both lists have an entry for every class. *)
Lemma record_pixel_measurements_loop pred target (cs : list nat) :
  forall cc cjo,
    (forall i, In i cs -> (i < length cc)%nat /\ (i < length cjo)%nat) ->
    exists cc' cjo',
      for_each cs (fun i =>
        st <- get ;;
        c <- lift (getitem (fst st) i) ;;
        class_correct <- lift (setitem (fst st) i (c + correct_pixels pred target i)) ;;
        u <- lift (getitem (snd st) i) ;;
        class_jacard_or <- lift (setitem (snd st) i (u + jaccard_or_pixels pred target i)) ;;
        put (class_correct, class_jacard_or)) (cc, cjo)
      = (Ok tt, (cc', cjo')) /\
      length cc' = length cc /\ length cjo' = length cjo.
Proof.
  induction cs as [|i cs IH]; intros cc cjo Hin.
  - exists cc, cjo. simpl. auto.
  - destruct (Hin i (or_introl eq_refl)) as [Hc Hj].
    set (cc1 := update cc i (nth i cc 0 + correct_pixels pred target i)).
    set (cjo1 := update cjo i (nth i cjo 0 + jaccard_or_pixels pred target i)).
    destruct (IH cc1 cjo1) as (cc' & cjo' & E & L1 & L2).
    { intros k Hk. unfold cc1, cjo1. rewrite !update_length. apply Hin. now right. }
    exists cc', cjo'. split; [|split].
    + simpl for_each. unfold bind at 1. unfold bind at 1, get at 1.
      unfold bind at 1, lift at 1. cbn [fst snd].
      rewrite (getitem_nth cc i 0 Hc).
      unfold bind at 1, lift at 1. rewrite (setitem_ok cc i _ Hc).
      unfold bind at 1, lift at 1. rewrite (getitem_nth cjo i 0 Hj).
      unfold bind at 1, lift at 1. rewrite (setitem_ok cjo i _ Hj).
      unfold put at 1. exact E.
    + rewrite L1. apply update_length.
    + rewrite L2. apply update_length.
Qed.

Lemma record_pixel_measurements_ok n pred target cc cjo :
  (n <= length cc)%nat -> (n <= length cjo)%nat ->
  exists cc' cjo',
    record_pixel_measurements n pred target (cc, cjo) = (Ok tt, (cc', cjo')) /\
    length cc' = length cc /\ length cjo' = length cjo.
Proof.
  intros Hc Hj. apply record_pixel_measurements_loop.
  intros i Hi. apply in_seq in Hi. lia.
Qed.

Lemma unbiased_prior_loop (cs : list nat) :
  forall prior : image,
    (forall i, In i cs -> (i < length prior)%nat) ->
    exists prior',
      for_each cs (fun i =>
        prior <- get ;;
        plane <- lift (getitem prior i) ;;
        let m := fl_mean plane in
        prior' <- lift (setitem prior i (map (fun x => fl_div x m) plane)) ;;
        put prior') prior
      = (Ok tt, prior') /\ length prior' = length prior.
Proof.
  induction cs as [|i cs IH]; intros prior Hin.
  - exists prior. simpl. auto.
  - assert (Hi : (i < length prior)%nat) by (apply Hin; now left).
    set (p1 := update prior i
                 (map (fun x => fl_div x (fl_mean (nth i prior []))) (nth i prior []))).
    destruct (IH p1) as (prior' & E & L).
    { intros k Hk. unfold p1. rewrite update_length. apply Hin. now right. }
    exists prior'. split.
    + simpl for_each. unfold bind at 1. unfold bind at 1, get at 1.
      unfold bind at 1, lift at 1. rewrite (getitem_nth prior i [] Hi). cbv zeta.
      unfold bind at 1, lift at 1. rewrite (setitem_ok prior i _ Hi).
      unfold put at 1. exact E.
    + rewrite L. apply update_length.
Qed.

Lemma unbiased_prior_ok n (dist : image) :
  (n <= length dist)%nat -> exists prior, unbiased_prior n dist = (Ok tt, prior).
Proof.
  intros Hn. destruct (unbiased_prior_loop (range n) dist) as (p & E & _).
  { intros i Hi. apply in_seq in Hi. lia. }
  eexists. unfold unbiased_prior. rewrite (bind_ok _ _ _ _ _ E).
  unfold bind, get, put. reflexivity.
Qed.

Lemma test_confusion_square_blind n : trace_blind (test_confusion_square n).
Proof. intros w tr ts t1 t2 H. exact H. Qed.

Lemma returns_accumulate n pred target :
  returns (test_confusion_square n)
          (on_test_confusion (get_per_class_accuracy pred target)) (fun _ => True).
Proof.
  intros s Hs.
  destruct (get_per_class_accuracy_cells pred target n _ Hs) as (acc' & E & Hsq & _).
  eexists tt, _. unfold on_test_confusion, zoom. rewrite E.
  split; [reflexivity|]. split; [|exact I].
  destruct s as [w tr ts t]. exact Hsq.
Qed.

(** A batch whose count is not a multiple of the log spacing returns. *)
Lemma test_batch_returns n self name use_crf visualize use_prior prior i b loc done :
  locals_fit self done loc ->
  log_spacing self <> 0 ->
  (done + 1) mod log_spacing self <> 0 ->
  returns (test_confusion_square n)
          (test_batch self name use_crf visualize use_prior prior i b loc)
          (locals_fit self (done + 1)).
Proof.
  intros (Hc & Hj & Hd) Hls Hmod. unfold test_batch. cbv zeta.
  pose proof (test_confusion_square_blind n) as Hblind.
  eapply returns_bind; [apply returns_get | intros s0 _].
  eapply returns_bind; [apply returns_emit; assumption | intros _ _].
  eapply returns_bind.
  { instantiate (1 := fun _ => True).
    destruct use_crf; [apply returns_emit; assumption | now apply returns_ret]. }
  intros _ _.
  eapply returns_bind; [apply returns_emit; assumption | intros _ _].
  match goal with
  | |- context [record_pixel_measurements ?k ?p ?t] =>
      destruct (record_pixel_measurements_ok k p t _ _ Hc Hj)
        as (cc' & cjo' & Er & L1 & L2)
  end.
  eapply returns_bind.
  { eapply returns_with_local; [exact Er|].
    instantiate (1 := fun x => snd x = (cc', cjo')). reflexivity. }
  intros counts Hcounts.
  eapply returns_bind; [apply returns_accumulate | intros _ _].
  eapply returns_bind.
  { eapply returns_lift.
    - unfold py_mod. destruct (Z.eqb_spec (log_spacing self) 0); [contradiction|].
      reflexivity.
    - instantiate (1 := fun m => m = (te_batches_done loc + 1) mod log_spacing self).
      reflexivity. }
  intros m ->. rewrite Hd.
  destruct (Z.eqb_spec ((done + 1) mod log_spacing self) 0); [contradiction|].
  eapply returns_bind; [apply (returns_ret _ tt (fun _ => True)); exact I | intros _ _].
  apply returns_ret. unfold locals_fit. simpl. rewrite Hcounts. simpl.
  repeat split; lia.
Qed.

Lemma for_batches_test_returns n self name use_crf visualize use_prior prior
    (xs : list (nat * batch)) :
  forall loc done,
    locals_fit self done loc -> 0 <= done ->
    done + Z.of_nat (length xs) < log_spacing self ->
    returns (test_confusion_square n)
            (for_batches xs (test_batch self name use_crf visualize use_prior prior) loc)
            (fun _ => True).
Proof.
  induction xs as [|[i b] xs IH]; intros loc done Hfit H0 Hlt.
  - apply returns_ret. exact I.
  - simpl length in Hlt. simpl for_batches.
    eapply returns_bind.
    + apply (test_batch_returns n) with (done := done); try assumption; try lia.
      rewrite Z.mod_small by lia. lia.
    + intros loc1 Hfit1. apply (IH loc1 (done + 1)); auto; lia.
Qed.

(** An evaluation pass over fewer batches than the log spacing returns,
    with or without the prior correction, whatever the scores are. *)
Lemma test_short_run_returns n self name use_crf iters_per_log visualize use_prior st :
  (num_classes self <= length get_distribution)%nat ->
  square n (Stats.confusion (test_stats st)) ->
  Z.of_nat (length (batches (test_loader self))) < log_spacing self ->
  exists st', test self name use_crf iters_per_log visualize use_prior st = (Ok tt, st').
Proof.
  intros Hdist Hsq Hlt.
  destruct (unbiased_prior_ok _ _ Hdist) as (prior & Ep).
  assert (R : returns (test_confusion_square n)
                (test self name use_crf iters_per_log visualize use_prior)
                (fun _ => True)).
  { unfold test.
    eapply returns_bind;
      [apply returns_emit; apply test_confusion_square_blind | intros _ _].
    eapply returns_bind.
    { eapply returns_with_local; [exact Ep|].
      instantiate (1 := fun _ => True). exact I. }
    intros p _.
    eapply returns_bind; [|intros; apply returns_ret; exact I].
    apply (for_batches_test_returns n) with (done := 0).
    - unfold locals_fit. simpl. rewrite !repeat_length. auto.
    - lia.
    - unfold enumerate. rewrite length_combine, length_seq, Nat.min_id. lia. }
  destruct (R st Hsq) as ([] & st' & E & _). eauto.
Qed.

End Returns.

Section ZeroDenominatorRun.
Local Open Scope R_scope.

Lemma log_zero_pixel2 :
  map (map fl_log) (pixel2 (Fin 0) (Fin 0)) = pixel2 NInf NInf.
Proof. unfold pixel2. simpl. rewrite !fl_log_zero by reflexivity. reflexivity. Qed.

Lemma correct_image_minus_infinity (c : R) :
  correct_image (pixel2 (Fin c) (Fin c)) (pixel2 NInf NInf) = pixel2 NaN NaN.
Proof.
  unfold correct_image, pixel2, div_dim0, sum_dim0. simpl.
  rewrite !fl_div_zero_zero by lra. reflexivity.
Qed.

(** C5 as stated fails.  In a batch of three images whose third has the
    logits 0 and 0 at a pixel, the third image enters its turn of the loop
    as minus infinity (the logarithm was taken twice), its squashed scores
    are 0 and 0 and the renormalization denominator is 0; the correction
    divides, the whole output is NaN, and the evaluation pass returns
    normally. *)
Lemma zero_denominator_goes_unreported :
  let prior := pixel2 (Fin (1 / 2)) (Fin (1 / 2)) in
  let output := [pixel2 (Fin 0) (Fin 1); pixel2 (Fin 0) (Fin 1); pixel2 (Fin 0) (Fin 0)] in
  let entering :=
    nth 2 (prior_step prior (prior_step prior (tensor_map fl_exp output) 0) 1) [] in
  unbiased_prior 2 (@get_distribution example_net) = (Ok tt, prior) /\
  @forward example_net tt output = output /\
  normalization_of prior entering = [Fin 0] /\
  prior_correction prior output = [pixel2 NaN NaN; pixel2 NaN NaN; pixel2 NaN NaN] /\
  exists st',
    @test example_net (trainer_on output [[[0%Z]]; [[1%Z]]; [[0%Z]]] 1 100)
          "Test set" false 100 false true example_state
    = (Ok tt, st').
Proof.
  intros prior output entering.
  split; [apply (unbiased_prior_uniform (1 / 2)); lra|].
  split; [reflexivity|].
  assert (Eent : entering = pixel2 NInf NInf).
  { unfold entering, output, prior_step, tensor_map. cbn [map nth update].
    rewrite !exp_pixel2, !log_exp_pixel2. apply log_zero_pixel2. }
  split.
  { rewrite Eent. unfold normalization_of, pixel2, sum_dim0. simpl.
    do 2 f_equal. lra. }
  split.
  { unfold output. rewrite prior_correction_three.
    rewrite !exp_pixel2, !log_exp_pixel2, log_zero_pixel2.
    unfold prior. rewrite !correct_image_pixel2, correct_image_minus_infinity.
    rewrite !log_share_pixel2, !log_log_share_pixel2. reflexivity. }
  apply (@test_short_run_returns example_net 2).
  - simpl. lia.
  - split; [reflexivity|]. intros [|[|r]] Hr; try reflexivity. lia.
  - simpl. lia.
Qed.

End ZeroDenominatorRun.

(** A resumed epoch worked out: three batches, [start_index = 1].  The
    call returns, runs the forward pass of the last two batches only, and
    the confusion matrix holds the pixels of those two batches. *)
Example train_resume_example :
  fst (@train example_net (example_trainer 3 2) 0 1 example_state) = Ok tt /\
  length (forwards (trace (snd (@train example_net (example_trainer 3 2) 0 1
                                       example_state)))) = 2%nat /\
  Stats.confusion (train_stats (snd (@train example_net (example_trainer 3 2) 0 1
                                            example_state)))
  = [[2; 0]; [2; 4]].
Proof. vm_compute. repeat split; reflexivity. Qed.

(** * Further properties of the code *)

(** ** The confusion accumulator on any matrix *)


Lemma square_zeros2 : square 2 zeros2.
Proof. split; [reflexivity|]. intros [|[|r]] Hr; try reflexivity. lia. Qed.


(** X2.  For label maps of the same shape with labels in [[0, n)], one
    call adds to every row the number of pixels whose target is the row's
    class, to every column the number of pixels predicted as the column's
    class, and to the whole matrix the number of pixels. *)
Theorem confusion_sums_count_pixels (pred target : label_tensor) (n : nat)
    (acc : matrix) :
  square n acc ->
  length (ravel pred) = length (ravel target) ->
  in_range n pred -> in_range n target ->
  exists acc',
    get_per_class_accuracy pred target acc = (Ok tt, acc') /\
    (forall t, (t < n)%nat ->
       row_sum acc' t = row_sum acc t + count_label target (Z.of_nat t)) /\
    (forall p, (p < n)%nat ->
       col_sum acc' p = col_sum acc p + count_label pred (Z.of_nat p)) /\
    matrix_sum acc' = matrix_sum acc + Z.of_nat (length (ravel target)).
Proof.
  intros Hsq Hlen Hp Ht.
  destruct (get_per_class_accuracy_sums pred target n acc Hsq Hlen Hp Ht)
    as (acc' & E & Hr & Hc & Hm).
  exists acc'. auto.
Qed.

Lemma confusion_sums_count_pixels_witness :
  square 2 zeros2 /\
  length (ravel scenario_pred) = length (ravel scenario_target) /\
  in_range 2 scenario_pred /\ in_range 2 scenario_target /\
  exists acc',
    get_per_class_accuracy scenario_pred scenario_target zeros2 = (Ok tt, acc') /\
    (forall t, (t < 2)%nat ->
       row_sum acc' t = row_sum zeros2 t + count_label scenario_target (Z.of_nat t)) /\
    (forall p, (p < 2)%nat ->
       col_sum acc' p = col_sum zeros2 p + count_label scenario_pred (Z.of_nat p)) /\
    matrix_sum acc' = matrix_sum zeros2 + Z.of_nat (length (ravel scenario_target)).
Proof.
  assert (Hp : in_range 2 scenario_pred)
    by (unfold in_range; simpl; repeat constructor; lia).
  assert (Ht : in_range 2 scenario_target)
    by (unfold in_range; simpl; repeat constructor; lia).
  split; [exact square_zeros2|]. split; [reflexivity|]. split; [exact Hp|].
  split; [exact Ht|].
  exact (confusion_sums_count_pixels scenario_pred scenario_target 2 zeros2
           square_zeros2 eq_refl Hp Ht).
Defined.

Lemma for_each_app {S B} (xs ys : list B) (body : B -> M S unit) (s : S) :
  for_each (xs ++ ys) body s
  = match for_each xs body s with
    | (Ok _, s') => for_each ys body s'
    | (Raise e, s') => (Raise e, s')
    end.
Proof.
  revert s; induction xs as [|x xs IH]; intros s; simpl.
  - reflexivity.
  - unfold bind. destruct (body x s) as [[[]|e] s1]; [apply IH | reflexivity].
Qed.

Lemma for_each_raise_head {S B} (x : B) (xs : list B) (body : B -> M S unit) s e :
  fst (body x s) = Raise e -> fst (for_each (x :: xs) body s) = Raise e.
Proof.
  intros H. simpl. unfold bind. destruct (body x s) as [[[]|e'] s1]; simpl in *;
    [discriminate H | exact H].
Qed.





Lemma getitem_out_of_range {A} (l : list A) i :
  (length l <= i)%nat -> getitem l i = Raise IndexError.
Proof.
  intros H. unfold getitem. apply nth_error_None in H. rewrite H. reflexivity.
Qed.



(** ** Intersection and union counts *)

Lemma where_sum_nonneg (l : list bool) : 0 <= torch_where_sum l.
Proof.
  unfold torch_where_sum, sumZ.
  induction l as [|[] l IH]; cbn [map fold_right]; lia.
Qed.

Lemma where_sum_and_or (a b : list bool) :
  torch_where_sum (zip_with andb a b) <= torch_where_sum (zip_with orb a b)
  /\ torch_where_sum (zip_with orb a b) <= Z.of_nat (length (combine a b)).
Proof.
  unfold torch_where_sum, sumZ.
  revert b; induction a as [|x a IH]; intros [|y b];
    cbn [zip_with map fold_right combine length]; try lia.
  destruct (IH b) as [H1 H2]. destruct x, y; cbn [andb orb]; lia.
Qed.

Lemma combine_map_length {A B C D} (f : A -> C) (g : B -> D) (a : list A) (b : list B) :
  length (combine (map f a) (map g b)) = length (combine a b).
Proof. rewrite !length_combine, !length_map. reflexivity. Qed.

(** X4.  For every class the intersection count is at most the union
    count, and the union count at most the number of pixels: a Jaccard
    term [class_correct[i] / class_jacard_or[i]] never exceeds 1. *)
Theorem overlap_counts_are_ordered (pred target : label_tensor) (i : nat) :
  0 <= correct_pixels pred target i /\
  correct_pixels pred target i <= jaccard_or_pixels pred target i /\
  jaccard_or_pixels pred target i <= pixel_count pred target.
Proof.
  unfold correct_pixels, jaccard_or_pixels, pixel_count, byte_eq_class.
  split; [apply where_sum_nonneg|].
  destruct (where_sum_and_or
              (map (fun x => torch_byte x =? torch_byte (Z.of_nat i)) (ravel pred))
              (map (fun x => torch_byte x =? torch_byte (Z.of_nat i)) (ravel target)))
    as [H1 H2].
  split; [exact H1|]. rewrite combine_map_length in H2. exact H2.
Qed.

Lemma zip_with_same_and_or (l : list bool) : zip_with andb l l = zip_with orb l l.
Proof. induction l as [|[] l IH]; simpl; now rewrite ?IH. Qed.

(** X5.  Where the prediction equals the target everywhere, intersection
    and union coincide for every class, and the Jaccard term of a class
    that occurs is exactly 1. *)
Theorem overlap_of_perfect_prediction (pred : label_tensor) (i : nat) :
  correct_pixels pred pred i = jaccard_or_pixels pred pred i /\
  (jaccard_or_pixels pred pred i <> 0 ->
   py_int_truediv (correct_pixels pred pred i) (jaccard_or_pixels pred pred i)
   = Ok (Fin 1)).
Proof.
  assert (E : correct_pixels pred pred i = jaccard_or_pixels pred pred i).
  { unfold correct_pixels, jaccard_or_pixels. now rewrite zip_with_same_and_or. }
  split; [exact E|]. intros Hnz. rewrite E. unfold py_int_truediv.
  destruct (Z.eqb_spec (jaccard_or_pixels pred pred i) 0); [contradiction|].
  do 2 f_equal. apply Rinv_r. apply not_0_IZR. assumption.
Qed.

Lemma overlap_of_perfect_prediction_witness :
  jaccard_or_pixels scenario_target scenario_target 1 <> 0 /\
  py_int_truediv (correct_pixels scenario_target scenario_target 1)
                 (jaccard_or_pixels scenario_target scenario_target 1)
  = Ok (Fin 1).
Proof.
  assert (H : jaccard_or_pixels scenario_target scenario_target 1 <> 0)
    by (vm_compute; discriminate).
  split; [exact H|].
  exact (proj2 (overlap_of_perfect_prediction scenario_target 1) H).
Defined.

Lemma byte_small (v : Z) : 0 <= v < 256 -> torch_byte v = v.
Proof. intros H. unfold torch_byte. apply Z.mod_small. exact H. Qed.

Lemma overlap_lists (a b : list Z) (c : Z) :
  length a = length b ->
  Forall (fun v => 0 <= v < 256) a -> Forall (fun v => 0 <= v < 256) b ->
  0 <= c < 256 ->
  torch_where_sum (zip_with andb (byte_eq_class a c) (byte_eq_class b c))
  = Z.of_nat (length (filter (fun xy => (fst xy =? c) && (snd xy =? c)) (combine a b)))
  /\
  torch_where_sum (zip_with orb (byte_eq_class a c) (byte_eq_class b c))
  = Z.of_nat (length (filter (fun v => v =? c) a))
    + Z.of_nat (length (filter (fun v => v =? c) b))
    - Z.of_nat (length (filter (fun xy => (fst xy =? c) && (snd xy =? c)) (combine a b))).
Proof.
  intros Hlen Ha Hb Hc; revert b Hlen Hb.
  unfold torch_where_sum, byte_eq_class, sumZ. rewrite (byte_small c Hc).
  induction Ha as [|x a Hx Ha IH]; intros [|y b] Hlen Hb;
    cbn [zip_with map fold_right combine length filter] in *;
    try discriminate; try (split; reflexivity).
  inversion Hb as [|? ? Hy Hb']; subst.
  destruct (IH b) as [I1 I2]; auto.
  rewrite (byte_small x Hx), (byte_small y Hy). cbn [fst snd].
  destruct (x =? c), (y =? c); cbn [andb orb length]; split; lia.
Qed.

(** X6.  For byte-sized labels on label maps of the same shape, the
    intersection count of class [i] is the number of pixels predicted [i]
    with target [i] (what the same batch adds to the diagonal cell of the
    confusion matrix), and the union count is the number of pixels
    predicted [i] plus the number whose target is [i] minus that
    intersection. *)
Theorem overlap_counts_by_inclusion_exclusion (pred target : label_tensor) (i : nat) :
  length (ravel pred) = length (ravel target) ->
  byte_labels pred -> byte_labels target -> (i < 256)%nat ->
  correct_pixels pred target i = count_pairs pred target (Z.of_nat i) (Z.of_nat i) /\
  jaccard_or_pixels pred target i
  = count_label pred (Z.of_nat i) + count_label target (Z.of_nat i)
    - count_pairs pred target (Z.of_nat i) (Z.of_nat i).
Proof.
  intros Hlen Hp Ht Hi.
  unfold correct_pixels, jaccard_or_pixels, count_pairs, count_label.
  apply overlap_lists; auto. lia.
Qed.

Lemma overlap_counts_by_inclusion_exclusion_witness :
  length (ravel scenario_pred) = length (ravel scenario_target) /\
  byte_labels scenario_pred /\ byte_labels scenario_target /\ (1 < 256)%nat /\
  correct_pixels scenario_pred scenario_target 1
  = count_pairs scenario_pred scenario_target 1 1 /\
  jaccard_or_pixels scenario_pred scenario_target 1
  = count_label scenario_pred 1 + count_label scenario_target 1
    - count_pairs scenario_pred scenario_target 1 1.
Proof.
  assert (Hp : byte_labels scenario_pred)
    by (unfold byte_labels; simpl; repeat constructor; lia).
  assert (Ht : byte_labels scenario_target)
    by (unfold byte_labels; simpl; repeat constructor; lia).
  assert (Hi : (1 < 256)%nat) by lia.
  split; [reflexivity|]. split; [exact Hp|]. split; [exact Ht|]. split; [exact Hi|].
  exact (overlap_counts_by_inclusion_exclusion scenario_pred scenario_target 1
           eq_refl Hp Ht Hi).
Defined.

(** The loop over the classes, with the values it leaves. *)
Lemma record_pixel_measurements_values pred target (cs : list nat) :
  NoDup cs ->
  forall cc cjo,
    (forall i, In i cs -> (i < length cc)%nat /\ (i < length cjo)%nat) ->
    exists cc' cjo',
      for_each cs (fun i =>
        st <- get ;;
        c <- lift (getitem (fst st) i) ;;
        class_correct <- lift (setitem (fst st) i (c + correct_pixels pred target i)) ;;
        u <- lift (getitem (snd st) i) ;;
        class_jacard_or <- lift (setitem (snd st) i (u + jaccard_or_pixels pred target i)) ;;
        put (class_correct, class_jacard_or)) (cc, cjo)
      = (Ok tt, (cc', cjo')) /\
      length cc' = length cc /\ length cjo' = length cjo /\
      forall k,
        nth k cc' 0 = nth k cc 0
                      + (if existsb (Nat.eqb k) cs then correct_pixels pred target k else 0)
        /\
        nth k cjo' 0 = nth k cjo 0
                       + (if existsb (Nat.eqb k) cs
                          then jaccard_or_pixels pred target k else 0).
Proof.
  induction 1 as [|i cs Hnin Hnd IH]; intros cc cjo Hin.
  - exists cc, cjo. simpl. repeat split; lia.
  - destruct (Hin i (or_introl eq_refl)) as [Hc Hj].
    set (cc1 := update cc i (nth i cc 0 + correct_pixels pred target i)).
    set (cjo1 := update cjo i (nth i cjo 0 + jaccard_or_pixels pred target i)).
    destruct (IH cc1 cjo1) as (cc' & cjo' & E & L1 & L2 & V).
    { intros k Hk. unfold cc1, cjo1. rewrite !update_length. apply Hin. now right. }
    exists cc', cjo'. split; [|split; [|split]].
    + simpl for_each. unfold bind at 1. unfold bind at 1, get at 1.
      unfold bind at 1, lift at 1. cbn [fst snd].
      rewrite (getitem_nth cc i 0 Hc).
      unfold bind at 1, lift at 1. rewrite (setitem_ok cc i _ Hc).
      unfold bind at 1, lift at 1. rewrite (getitem_nth cjo i 0 Hj).
      unfold bind at 1, lift at 1. rewrite (setitem_ok cjo i _ Hj).
      unfold put at 1. exact E.
    + rewrite L1. apply update_length.
    + rewrite L2. apply update_length.
    + intros k. destruct (V k) as [V1 V2]. rewrite V1, V2. simpl existsb.
      unfold cc1, cjo1.
      destruct (Nat.eqb_spec k i) as [->|Hk]; simpl.
      * rewrite !nth_update_same by assumption.
        replace (existsb (Nat.eqb i) cs) with false; [lia|].
        symmetry. apply not_true_is_false. intros Hex.
        apply existsb_exists in Hex. destruct Hex as (x & Hx & Hxe).
        apply Nat.eqb_eq in Hxe. subst. contradiction.
      * rewrite !nth_update_other by assumption. split; reflexivity.
Qed.

(** X7.  With an entry for every class in both lists, the measurement
    loop of [train] and [test] returns, keeps the lengths and adds to
    entry [i] of [class_correct] and of [class_jacard_or] the intersection
    and the union count of class [i], for [i] below [num_classes]; the
    other entries are left alone. *)
Theorem record_pixel_measurements_adds (n : nat) (pred target : label_tensor)
    (cc cjo : list Z) :
  (n <= length cc)%nat -> (n <= length cjo)%nat ->
  exists cc' cjo',
    record_pixel_measurements n pred target (cc, cjo) = (Ok tt, (cc', cjo')) /\
    length cc' = length cc /\ length cjo' = length cjo /\
    forall k,
      nth k cc' 0 = nth k cc 0 + (if (k <? n)%nat then correct_pixels pred target k else 0)
      /\
      nth k cjo' 0 = nth k cjo 0
                     + (if (k <? n)%nat then jaccard_or_pixels pred target k else 0).
Proof.
  intros Hc Hj.
  destruct (record_pixel_measurements_values pred target (range n) (seq_NoDup n 0) cc cjo)
    as (cc' & cjo' & E & L1 & L2 & V).
  { intros i Hi. apply in_seq in Hi. lia. }
  exists cc', cjo'. repeat split; auto.
  - destruct (V k) as [V1 _]. rewrite V1, existsb_range. reflexivity.
  - destruct (V k) as [_ V2]. rewrite V2, existsb_range. reflexivity.
Qed.

Lemma record_pixel_measurements_adds_witness :
  (2 <= length [0; 0])%nat /\
  exists cc' cjo',
    record_pixel_measurements 2 scenario_pred scenario_target ([0; 0], [0; 0])
    = (Ok tt, (cc', cjo')) /\
    length cc' = 2%nat /\ length cjo' = 2%nat /\
    forall k,
      nth k cc' 0 = nth k [0; 0] 0
                    + (if (k <? 2)%nat
                       then correct_pixels scenario_pred scenario_target k else 0)
      /\
      nth k cjo' 0 = nth k [0; 0] 0
                     + (if (k <? 2)%nat
                        then jaccard_or_pixels scenario_pred scenario_target k else 0).
Proof.
  assert (H : (2 <= length [0; 0])%nat) by (simpl; lia).
  split; [exact H|].
  exact (record_pixel_measurements_adds 2 scenario_pred scenario_target [0; 0] [0; 0] H H).
Defined.

(** ** What the two passes leave alone *)

Section Frames2.
Context `{net : Network}.

Lemma print_log_train_keeps_test_stats ccp cjo loss n b name use acc :
  preserves test_stats_but_jaccard (print_log ccp cjo loss n b name use acc false).
Proof.
  unfold print_log, modify_train_stats, modify_test_stats, test_stats_but_jaccard. frame.
Qed.

Lemma train_batch_keeps_test_stats self batch_idx b loc :
  preserves test_stats_but_jaccard (train_batch self batch_idx b loc).
Proof.
  unfold train_batch, on_train_confusion, modify_train_stats.
  repeat first [ apply print_log_train_keeps_test_stats
               | unfold test_stats_but_jaccard; progress frame ].
Qed.

(** X8.  Whatever its outcome, [train] leaves the loss, accuracy,
    per-class lists and confusion matrix of [model.test_stats] as they
    were: of the evaluation statistics only the Jaccard list can grow
    during training. *)
Theorem train_leaves_test_statistics (self : trainer) (epoch start_index : Z)
    (st : state) :
  let st' := snd (train self epoch start_index st) in
  Stats.loss (test_stats st') = Stats.loss (test_stats st) /\
  Stats.accuracy (test_stats st') = Stats.accuracy (test_stats st) /\
  Stats.per_class_loss (test_stats st') = Stats.per_class_loss (test_stats st) /\
  Stats.per_class_accuracy (test_stats st') = Stats.per_class_accuracy (test_stats st) /\
  Stats.confusion (test_stats st') = Stats.confusion (test_stats st).
Proof.
  intros st'.
  assert (H : test_stats_but_jaccard st' = test_stats_but_jaccard st).
  { subst st'. revert st.
    change (preserves test_stats_but_jaccard (train self epoch start_index)).
    unfold train.
    repeat first [ apply train_batch_keeps_test_stats
                 | unfold test_stats_but_jaccard; progress frame ]. }
  unfold test_stats_but_jaccard in H. injection H as H1 H2 H3 H4 H5. auto.
Qed.

Lemma preserves_emit_untouched (e : event) :
  is_training_call e = false -> preserves untouched_by_test (emit e).
Proof.
  intros H [w tr ts t]. unfold emit, modify, untouched_by_test. simpl.
  rewrite filter_app. simpl. rewrite H, app_nil_r. reflexivity.
Qed.

End Frames2.

Ltac frame_untouched :=
  repeat first
    [ apply preserves_emit_untouched; reflexivity
    | apply preserves_modify; intros []; reflexivity
    | apply preserves_zoom; intros ? []; reflexivity
    | frame_step ].

Section Frames3.
Context `{net : Network}.

Lemma print_log_test_untouched ccp cjo loss n b name use acc :
  preserves untouched_by_test (print_log ccp cjo loss n b name use acc true).
Proof.
  unfold print_log, print_table, print_table_row, modify_test_stats.
  frame_untouched.
Qed.

Lemma test_batch_untouched self name use_crf visualize use_prior prior i b loc :
  preserves untouched_by_test
            (test_batch self name use_crf visualize use_prior prior i b loc).
Proof.
  unfold test_batch, on_test_confusion, modify_test_stats.
  repeat first [ apply print_log_test_untouched | progress frame_untouched ].
Qed.

(** X9.  The evaluation pass is read-only on the model: whatever its
    outcome, [test] leaves the weights and [model.train_stats] as they
    were and makes none of the calls of a training step (no [train()]
    mode, [zero_grad], [backward] or optimizer [step]). *)
Theorem test_is_read_only (self : trainer) (dataset_name : string) (use_crf : bool)
    (iters_per_log : Z) (visualize use_prior : bool) (st : state) :
  let st' := snd (test self dataset_name use_crf iters_per_log visualize use_prior st) in
  model_weights st' = model_weights st /\
  train_stats st' = train_stats st /\
  filter is_training_call (trace st') = filter is_training_call (trace st).
Proof.
  intros st'.
  assert (H : untouched_by_test st' = untouched_by_test st).
  { subst st'. revert st.
    change (preserves untouched_by_test
              (test self dataset_name use_crf iters_per_log visualize use_prior)).
    unfold test.
    repeat first [ apply test_batch_untouched | progress frame_untouched ]. }
  unfold untouched_by_test in H. injection H as H1 H2 H3. auto.
Qed.

End Frames3.

(** ** More on [print_log] *)

Section PrintLog2.
Context `{net : Network}.

Lemma print_log_prefix ccp cjo loss n b name use acc test st l a ratios :
  py_truediv loss (n * b) = Ok l ->
  py_truediv (Fin (100 * IZR (sumZ ccp))) (n * b * 1280 * 720) = Ok a ->
  py_map2 py_int_truediv ccp cjo = Ok ratios ->
  print_log ccp cjo loss n b name use acc test st
  = (if use then print_table acc else ret tt)
      (logged test name l (sumZ ccp) (n * b * 1280 * 720) a (fl_mean ratios) st).
Proof.
  intros H1 H2 H3. unfold print_log.
  unfold bind at 1, lift at 1. rewrite H1.
  unfold bind at 1, lift at 1. rewrite H2.
  unfold bind at 1, lift at 1. rewrite H3.
  destruct st as [w tr ts t]. destruct test;
    cbv beta iota zeta delta [bind emit modify_train_stats modify_test_stats modify
                              logged set_train_stats set_test_stats
                              model_weights train_stats test_stats trace];
    rewrite <- app_assoc; reflexivity.
Qed.

(** X10.  A log event of the evaluation pass ([test=True]) appends the
    loss, the accuracy and (when the list exists) the Jaccard value to
    [model.test_stats] and leaves [model.train_stats] and the weights
    alone, whether or not the per-class table that follows succeeds. *)
Theorem print_log_evaluation_appends
    (class_correct_pixels class_jacard_or : list Z) (loss : fl)
    (num_samples batch_size : Z) (name : string) (use_acc_dict : bool)
    (acc_dict : matrix) (st : state) (l a : fl) (ratios : list fl) :
  py_truediv loss (num_samples * batch_size) = Ok l ->
  py_truediv (Fin (100 * IZR (sumZ class_correct_pixels)))
             (num_samples * batch_size * 1280 * 720) = Ok a ->
  py_map2 py_int_truediv class_correct_pixels class_jacard_or = Ok ratios ->
  let st' := snd (print_log class_correct_pixels class_jacard_or loss num_samples
                            batch_size name use_acc_dict acc_dict true st) in
  Stats.loss (test_stats st') = Stats.loss (test_stats st) ++ [l] /\
  Stats.accuracy (test_stats st') = Stats.accuracy (test_stats st) ++ [a] /\
  Stats.jaccard_accuracy (test_stats st')
  = option_map (fun js => js ++ [fl_mean ratios])
               (Stats.jaccard_accuracy (test_stats st)) /\
  train_stats st' = train_stats st /\
  model_weights st' = model_weights st.
Proof.
  intros H1 H2 H3 st'. subst st'.
  rewrite (print_log_prefix _ _ _ _ _ _ _ _ _ _ _ _ _ H1 H2 H3).
  assert (Hst' : forall X (P : state -> X), ignores_trace P ->
            P (snd ((if use_acc_dict then print_table acc_dict else ret tt)
                      (logged true name l (sumZ class_correct_pixels)
                         (num_samples * batch_size * 1280 * 720) a (fl_mean ratios) st)))
            = P (logged true name l (sumZ class_correct_pixels)
                   (num_samples * batch_size * 1280 * 720) a (fl_mean ratios) st)).
  { intros X P HP. destruct use_acc_dict; [|reflexivity].
    apply (preserves_print_table P acc_dict HP). }
  repeat split.
  - rewrite (Hst' _ (fun s => Stats.loss (test_stats s))) by (intros ? ? ? ? ?; reflexivity).
    reflexivity.
  - rewrite (Hst' _ (fun s => Stats.accuracy (test_stats s)))
      by (intros ? ? ? ? ?; reflexivity).
    reflexivity.
  - rewrite (Hst' _ (fun s => Stats.jaccard_accuracy (test_stats s)))
      by (intros ? ? ? ? ?; reflexivity).
    simpl. destruct (Stats.jaccard_accuracy (test_stats st)); reflexivity.
  - rewrite (Hst' _ (fun s => train_stats s)) by (intros ? ? ? ? ?; reflexivity).
    reflexivity.
  - rewrite (Hst' _ (fun s => model_weights s)) by (intros ? ? ? ? ?; reflexivity).
    reflexivity.
Qed.

Lemma getitems_raise {A} (l : list A) (ks : list nat) e :
  getitems l ks = Raise e -> e = IndexError.
Proof.
  induction ks as [|k ks IH]; simpl; [discriminate|].
  unfold getitem. destruct (nth_error l k); [|congruence].
  destruct (getitems l ks); [discriminate|]. intros H. injection H as <-. auto.
Qed.

Lemma getitems_short {A} (l : list A) (ks : list nat) k :
  In k ks -> (length l <= k)%nat -> getitems l ks = Raise IndexError.
Proof.
  intros Hin Hk. induction ks as [|k0 ks IH]; [contradiction|]. simpl.
  destruct (getitem l k0) as [x|e] eqn:E.
  - destruct Hin as [->|Hin].
    + rewrite getitem_out_of_range in E by assumption. discriminate E.
    + rewrite IH by assumption. reflexivity.
  - unfold getitem in E. destruct (nth_error l k0); congruence.
Qed.

(** X11.  With the per-class table requested and a matrix whose first row
    is shorter than the tabulated columns (two, or three for a matrix of
    three rows), [print_log] raises [IndexError] - but only after the
    report was printed and the loss, accuracy and Jaccard value were
    recorded. *)
Theorem print_log_short_row_raises_after_recording
    (class_correct_pixels class_jacard_or : list Z) (loss : fl)
    (num_samples batch_size : Z) (name : string)
    (row : list Z) (rows : matrix) (test : bool) (st : state)
    (l a : fl) (ratios : list fl) :
  py_truediv loss (num_samples * batch_size) = Ok l ->
  py_truediv (Fin (100 * IZR (sumZ class_correct_pixels)))
             (num_samples * batch_size * 1280 * 720) = Ok a ->
  py_map2 py_int_truediv class_correct_pixels class_jacard_or = Ok ratios ->
  (length row < table_columns (row :: rows))%nat ->
  print_log class_correct_pixels class_jacard_or loss num_samples batch_size name
            true (row :: rows) test st
  = (Raise IndexError,
     snd (emit (Print_table_header (table_columns (row :: rows)))
            (logged test name l (sumZ class_correct_pixels)
               (num_samples * batch_size * 1280 * 720) a (fl_mean ratios) st))).
Proof.
  intros H1 H2 H3 Hrow.
  rewrite (print_log_prefix _ _ _ _ _ _ _ _ _ _ _ _ _ H1 H2 H3).
  set (s0 := logged _ _ _ _ _ _ _ _).
  assert (Hr : forall cols s, (length row < cols)%nat ->
            for_each (range (length (row :: rows))) (print_table_row cols (row :: rows)) s
            = (Raise IndexError, s)).
  { intros cols s Hc. simpl length. unfold range. simpl seq.
    cbn [for_each]. unfold bind at 1.
    assert (E : print_table_row cols (row :: rows) 0 s = (Raise IndexError, s)).
    { unfold print_table_row, bind, lift.
      change (getitem (row :: rows) 0) with (Ok row). cbv beta iota.
      rewrite (getitems_short row (range cols) (length row)); [reflexivity | | lia].
      apply in_seq. lia. }
    rewrite E. reflexivity. }
  unfold print_table, table_columns in *.
  destruct (length (row :: rows) =? 3)%nat;
    unfold bind at 1; unfold bind at 1; unfold emit at 1, modify at 1;
    rewrite Hr by assumption; reflexivity.
Qed.

End PrintLog2.

Lemma print_log_evaluation_appends_witness :
  let st' := snd (@print_log example_net [1; 2] [2; 3] (Fin 1) 1 1 "Test set"
                             true zeros2 true example_state) in
  Stats.loss (test_stats st') = [Fin (1 / IZR (1 * 1))] /\
  Stats.accuracy (test_stats st')
  = [Fin (100 * IZR (sumZ [1; 2]) / IZR (1 * 1 * 1280 * 720))] /\
  Stats.jaccard_accuracy (test_stats st')
  = Some [fl_mean [Fin (IZR 1 / IZR 2); Fin (IZR 2 / IZR 3)]] /\
  train_stats st' = train_stats example_state.
Proof.
  pose proof (@print_log_evaluation_appends example_net [1; 2] [2; 3] (Fin 1) 1 1
                "Test set" true zeros2 example_state
                (Fin (1 / IZR (1 * 1)))
                (Fin (100 * IZR (sumZ [1; 2]) / IZR (1 * 1 * 1280 * 720)))
                [Fin (IZR 1 / IZR 2); Fin (IZR 2 / IZR 3)]
                eq_refl eq_refl eq_refl) as H.
  cbv zeta in H. destruct H as (H1 & H2 & H3 & H4 & _).
  cbv zeta. repeat split; assumption.
Defined.

Lemma print_log_short_row_raises_after_recording_witness :
  (length [5%Z] < table_columns [[5%Z]])%nat /\
  fst (@print_log example_net [5] [5] (Fin 1) 1 1 "Test set" true [[5]] true
                  example_state) = Raise IndexError /\
  Stats.loss (test_stats (snd (@print_log example_net [5] [5] (Fin 1) 1 1 "Test set"
                                          true [[5]] true example_state)))
  = [Fin (1 / IZR (1 * 1))].
Proof.
  assert (H : (length [5%Z] < table_columns [[5%Z]])%nat) by (vm_compute; lia).
  split; [exact H|].
  rewrite (@print_log_short_row_raises_after_recording example_net [5] [5] (Fin 1) 1 1
             "Test set" [5] [] true example_state
             (Fin (1 / IZR (1 * 1)))
             (Fin (100 * IZR (sumZ [5]) / IZR (1 * 1 * 1280 * 720)))
             [Fin (IZR 5 / IZR 5)] eq_refl eq_refl eq_refl H).
  split; reflexivity.
Defined.

(** ** The training loop, batch by batch *)

(** [get_per_class_loss] returns on every input and overwrites each entry
    of [loss_vec]. *)
Lemma get_per_class_loss_runs (loss : list fl) (target : label_tensor) (lv : list fl) :
  get_per_class_loss loss target lv
  = (Ok tt, map (class_loss loss target) (range (length lv))).
Proof.
  destruct (per_class_loss_loop (class_loss loss target)
              (fun i =>
                 let mask := torch_eq_scalar (ravel target) (Z.of_nat i) in
                 let total_num := torch_sum_mask mask in
                 loss_vec <- get ;;
                 if total_num >? 0 then
                   loss_vec' <- lift (setitem loss_vec i
                                  (fl_div (fl_sum (torch_masked_select loss mask))
                                          (fl_of_Z total_num))) ;;
                   put loss_vec'
                 else
                   loss_vec' <- lift (setitem loss_vec i
                                  (fl_sum (torch_masked_select loss mask))) ;;
                   put loss_vec')
              (range (length lv)))
    with (lv := lv) as (lv' & E & L & N).
  - intros i l Hi. cbv zeta. unfold bind at 1, get at 1. unfold class_loss.
    destruct (torch_sum_mask (torch_eq_scalar (ravel target) (Z.of_nat i)) >? 0);
      unfold bind, lift, put; rewrite setitem_ok by assumption; reflexivity.
  - apply seq_NoDup.
  - intros i Hi. apply in_seq in Hi. lia.
  - unfold get_per_class_loss. unfold bind at 1, get at 1.
    transitivity (@Ok unit tt, lv'); [exact E|]. f_equal.
    apply (nth_ext _ _ NaN (class_loss loss target 0)).
    + rewrite L, length_map. unfold range. now rewrite length_seq.
    + intros k Hk. rewrite L in Hk. rewrite N, existsb_range.
      rewrite (proj2 (Nat.ltb_lt _ _) Hk).
      rewrite (map_nth (class_loss loss target) (range (length lv)) 0%nat k).
      unfold range. rewrite seq_nth by assumption. reflexivity.
Qed.

(** X12.  [get_per_class_loss] overwrites every entry of [loss_vec]: what
    it leaves depends on the length of the vector it is handed and not on
    its contents, so the vector need not be zeroed between batches. *)
Theorem get_per_class_loss_overwrites (loss : list fl) (target : label_tensor)
    (loss_vec1 loss_vec2 : list fl) :
  length loss = length (ravel target) ->
  length loss_vec1 = length loss_vec2 ->
  get_per_class_loss loss target loss_vec1 = get_per_class_loss loss target loss_vec2.
Proof.
  intros _ Hlen. rewrite !get_per_class_loss_runs, Hlen. reflexivity.
Qed.

Lemma get_per_class_loss_overwrites_witness :
  get_per_class_loss [Fin 1; Fin 3; Fin 2; Fin 4] scenario_target [Fin 0; Fin 0]
  = get_per_class_loss [Fin 1; Fin 3; Fin 2; Fin 4] scenario_target [Fin 7; NaN].
Proof.
  apply (get_per_class_loss_overwrites [Fin 1; Fin 3; Fin 2; Fin 4] scenario_target
           [Fin 0; Fin 0] [Fin 7; NaN]); reflexivity.
Defined.

Section TrainingRuns.
Context `{net : Network}.

Lemma print_log_keeps_weights ccp cjo loss n b name use acc test :
  preserves model_weights (print_log ccp cjo loss n b name use acc test).
Proof. unfold print_log, modify_train_stats, modify_test_stats. frame. Qed.

Lemma train_from_start_index self epoch start_index st :
  train self epoch start_index st
  = (emit Call_train_mode ;;
     for_batches (skipn (Z.to_nat start_index) (enumerate (batches (train_loader self))))
       (train_batch self)
       (mk_train_locals (repeat 0 (num_classes self)) (repeat 0 (num_classes self))
                        (Fin 0)) ;;
     ret tt) st.
Proof.
  unfold train, enumerate, bind, emit, modify.
  rewrite (for_batches_guard (train_batch self) start_index
             (batches (train_loader self)) 0%nat).
  rewrite Nat.sub_0_r. reflexivity.
Qed.

(** A batch of the training loop that completes. *)
Lemma train_batch_ok self i b loc st loc' st' :
  train_batch self i b loc st = (Ok loc', st') ->
  model_weights st' = optimizer_step (model_weights st) (b_data b) (b_target b) /\
  log_spacing self <> 0 /\ save_spacing self <> 0 /\
  marked st' = marked st ++ train_marks self i.
Proof.
  unfold train_batch. cbv zeta. intros H.
  step_ok H as u1 s1 H1. apply emit_run in H1.
  step_ok H as s2' s2 H2. unfold get in H2. injection H2 as <- <-.
  step_ok H as u3 s3 H3. apply emit_run in H3.
  step_ok H as u4 s4 H4. apply emit_run in H4.
  step_ok H as counts s5 H5.
  assert (E5 : s5 = s4).
  { unfold with_local in H5.
    destruct (record_pixel_measurements _ _ _ _) as [[[]|e] l]; [|discriminate H5].
    injection H5 as _ <-. reflexivity. }
  step_ok H as lv s6 H6.
  assert (E6 : s6 = s5).
  { unfold with_local in H6.
    destruct (get_per_class_loss _ _ _) as [[[]|e] l]; [|discriminate H6].
    injection H6 as _ <-. reflexivity. }
  step_ok H as u7 s7 H7. unfold modify_train_stats, modify in H7. injection H7 as _ <-.
  step_ok H as u8 s8 H8. apply emit_run in H8.
  step_ok H as u9 s9 H9. unfold modify in H9. injection H9 as _ <-.
  step_ok H as u10 s10 H10. apply emit_run in H10.
  step_ok H as u11 s11 H11.
  assert (E11 : model_weights s11 = model_weights s10 /\ marked s11 = marked s10).
  { split; (eapply preserves_run; [|exact H11]); unfold on_train_confusion;
      [|unfold marked]; frame_marks. }
  step_ok H as m s12 H12. unfold lift in H12. injection H12 as H12 <-.
  unfold py_mod in H12.
  destruct (Z.eqb_spec (log_spacing self) 0) as [|Hls]; [discriminate H12|].
  injection H12 as <-.
  step_ok H as u13 s13 H13.
  step_ok H as m2 s14 H14. unfold lift in H14. injection H14 as H14 <-.
  unfold py_mod in H14.
  destruct (Z.eqb_spec (save_spacing self) 0) as [|Hss]; [discriminate H14|].
  injection H14 as <-.
  step_ok H as u15 s15 H15. unfold ret in H. injection H as _ <-.
  assert (E13 : model_weights s13 = model_weights s11 /\
                marked s13 = marked s11 ++
                  (if Z.of_nat i mod log_spacing self =? 0 then [Mreport] else [])).
  { destruct (Z.of_nat i mod log_spacing self =? 0).
    - step_ok H13 as v1 t1 G1. unfold modify_train_stats, modify in G1.
      injection G1 as _ <-.
      step_ok H13 as v2 t2 G2. apply emit_run in G2.
      step_ok H13 as t3' t3 G3. unfold get in G3. injection G3 as <- <-.
      pose proof (preserves_run _ _ _ _ _ (print_log_keeps_weights _ _ _ _ _ _ _ _ _) H13)
        as Gw.
      destruct u13. apply print_log_ok in H13. destruct H13 as [Gm _].
      rewrite Gw, Gm. subst t2. unfold marked. simpl. rewrite marks_app. simpl.
      rewrite app_nil_r. auto.
    - unfold ret in H13. injection H13 as _ <-. rewrite app_nil_r. auto. }
  assert (E15 : model_weights s15 = model_weights s13 /\
                marked s15 = marked s13 ++
                  (if Z.of_nat i mod save_spacing self =? 0 then [Msave] else [])).
  { destruct (Z.of_nat i mod save_spacing self =? 0).
    - step_ok H15 as v1 t1 G1. apply emit_run in G1. apply emit_run in H15.
      subst s15 t1. unfold marked. simpl. rewrite !marks_app. simpl.
      rewrite app_nil_r. auto.
    - unfold ret in H15. injection H15 as _ <-. rewrite app_nil_r. auto. }
  destruct E11 as [E11w E11m], E13 as [E13w E13m], E15 as [E15w E15m].
  split; [|split; [assumption|split; [assumption|]]].
  - rewrite E15w, E13w, E11w. subst s10 s8 s6 s5 s4 s3 s1. reflexivity.
  - rewrite E15m, E13m, E11m. subst s10 s8 s6 s5 s4 s3 s1.
    unfold marked, train_marks. simpl. rewrite !marks_app. simpl.
    rewrite !app_nil_r, <- !app_assoc. reflexivity.
Qed.

Lemma for_batches_train_ok self (xs : list (nat * batch)) :
  forall loc st loc' st',
    for_batches xs (train_batch self) loc st = (Ok loc', st') ->
    model_weights st' = steps (map snd xs) (model_weights st) /\
    marked st' = marked st ++ flat_map (train_marks self) (map fst xs) /\
    (xs <> [] -> log_spacing self <> 0 /\ save_spacing self <> 0).
Proof.
  induction xs as [|[i b] xs IH]; intros loc st loc' st' H.
  - unfold for_batches, ret in H. injection H as _ <-. simpl.
    rewrite app_nil_r. repeat split; congruence.
  - simpl for_batches in H. step_ok H as loc1 s1 H1.
    apply train_batch_ok in H1. destruct H1 as (Hw & Hls & Hss & Hm).
    apply IH in H. destruct H as (Hw' & Hm' & _).
    split; [|split].
    + rewrite Hw', Hw. reflexivity.
    + rewrite Hm', Hm. simpl flat_map. rewrite <- app_assoc. reflexivity.
    + auto.
Qed.

Lemma skipn_combine_seq {B} (bs : list B) :
  forall s k,
    map fst (skipn s (combine (seq k (length bs)) bs)) = seq (k + s) (length bs - s) /\
    map snd (skipn s (combine (seq k (length bs)) bs)) = skipn s bs.
Proof.
  induction bs as [|b bs IH]; intros s k.
  - simpl. rewrite !skipn_nil. auto.
  - destruct s as [|s]; cbn [length seq combine skipn].
    + destruct (IH 0%nat (S k)) as [I1 I2]. simpl skipn in I1, I2.
      rewrite Nat.sub_0_r, Nat.add_0_r in *. simpl. rewrite I1, I2.
      replace (S k + 0)%nat with (S k) by lia. auto.
    + destruct (IH s (S k)) as [I1 I2]. rewrite I1, I2.
      replace (S k + s)%nat with (k + S s)%nat by lia. auto.
Qed.

(** X13.  A call of [train] that returns has made exactly one parameter
    update per batch from [start_index] on, in loader order, each on the
    weights the one before left: the final weights are the fold of the
    optimizer step over these batches. *)
Theorem train_steps_once_per_batch (self : trainer) (epoch start_index : Z)
    (st : state) :
  fst (train self epoch start_index st) = Ok tt ->
  model_weights (snd (train self epoch start_index st))
  = steps (skipn (Z.to_nat start_index) (batches (train_loader self)))
          (model_weights st).
Proof.
  rewrite train_from_start_index. intros H.
  destruct ((emit Call_train_mode ;;
             for_batches (skipn (Z.to_nat start_index)
                            (enumerate (batches (train_loader self))))
               (train_batch self)
               (mk_train_locals (repeat 0 (num_classes self))
                  (repeat 0 (num_classes self)) (Fin 0)) ;;
             ret tt) st) as [r st'] eqn:E.
  simpl in H. subst r. simpl.
  step_ok E as u0 s0 E0. apply emit_run in E0.
  step_ok E as loc s1 E1. unfold ret in E. injection E as <-.
  apply for_batches_train_ok in E1. destruct E1 as (Hw & _ & _).
  rewrite Hw. subst s0. simpl. unfold enumerate.
  rewrite (proj2 (skipn_combine_seq _ _ 0%nat)). reflexivity.
Qed.

(** X14.  The schedule of a call of [train] that returns: every batch of
    index [i >= start_index] runs one forward pass, followed by a report
    exactly when [i] is a multiple of [log_spacing] and then by a
    checkpoint exactly when [i] is a multiple of [save_spacing] - the
    index, not the count of batches processed, so batch 0 is always
    reported and saved; and both spacings are nonzero as soon as a batch
    was processed. *)
Theorem train_log_schedule (self : trainer) (epoch start_index : Z) (st : state) :
  fst (train self epoch start_index st) = Ok tt ->
  let s := Z.to_nat start_index in
  let n := length (batches (train_loader self)) in
  marked (snd (train self epoch start_index st))
  = marked st ++ flat_map (train_marks self) (seq s (n - s)) /\
  ((s < n)%nat -> log_spacing self <> 0 /\ save_spacing self <> 0).
Proof.
  rewrite train_from_start_index. intros H s n.
  destruct ((emit Call_train_mode ;;
             for_batches (skipn (Z.to_nat start_index)
                            (enumerate (batches (train_loader self))))
               (train_batch self)
               (mk_train_locals (repeat 0 (num_classes self))
                  (repeat 0 (num_classes self)) (Fin 0)) ;;
             ret tt) st) as [r st'] eqn:E.
  simpl in H. subst r. simpl.
  step_ok E as u0 s0 E0. apply emit_run in E0.
  step_ok E as loc s1 E1. unfold ret in E. injection E as <-.
  apply for_batches_train_ok in E1. destruct E1 as (_ & Hm & Hne).
  unfold enumerate in Hm, Hne.
  rewrite (proj1 (skipn_combine_seq _ _ 0%nat)) in Hm. split.
  - rewrite Hm. subst s0. unfold marked. simpl. rewrite marks_app. simpl.
    rewrite app_nil_r. reflexivity.
  - intros Hlt. apply Hne. intros Hnil.
    apply (f_equal (@length _)) in Hnil.
    rewrite length_skipn, length_combine, length_seq, Nat.min_id in Hnil.
    simpl in Hnil. fold s n in Hnil. lia.
Qed.

End TrainingRuns.

Lemma train_steps_once_per_batch_witness :
  fst (@train counting_net (counting_trainer 3 2 100) 0 1 counting_state) = Ok tt /\
  @model_weights counting_net
    (snd (@train counting_net (counting_trainer 3 2 100) 0 1 counting_state))
  = 2%nat.
Proof.
  assert (H : fst (@train counting_net (counting_trainer 3 2 100) 0 1 counting_state)
              = Ok tt) by (vm_compute; reflexivity).
  split; [exact H|].
  rewrite (@train_steps_once_per_batch counting_net (counting_trainer 3 2 100) 0 1
             counting_state H).
  reflexivity.
Defined.

Lemma train_log_schedule_witness :
  fst (@train counting_net (counting_trainer 3 2 100) 0 0 counting_state) = Ok tt /\
  @marked counting_net
    (snd (@train counting_net (counting_trainer 3 2 100) 0 0 counting_state))
  = [Mforward; Mreport; Msave; Mforward; Mforward; Mreport].
Proof.
  assert (H : fst (@train counting_net (counting_trainer 3 2 100) 0 0 counting_state)
              = Ok tt) by (vm_compute; reflexivity).
  split; [exact H|].
  rewrite (proj1 (@train_log_schedule counting_net (counting_trainer 3 2 100) 0 0
                    counting_state H)).
  reflexivity.
Defined.

(** ** A zero log spacing *)

Section ZeroSpacing.
Context `{net : Network}.

(** The first batch of a trainer whose [log_spacing] is 0: the parameter
    update is made, and the remainder [batch_idx % self.log_spacing]
    raises. *)
Lemma train_batch_zero_log_spacing n self i b loc st :
  (num_classes self <= length (tl_class_correct loc))%nat ->
  (num_classes self <= length (tl_class_jacard_or loc))%nat ->
  square n (Stats.confusion (train_stats st)) ->
  log_spacing self = 0 ->
  exists st',
    train_batch self i b loc st = (Raise ZeroDivisionError, st') /\
    model_weights st' = optimizer_step (model_weights st) (b_data b) (b_target b) /\
    marked st' = marked st ++ [Mforward] /\
    test_stats st' = test_stats st.
Proof.
  intros Hc Hj Hsq Hls. destruct st as [w tr ts t]. simpl in Hsq.
  unfold train_batch. cbv zeta.
  unfold bind at 1, emit at 1, modify at 1.
  unfold bind at 1, get at 1.
  unfold bind at 1, emit at 1, modify at 1.
  unfold bind at 1, emit at 1, modify at 1.
  cbn [model_weights train_stats test_stats trace].
  match goal with
  | |- context [record_pixel_measurements ?k ?p ?tg] =>
      destruct (record_pixel_measurements_ok k p tg _ _ Hc Hj) as (cc' & cjo' & Er & _);
      destruct (get_per_class_accuracy_cells p tg n _ Hsq) as (acc' & Ea & _)
  end.
  unfold bind at 1, with_local at 1.
  rewrite Er.
  unfold bind at 1, with_local at 1. rewrite get_per_class_loss_runs.
  unfold bind at 1, modify_train_stats at 1, modify at 1.
  unfold bind at 1, emit at 1, modify at 1.
  unfold bind at 1, modify at 1.
  unfold bind at 1, emit at 1, modify at 1.
  unfold bind at 1, on_train_confusion at 1, zoom at 1.
  cbn [model_weights train_stats test_stats trace set_train_stats set_weights
       Stats.confusion Stats.append_per_class_loss fst snd] in *.
  rewrite Ea.
  unfold bind at 1, lift at 1, py_mod at 1. rewrite Hls. cbn [Z.eqb].
  eexists. split; [reflexivity|].
  unfold set_train_stats, set_weights.
  cbn [model_weights train_stats test_stats trace].
  split; [reflexivity|]. split; [|reflexivity].
  unfold marked. cbn [trace]. rewrite !marks_app. simpl. rewrite !app_nil_r.
  reflexivity.
Qed.

(** X15.  With [log_spacing = 0] a call of [train] that has a batch to
    process raises [ZeroDivisionError] on the first one - but only once
    that batch has gone through the forward pass and the parameter update:
    the weights are those after one optimizer step, and nothing was
    reported or saved. *)
Theorem train_zero_log_spacing_raises (self : trainer) (epoch start_index : Z)
    (st : state) (n : nat) (b : batch) (bs : list batch) :
  log_spacing self = 0 ->
  batches (train_loader self) = b :: bs ->
  start_index <= 0 ->
  square n (Stats.confusion (train_stats st)) ->
  fst (train self epoch start_index st) = Raise ZeroDivisionError /\
  model_weights (snd (train self epoch start_index st))
  = optimizer_step (model_weights st) (b_data b) (b_target b) /\
  marked (snd (train self epoch start_index st)) = marked st ++ [Mforward].
Proof.
  intros Hls Hbs Hstart Hsq.
  set (s0 := mk_state (model_weights st) (train_stats st) (test_stats st)
                      (trace st ++ [Call_train_mode])).
  destruct (train_batch_zero_log_spacing n self 0%nat b
              (mk_train_locals (repeat 0 (num_classes self))
                 (repeat 0 (num_classes self)) (Fin 0)) s0)
    as (st' & E & Hw & Hm & _).
  { simpl. rewrite repeat_length. lia. }
  { simpl. rewrite repeat_length. lia. }
  { exact Hsq. }
  { exact Hls. }
  assert (Et : train self epoch start_index st = (Raise ZeroDivisionError, st')).
  { rewrite train_from_start_index, Hbs.
    replace (Z.to_nat start_index) with 0%nat by lia.
    unfold enumerate. cbn [length seq combine skipn for_batches].
    unfold bind at 1, emit at 1, modify at 1. fold s0.
    unfold bind. rewrite E. reflexivity. }
  rewrite Et. simpl. split; [reflexivity|]. split; [exact Hw|].
  rewrite Hm. unfold marked, s0. simpl. rewrite marks_app. simpl.
  rewrite app_nil_r. reflexivity.
Qed.

End ZeroSpacing.

Lemma train_zero_log_spacing_raises_witness :
  fst (@train counting_net (counting_trainer 3 0 100) 0 0 counting_state)
  = Raise ZeroDivisionError /\
  @model_weights counting_net
    (snd (@train counting_net (counting_trainer 3 0 100) 0 0 counting_state))
  = 1%nat.
Proof.
  destruct (@train_zero_log_spacing_raises counting_net (counting_trainer 3 0 100) 0 0
              counting_state 2 counting_batch [counting_batch; counting_batch])
    as (H1 & H2 & _).
  - reflexivity.
  - reflexivity.
  - lia.
  - split; [reflexivity|]. intros [|[|r]] Hr; try reflexivity. lia.
  - split; [exact H1 | exact H2].
Defined.

(** ** The penalty of the evaluation pass *)

Lemma bind_raise_fst {S A B} (c : M S A) (k : A -> M S B) s e :
  fst (c s) = Raise e -> fst (bind c k s) = Raise e.
Proof.
  unfold bind. destruct (c s) as [[a|e'] s1]; simpl; intros H;
    [discriminate H | injection H as ->; reflexivity].
Qed.

(** The class distribution has fewer planes than there are classes: the
    loop over the classes runs out of planes. *)
Lemma unbiased_prior_short (n : nat) (dist : image) :
  (length dist < n)%nat -> fst (unbiased_prior n dist) = Raise IndexError.
Proof.
  intros Hn. unfold unbiased_prior. apply bind_raise_fst.
  assert (Er : range n = seq 0 (length dist)
                         ++ length dist :: seq (S (length dist)) (n - length dist - 1)).
  { unfold range.
    replace n with (length dist + S (n - length dist - 1))%nat at 1 by lia.
    rewrite seq_app. reflexivity. }
  rewrite Er, for_each_app.
  destruct (unbiased_prior_loop (seq 0 (length dist)) dist) as (p & E & L).
  { intros i Hi. apply in_seq in Hi. lia. }
  match goal with
  | |- context [for_each (seq 0 (length dist)) ?body dist] =>
      assert (E' : for_each (seq 0 (length dist)) body dist = (Ok tt, p)) by exact E;
      rewrite E'
  end.
  apply for_each_raise_head.
  unfold bind at 1, get at 1. unfold bind at 1, lift at 1.
  rewrite getitem_out_of_range by lia. reflexivity.
Qed.

Section PenaltyOfTest.
Context `{net : Network}.

(** X16.  [test] builds the penalty from the class distribution before it
    looks at [use_prior]: when the distribution has fewer planes than
    [num_classes], the call raises [IndexError] right after switching the
    model to evaluation mode - without a forward pass, and also with
    [use_prior=False]. *)
Theorem test_needs_a_plane_per_class (self : trainer) (dataset_name : string)
    (use_crf : bool) (iters_per_log : Z) (visualize use_prior : bool) (st : state) :
  (length get_distribution < num_classes self)%nat ->
  test self dataset_name use_crf iters_per_log visualize use_prior st
  = (Raise IndexError,
     mk_state (model_weights st) (train_stats st) (test_stats st)
              (trace st ++ [Call_eval_mode])).
Proof.
  intros Hn. unfold test. cbv zeta.
  unfold bind at 1, emit at 1, modify at 1.
  unfold bind at 1, with_local at 1.
  pose proof (unbiased_prior_short _ _ Hn) as Hp.
  destruct (unbiased_prior (num_classes self) get_distribution) as [[[]|e] p];
    simpl in Hp; [discriminate Hp|].
  injection Hp as ->. reflexivity.
Qed.

End PenaltyOfTest.

Lemma test_needs_a_plane_per_class_witness :
  @test example_net
        (@mk_trainer example_net (example_loader 1) (example_loader 1) 3 100 100 false)
        "Test set" false 100 false false example_state
  = (Raise IndexError,
     @mk_state example_net tt (empty_stats 2) (empty_stats 2) [Call_eval_mode]).
Proof.
  apply (@test_needs_a_plane_per_class example_net
           (@mk_trainer example_net (example_loader 1) (example_loader 1) 3 100 100 false)
           "Test set" false 100 false false example_state).
  simpl. lia.
Defined.

Section UniformDistribution.
Local Open Scope R_scope.

Lemma fold_add_repeat (c : R) (P : nat) :
  forall a, fold_left fl_add (repeat (Fin c) P) (Fin a) = Fin (a + INR P * c).
Proof.
  induction P as [|P IH]; intros a.
  - simpl. f_equal. lra.
  - cbn [repeat fold_left fl_add]. rewrite IH, S_INR. f_equal. lra.
Qed.

Lemma fl_mean_repeat (c : R) (P : nat) :
  (0 < P)%nat -> fl_mean (repeat (Fin c) P) = Fin c.
Proof.
  intros HP. unfold fl_mean, fl_sum, fl_of_Z.
  rewrite fold_add_repeat, repeat_length, <- INR_IZR_INZ.
  assert (HN : INR P <> 0) by (apply not_0_INR; lia).
  rewrite fl_div_fin by assumption. f_equal. field. assumption.
Qed.

Lemma zip_with_repeat {A B C} (f : A -> B -> C) x y n :
  zip_with f (repeat x n) (repeat y n) = repeat (f x y) n.
Proof. induction n as [|n IH]; simpl; [|rewrite IH]; reflexivity. Qed.

Lemma sum_planes_of_ones (P k : nat) :
  forall a, fold_left (zip_with fl_add) (repeat (repeat (Fin 1) P) k) (repeat (Fin a) P)
            = repeat (Fin (a + INR k)) P.
Proof.
  induction k as [|k IH]; intros a.
  - simpl. do 2 f_equal. lra.
  - cbn [repeat fold_left]. rewrite zip_with_repeat. cbn [fl_add].
    rewrite IH, S_INR. do 2 f_equal. lra.
Qed.

Lemma getitem_middle {A} (done rest : list A) (x : A) :
  getitem (done ++ x :: rest) (length done) = Ok x.
Proof.
  unfold getitem. rewrite nth_error_app2 by lia. rewrite Nat.sub_diag. reflexivity.
Qed.

Lemma update_middle {A} (done rest : list A) (x y : A) :
  update (done ++ x :: rest) (length done) y = done ++ y :: rest.
Proof. induction done as [|d done IH]; simpl; [|rewrite IH]; reflexivity. Qed.

(** The loop that rescales every plane to mean 1, on planes that are each
    constant: every plane becomes the plane of ones. *)
Lemma rescale_loop_constant (P : nat) (cs : list R) :
  (0 < P)%nat ->
  Forall (fun c => 0 < c) cs ->
  forall done : image,
    for_each (seq (length done) (length cs)) (fun i =>
      prior <- get ;;
      plane <- lift (getitem prior i) ;;
      let m := fl_mean plane in
      prior' <- lift (setitem prior i (map (fun x => fl_div x m) plane)) ;;
      put prior') (done ++ map (fun c => repeat (Fin c) P) cs)
    = (Ok tt, done ++ repeat (repeat (Fin 1) P) (length cs)).
Proof.
  intros HP. induction 1 as [|c cs Hc Hcs IH]; intros done.
  - reflexivity.
  - cbn [length seq map for_each repeat].
    unfold bind at 1. unfold bind at 1, get at 1.
    unfold bind at 1, lift at 1. rewrite getitem_middle. cbv zeta.
    unfold bind at 1, lift at 1.
    unfold setitem. rewrite update_middle.
    assert (Hlt : (length done <? length (done ++ repeat (Fin c) P
                                          :: map (fun c0 => repeat (Fin c0) P) cs))%nat
                  = true).
    { apply Nat.ltb_lt. rewrite length_app. simpl. lia. }
    rewrite Hlt. unfold put at 1.
    rewrite fl_mean_repeat by assumption. rewrite map_repeat.
    rewrite fl_div_fin by lra.
    replace (c / c) with 1 by (field; lra).
    specialize (IH (done ++ [repeat (Fin 1) P])).
    rewrite length_app, <- !app_assoc in IH. simpl in IH.
    rewrite Nat.add_1_r in IH. exact IH.
Qed.

(** X17.  The penalty forgets the class frequencies.  On a class
    distribution whose planes are each constant over the image - whatever
    the (positive) frequency of each class - [test] builds the same penalty
    [1 - 1/C] for every class and pixel. *)
Theorem unbiased_prior_forgets_class_frequencies (cs : list R) (P : nat) :
  (0 < P)%nat ->
  cs <> [] ->
  Forall (fun c => 0 < c) cs ->
  unbiased_prior (length cs) (map (fun c => repeat (Fin c) P) cs)
  = (Ok tt, repeat (repeat (Fin (1 - 1 / INR (length cs))) P) (length cs)).
Proof.
  intros HP Hne Hcs. unfold unbiased_prior.
  pose proof (rescale_loop_constant P cs HP Hcs []) as E. simpl in E.
  unfold range. rewrite (bind_ok _ _ _ _ _ E).
  unfold bind, get, put. f_equal.
  destruct cs as [|c cs]; [contradiction|].
  set (C := length (c :: cs)).
  assert (HC : INR C <> 0) by (apply not_0_INR; unfold C; simpl; lia).
  assert (Es : sum_dim0 (repeat (repeat (Fin 1) P) C) = repeat (Fin (INR C)) P).
  { unfold C. cbn [length repeat sum_dim0]. rewrite sum_planes_of_ones.
    rewrite S_INR. do 2 f_equal. lra. }
  rewrite Es. unfold div_dim0. rewrite map_repeat, zip_with_repeat.
  rewrite fl_div_fin by assumption. rewrite !map_repeat.
  unfold fl_sub. simpl. reflexivity.
Qed.

End UniformDistribution.

Lemma unbiased_prior_forgets_class_frequencies_witness :
  unbiased_prior 3 [[Fin 7; Fin 7]; [Fin 2; Fin 2]; [Fin 1; Fin 1]]
  = (Ok tt, repeat (repeat (Fin (1 - 1 / INR 3)) 2) 3).
Proof.
  apply (unbiased_prior_forgets_class_frequencies [7; 2; 1]%R 2).
  - lia.
  - discriminate.
  - repeat constructor; lra.
Defined.

(** ** The prior correction of a single image *)

Section SingleImage.
Local Open Scope R_scope.
















End SingleImage.


(** ** The two-class script *)

Section TwoClassRuns.
Context `{net : Network}.

Lemma preserves_raise {X A} (P : state -> X) (e : exn) :
  preserves P (@raise state A e).
Proof. intros s; reflexivity. Qed.

Lemma two_class_print_log_keeps_model correct loss n b name use acc :
  preserves model_record (TwoClass.print_log correct loss n b name use acc).
Proof. unfold TwoClass.print_log, print_table_row, model_record. frame. Qed.

Lemma two_class_test_batch_keeps_model tl name ipl vis i b loc :
  preserves model_record (TwoClass.test_batch tl name ipl vis i b loc).
Proof.
  unfold TwoClass.test_batch.
  repeat first [ apply two_class_print_log_keeps_model
               | apply preserves_raise
               | unfold model_record; progress frame ].
Qed.

(** X19.  Whatever its outcome, [fcn_2class.test] leaves the model as it
    found it: the weights and both statistics records are unchanged (its
    confusion matrix is a local list, and nothing is appended or saved). *)
Theorem two_class_test_leaves_the_model (test_loader : loader) (dataset_name : string)
    (use_crf : bool) (iters_per_log : Z) (visualize : bool) (st : state) :
  let st' := snd (TwoClass.test test_loader dataset_name use_crf iters_per_log
                                visualize st) in
  model_weights st' = model_weights st /\
  train_stats st' = train_stats st /\
  test_stats st' = test_stats st /\
  count_events is_save (trace st') = count_events is_save (trace st).
Proof.
  intros st'.
  assert (H : model_record st' = model_record st).
  { subst st'. revert st.
    change (preserves model_record
              (TwoClass.test test_loader dataset_name use_crf iters_per_log visualize)).
    unfold TwoClass.test.
    repeat first [ apply two_class_print_log_keeps_model
                 | apply two_class_test_batch_keeps_model
                 | unfold model_record; progress frame ]. }
  assert (Hs : filter is_save (trace st') = filter is_save (trace st)).
  { clear H. subst st'. revert st.
    change (preserves (fun s => filter is_save (trace s))
              (TwoClass.test test_loader dataset_name use_crf iters_per_log visualize)).
    unfold TwoClass.test, TwoClass.test_batch, TwoClass.print_log, print_table_row.
    repeat first [ apply preserves_raise | progress frame_marks ]. }
  unfold model_record in H. injection H as H1 H2 H3. repeat split; auto.
  unfold count_events. rewrite Hs. reflexivity.
Qed.

Lemma emit_reports (e : event) (s : state) :
  reports (snd (emit e s)) = (reports s + if is_report e then 1 else 0)%nat.
Proof.
  unfold reports, count_events, emit, modify. simpl. rewrite filter_app, length_app.
  simpl. destruct (is_report e); reflexivity.
Qed.

Lemma preserves_emit_reports (e : event) :
  is_report e = false -> preserves reports (emit e).
Proof. intros H s. rewrite emit_reports, H. lia. Qed.

(** A report of the script that completes is one report. *)
Lemma two_class_print_log_ok correct loss n b name use acc st st' :
  TwoClass.print_log correct loss n b name use acc st = (Ok tt, st') ->
  reports st' = S (reports st) /\ n * b <> 0.
Proof.
  unfold TwoClass.print_log. intros H.
  step_ok H as l s1 H1. unfold lift in H1. injection H1 as H1 <-.
  assert (Hnb : n * b <> 0).
  { unfold py_truediv in H1. destruct (Z.eqb_spec (n * b) 0); [discriminate H1 | assumption]. }
  step_ok H as u2 s2 H2. apply emit_run in H2.
  step_ok H as a s3 H3. unfold lift in H3. injection H3 as _ <-.
  step_ok H as u4 s4 H4. apply emit_run in H4.
  step_ok H as u5 s5 H5.
  assert (E5 : reports s5 = reports s4).
  { eapply preserves_run; [|exact H5]. unfold print_table_row.
    repeat first [ apply preserves_emit_reports; reflexivity | frame_step ]. }
  apply emit_run in H. split; [|exact Hnb].
  subst st'. unfold reports, count_events in *. simpl. rewrite filter_app, length_app.
  simpl. rewrite Nat.add_0_r. fold (count_events is_report (trace s5)).
  unfold count_events. rewrite E5. subst s4 s2. simpl.
  rewrite !filter_app, !length_app. simpl. lia.
Qed.

(** One batch of the script's evaluation loop that completes. *)
Lemma two_class_test_batch_ok tl name ipl vis i b loc st loc' st' :
  TwoClass.test_batch tl name ipl vis i b loc st = (Ok loc', st') ->
  TwoClass.batches_done loc' = TwoClass.batches_done loc + 1 /\
  ipl <> 0 /\
  reports st'
  = (reports st + if ((TwoClass.batches_done loc + 1) mod ipl =? 0)%Z then 1 else 0)%nat.
Proof.
  unfold TwoClass.test_batch. cbv zeta. intros H.
  step_ok H as s0 s1 H1. unfold get in H1. injection H1 as <- <-.
  step_ok H as u2 s2 H2. apply emit_run in H2.
  step_ok H as u3 s3 H3. apply emit_run in H3.
  step_ok H as u4 s4 H4.
  assert (E4 : s4 = s3).
  { destruct (TwoClass.shape_ok _ _); [|discriminate H4].
    unfold ret in H4. injection H4 as _ <-. reflexivity. }
  step_ok H as acc s5 H5.
  assert (E5 : s5 = s4).
  { unfold with_local in H5.
    destruct (get_per_class_accuracy _ _ _) as [[[]|e] l]; [|discriminate H5].
    injection H5 as _ <-. reflexivity. }
  step_ok H as m s6 H6. unfold lift in H6. injection H6 as H6 <-.
  unfold py_mod in H6.
  destruct (Z.eqb_spec ipl 0) as [|Hipl]; [discriminate H6|].
  injection H6 as <-.
  step_ok H as u7 s7 H7. unfold ret in H. injection H as <- <-. simpl.
  split; [reflexivity|]. split; [assumption|].
  assert (E0 : reports s5 = reports st).
  { rewrite E5, E4. subst s3 s2. unfold reports, count_events. simpl.
    rewrite !filter_app, !length_app. simpl. lia. }
  destruct ((TwoClass.batches_done loc + 1) mod ipl =? 0).
  - step_ok H7 as u8 s8 H8. destruct u8.
    apply two_class_print_log_ok in H8. destruct H8 as [H8 _].
    assert (E9 : reports s7 = reports s8).
    { eapply preserves_run; [|exact H7].
      repeat first [ apply preserves_emit_reports; reflexivity | frame_step ]. }
    rewrite E9, H8, E0. lia.
  - unfold ret in H7. injection H7 as _ <-. rewrite E0. lia.
Qed.

Lemma two_class_for_batches_ok tl name ipl vis (xs : list (nat * batch)) :
  forall loc st loc' st',
    for_batches xs (TwoClass.test_batch tl name ipl vis) loc st = (Ok loc', st') ->
    reports st'
    = (reports st + log_points ipl (TwoClass.batches_done loc) (length xs))%nat /\
    TwoClass.batches_done loc' = TwoClass.batches_done loc + Z.of_nat (length xs) /\
    (xs <> [] -> ipl <> 0).
Proof.
  induction xs as [|[i b] xs IH]; intros loc st loc' st' H.
  - simpl in H. unfold ret in H. injection H as <- <-.
    unfold log_points. simpl. repeat split; try lia. congruence.
  - simpl for_batches in H. step_ok H as loc1 st1 H1.
    apply two_class_test_batch_ok in H1. destruct H1 as (Hd & Hipl & Hr).
    apply IH in H. destruct H as (Hr' & Hd' & _).
    simpl length. rewrite log_points_S, Hr', Hd', Hr, Hd.
    repeat split; auto; lia.
Qed.

(** X20.  The schedule of a run of [fcn_2class.test] that returns: a
    report follows each batch whose count is a multiple of the argument
    [iters_per_log], and one more report follows the loop, computed over
    [len(test_loader.dataset)] samples with a batch size of 1 - so the data
    set is not empty, and [iters_per_log] is not 0 when there is a batch. *)
Theorem two_class_test_log_schedule (test_loader : loader) (dataset_name : string)
    (use_crf : bool) (iters_per_log : Z) (visualize : bool) (st : state) :
  fst (TwoClass.test test_loader dataset_name use_crf iters_per_log visualize st)
  = Ok tt ->
  let st' := snd (TwoClass.test test_loader dataset_name use_crf iters_per_log
                                visualize st) in
  let n := length (batches test_loader) in
  reports st' = (reports st + log_points iters_per_log 0 n + 1)%nat /\
  (exists l c a,
     last (filter is_report (trace st')) Print_separator
     = Print_report_2class dataset_name l c (dataset_len test_loader * 1 * 1280 * 720) a) /\
  dataset_len test_loader <> 0 /\
  (n <> 0%nat -> iters_per_log <> 0).
Proof.
  intros H st' n.
  destruct (TwoClass.test test_loader dataset_name use_crf iters_per_log visualize st)
    as [r s'] eqn:E.
  simpl in H. subst r. simpl in st'. subst st'.
  pose proof (two_class_test_reports_after_loop _ _ _ _ _ _ _ E)
    as (loc0 & s10 & l & a & _ & Hlast).
  unfold TwoClass.test in E.
  step_ok E as u0 s0 E0. apply emit_run in E0.
  step_ok E as loc s1 E1.
  apply two_class_for_batches_ok in E1. destruct E1 as (Hr & _ & Hne).
  apply two_class_print_log_ok in E. destruct E as [Hr' Hd].
  split; [|split; [|split]].
  - rewrite Hr', Hr. subst s0. unfold reports, count_events. simpl.
    rewrite filter_app, length_app. simpl.
    unfold enumerate. rewrite length_combine, length_seq, Nat.min_id. fold n. lia.
  - exists l, (TwoClass.correct loc0), a. rewrite Hlast. apply last_last.
  - lia.
  - intros Hn. apply Hne. unfold enumerate. intros Hnil.
    apply (f_equal (@length _)) in Hnil.
    rewrite length_combine, length_seq, Nat.min_id in Hnil. simpl in Hnil.
    fold n in Hnil. lia.
Qed.

(** X21.  When the predictions of the first batch do not have the shape
    [(batch_size, 1280, 720)], [fcn_2class.test] stops with
    [AssertionError] after the forward pass and the loss of that batch, and
    before anything is counted or reported. *)
Theorem two_class_test_rejects_other_shapes (test_loader : loader)
    (dataset_name : string) (use_crf : bool) (iters_per_log : Z) (visualize : bool)
    (st : state) (b : batch) (bs : list batch) :
  batches test_loader = b :: bs ->
  TwoClass.shape_ok (torch_argmax (forward (model_weights st) (b_data b)))
                    (batch_size test_loader) = false ->
  TwoClass.test test_loader dataset_name use_crf iters_per_log visualize st
  = (Raise AssertionError,
     mk_state (model_weights st) (train_stats st) (test_stats st)
              (trace st ++ [Call_eval_mode; Call_forward (b_data b); Call_loss])).
Proof.
  intros Hb Hshape. unfold TwoClass.test. rewrite Hb.
  unfold enumerate. cbn [length seq combine for_batches].
  unfold TwoClass.test_batch. cbv zeta.
  destruct st as [w tr ts t]. cbn [model_weights] in Hshape.
  cbv beta iota zeta delta [bind emit modify get model_weights train_stats
                            test_stats trace].
  rewrite Hshape. unfold raise. rewrite <- !app_assoc. reflexivity.
Qed.

End TwoClassRuns.

Lemma two_class_test_log_schedule_witness :
  fst (@TwoClass.test example_net (@mk_loader example_net [] 1 5) "Test set" false
                      7000 false example_state) = Ok tt /\
  @reports example_net
    (snd (@TwoClass.test example_net (@mk_loader example_net [] 1 5) "Test set" false
                         7000 false example_state)) = 1%nat.
Proof.
  assert (H : fst (@TwoClass.test example_net (@mk_loader example_net [] 1 5)
                     "Test set" false 7000 false example_state) = Ok tt)
    by (vm_compute; reflexivity).
  split; [exact H|].
  rewrite (proj1 (@two_class_test_log_schedule example_net
                    (@mk_loader example_net [] 1 5) "Test set" false 7000 false
                    example_state H)).
  reflexivity.
Defined.

Lemma two_class_test_rejects_other_shapes_witness :
  @TwoClass.test example_net (example_loader 2) "Test set" false 7000 false
                 example_state
  = (Raise AssertionError,
     @mk_state example_net tt (empty_stats 2) (empty_stats 2)
       [Call_eval_mode; Call_forward one_hot_scores; Call_loss]).
Proof.
  apply (@two_class_test_rejects_other_shapes example_net (example_loader 2)
           "Test set" false 7000 false example_state example_batch [example_batch]).
  - reflexivity.
  - vm_compute. reflexivity.
Defined.

(** ** What a training run records and reports *)

Lemma record_pixel_measurements_from_zero (n : nat) (pred target : label_tensor) :
  record_pixel_measurements n pred target (repeat 0 n, repeat 0 n)
  = (Ok tt, (map (correct_pixels pred target) (range n),
             map (jaccard_or_pixels pred target) (range n))).
Proof.
  destruct (record_pixel_measurements_values pred target (range n) (seq_NoDup n 0)
              (repeat 0 n) (repeat 0 n)) as (cc' & cjo' & E & L1 & L2 & V).
  { intros i Hi. apply in_seq in Hi. rewrite repeat_length. lia. }
  unfold record_pixel_measurements. rewrite E. rewrite repeat_length in L1, L2.
  do 2 f_equal.
  - apply (nth_ext _ _ 0 0).
    + rewrite L1, length_map. unfold range. now rewrite length_seq.
    + intros k Hk. rewrite L1 in Hk. destruct (V k) as [V1 _].
      rewrite V1, existsb_range, (proj2 (Nat.ltb_lt _ _) Hk).
      rewrite nth_repeat.
      rewrite (nth_indep _ 0 (correct_pixels pred target 0))
        by (rewrite length_map; unfold range; rewrite length_seq; lia).
      rewrite (map_nth (correct_pixels pred target)). unfold range.
      rewrite seq_nth by assumption. reflexivity.
  - apply (nth_ext _ _ 0 0).
    + rewrite L2, length_map. unfold range. now rewrite length_seq.
    + intros k Hk. rewrite L2 in Hk. destruct (V k) as [_ V2].
      rewrite V2, existsb_range, (proj2 (Nat.ltb_lt _ _) Hk).
      rewrite nth_repeat.
      rewrite (nth_indep _ 0 (jaccard_or_pixels pred target 0))
        by (rewrite length_map; unfold range; rewrite length_seq; lia).
      rewrite (map_nth (jaccard_or_pixels pred target)). unfold range.
      rewrite seq_nth by assumption. reflexivity.
Qed.

Section TrainingRecords.
Context `{net : Network}.

Lemma emit_report_lines (e : event) (s : state) :
  report_lines (snd (emit e s))
  = report_lines s ++ (if is_report e then [e] else []).
Proof.
  unfold report_lines, emit, modify. simpl. rewrite filter_app. simpl.
  destruct (is_report e); reflexivity.
Qed.

Lemma preserves_emit_report_lines (e : event) :
  is_report e = false -> preserves report_lines (emit e).
Proof. intros H s. rewrite emit_report_lines, H. apply app_nil_r. Qed.

(** A report that completes, with what it prints. *)
Lemma print_log_report ccp cjo loss n b name use acc test st st' :
  print_log ccp cjo loss n b name use acc test st = (Ok tt, st') ->
  exists l a j,
    py_truediv loss (n * b) = Ok l /\
    report_lines st'
    = report_lines st ++ [Print_report name l (sumZ ccp) (n * b * 1280 * 720) a j].
Proof.
  unfold print_log. intros H.
  step_ok H as l s1 H1. unfold lift in H1. injection H1 as H1 <-.
  step_ok H as a s2 H2. unfold lift in H2. injection H2 as _ <-.
  step_ok H as ratios s3 H3. unfold lift in H3. injection H3 as _ <-.
  step_ok H as u4 s4 H4. apply emit_run in H4.
  step_ok H as u5 s5 H5. apply emit_run in H5.
  step_ok H as u6 s6 H6.
  assert (E6 : report_lines s6 = report_lines s5).
  { eapply preserves_run; [|exact H6].
    unfold modify_train_stats, modify_test_stats, report_lines. frame_marks. }
  assert (E7 : report_lines st' = report_lines s6).
  { destruct use.
    - eapply preserves_run; [|exact H].
      unfold print_table, print_table_row, report_lines. frame_marks.
    - unfold ret in H. injection H as <-. reflexivity. }
  exists l, a, (fl_mean ratios). split; [exact H1|].
  rewrite E7, E6. subst s5 s4. unfold report_lines. simpl.
  rewrite !filter_app. simpl. rewrite app_nil_r. reflexivity.
Qed.

Lemma print_log_train_keeps_loss_vectors ccp cjo loss n b name use acc :
  preserves (fun s => Stats.per_class_loss (train_stats s))
            (print_log ccp cjo loss n b name use acc false).
Proof. unfold print_log, modify_train_stats, modify_test_stats. frame. Qed.

(** A batch of the training loop that completes: the local counters, the
    loss vector recorded and the report printed. *)
Lemma train_batch_records self i b loc st loc' st' :
  train_batch self i b loc st = (Ok loc', st') ->
  let pred := torch_argmax (forward (model_weights st) (b_data b)) in
  let lv := loss_vector self (model_weights st) b in
  record_pixel_measurements (num_classes self) pred (b_target b)
    (tl_class_correct loc, tl_class_jacard_or loc)
  = (Ok tt, (tl_class_correct loc', tl_class_jacard_or loc')) /\
  tl_sum_loss loc' = fl_add (tl_sum_loss loc) (fl_sum lv) /\
  Stats.per_class_loss (train_stats st') = Stats.per_class_loss (train_stats st) ++ [lv] /\
  exists rs,
    report_lines st' = report_lines st ++ rs /\
    (Z.of_nat i mod log_spacing self = 0 ->
     exists l a j,
       py_truediv (tl_sum_loss loc')
                  ((Z.of_nat i + 1) * batch_size (train_loader self)) = Ok l /\
       rs = [Print_report "Training Set" l (sumZ (tl_class_correct loc'))
               ((Z.of_nat i + 1) * batch_size (train_loader self) * 1280 * 720) a j]).
Proof.
  unfold train_batch. cbv zeta. intros H.
  step_ok H as u1 s1 H1. apply emit_run in H1.
  step_ok H as s2' s2 H2. unfold get in H2. injection H2 as <- <-.
  step_ok H as u3 s3 H3. apply emit_run in H3.
  step_ok H as u4 s4 H4. apply emit_run in H4.
  step_ok H as counts s5 H5.
  unfold with_local in H5.
  destruct (record_pixel_measurements _ _ _ _) as [[[]|e] [cc' cjo']] eqn:Er;
    [|discriminate H5].
  injection H5 as <- <-.
  step_ok H as lv s6 H6.
  unfold with_local in H6. rewrite get_per_class_loss_runs in H6.
  injection H6 as <- <-. rewrite repeat_length in H.
  step_ok H as u7 s7 H7. unfold modify_train_stats, modify in H7. injection H7 as _ <-.
  step_ok H as u8 s8 H8. apply emit_run in H8.
  step_ok H as u9 s9 H9. unfold modify in H9. injection H9 as _ <-.
  step_ok H as u10 s10 H10. apply emit_run in H10.
  step_ok H as u11 s11 H11.
  assert (E11 : Stats.per_class_loss (train_stats s11)
                = Stats.per_class_loss (train_stats s10) /\
                report_lines s11 = report_lines s10).
  { split.
    - eapply (preserves_run (fun s => Stats.per_class_loss (train_stats s)));
        [|exact H11].
      unfold on_train_confusion. frame_marks.
    - eapply preserves_run; [|exact H11].
      unfold on_train_confusion, report_lines. frame_marks. }
  step_ok H as m s12 H12. unfold lift in H12. injection H12 as H12 <-.
  unfold py_mod in H12.
  destruct (Z.eqb_spec (log_spacing self) 0) as [|Hls]; [discriminate H12|].
  injection H12 as <-.
  step_ok H as u13 s13 H13.
  step_ok H as m2 s14 H14. unfold lift in H14. injection H14 as _ <-.
  step_ok H as u15 s15 H15. unfold ret in H. injection H as <- <-.
  cbn [tl_class_correct tl_class_jacard_or tl_sum_loss fst snd].
  assert (E15 : Stats.per_class_loss (train_stats s15)
                = Stats.per_class_loss (train_stats s13) /\
                report_lines s15 = report_lines s13).
  { split.
    - eapply (preserves_run (fun s => Stats.per_class_loss (train_stats s)));
        [|exact H15].
      destruct (m2 =? 0); frame_marks.
    - eapply preserves_run; [|exact H15].
      unfold report_lines. destruct (m2 =? 0); frame_marks. }
  assert (E13 : Stats.per_class_loss (train_stats s13)
                = Stats.per_class_loss (train_stats s11) /\
                exists rs,
                  report_lines s13 = report_lines s11 ++ rs /\
                  (Z.of_nat i mod log_spacing self = 0 ->
                   exists l a j,
                     py_truediv (fl_add (tl_sum_loss loc)
                                   (fl_sum (map (class_loss
                                      (cross_entropy_none
                                         (forward (model_weights s1) (b_data b))
                                         (b_target b)) (b_target b))
                                      (range (num_classes self)))))
                                ((Z.of_nat i + 1) * batch_size (train_loader self))
                     = Ok l /\
                     rs = [Print_report "Training Set" l (sumZ cc')
                             ((Z.of_nat i + 1) * batch_size (train_loader self)
                              * 1280 * 720) a j])).
  { destruct (Z.eqb_spec (Z.of_nat i mod log_spacing self) 0) as [Hz|Hnz].
    - step_ok H13 as v1 t1 G1. unfold modify_train_stats, modify in G1.
      injection G1 as _ <-.
      step_ok H13 as v2 t2 G2. apply emit_run in G2.
      step_ok H13 as t3' t3 G3. unfold get in G3. injection G3 as <- <-.
      pose proof (preserves_run (fun s => Stats.per_class_loss (train_stats s)) _ _ _ _
                    (print_log_train_keeps_loss_vectors _ _ _ _ _ _ _ _) H13) as Gl.
      cbv beta in Gl.
      destruct u13. apply print_log_report in H13.
      destruct H13 as (l & a & j & Hl & Hr).
      split.
      + rewrite Gl. subst t2. destruct s11 as [w11 tr11 ts11 t11]. reflexivity.
      + eexists. split; [|intros _; exists l, a, j; split; [exact Hl | reflexivity]].
        rewrite Hr. subst t2. unfold report_lines. simpl.
        rewrite filter_app. simpl. rewrite app_nil_r. reflexivity.
    - unfold ret in H13. injection H13 as _ <-. split; [reflexivity|].
      exists []. rewrite app_nil_r. split; [reflexivity | contradiction]. }
  destruct E11 as [E11l E11r], E13 as [E13l (rs & E13r & Hrs)], E15 as [E15l E15r].
  assert (Ew : model_weights s1 = model_weights st) by (subst s1; reflexivity).
  rewrite Ew in *. unfold loss_vector.
  split; [exact Er|]. split; [reflexivity|]. split.
  - rewrite E15l, E13l, E11l. subst s10 s8 s4 s3 s1. simpl. reflexivity.
  - exists rs. split; [|exact Hrs].
    rewrite E15r, E13r, E11r. subst s10 s8 s4 s3 s1. unfold report_lines. simpl.
    rewrite !filter_app. simpl. rewrite !app_nil_r. reflexivity.
Qed.

Lemma for_batches_train_records self (xs : list (nat * batch)) :
  forall loc st loc' st',
    for_batches xs (train_batch self) loc st = (Ok loc', st') ->
    Stats.per_class_loss (train_stats st')
    = Stats.per_class_loss (train_stats st)
      ++ loss_vectors self (map snd xs) (model_weights st) /\
    exists rs, report_lines st' = report_lines st ++ rs.
Proof.
  induction xs as [|[i b] xs IH]; intros loc st loc' st' H.
  - unfold for_batches, ret in H. injection H as _ <-. simpl.
    rewrite app_nil_r. split; [reflexivity|]. exists []. now rewrite app_nil_r.
  - simpl for_batches in H. step_ok H as loc1 s1 H1.
    pose proof (train_batch_ok _ _ _ _ _ _ _ H1) as (Hw & _).
    apply train_batch_records in H1. cbv zeta in H1.
    destruct H1 as (_ & _ & Hl & rs & Hr & _).
    apply IH in H. destruct H as (Hl' & rs' & Hr').
    split.
    + rewrite Hl', Hl, Hw. simpl. rewrite <- app_assoc. reflexivity.
    + exists (rs ++ rs'). rewrite Hr', Hr, app_assoc. reflexivity.
Qed.

(** X22.  A call of [train] that returns appends to
    [model.train_stats.per_class_loss] one vector of [num_classes] entries
    per batch from [start_index] on, in order, each computed from the
    forward pass under the weights the previous batch's update left. *)
Theorem train_records_a_loss_vector_per_batch (self : trainer)
    (epoch start_index : Z) (st : state) :
  fst (train self epoch start_index st) = Ok tt ->
  Stats.per_class_loss (train_stats (snd (train self epoch start_index st)))
  = Stats.per_class_loss (train_stats st)
    ++ loss_vectors self (skipn (Z.to_nat start_index) (batches (train_loader self)))
                    (model_weights st).
Proof.
  rewrite train_from_start_index. intros H.
  destruct ((emit Call_train_mode ;;
             for_batches (skipn (Z.to_nat start_index)
                            (enumerate (batches (train_loader self))))
               (train_batch self)
               (mk_train_locals (repeat 0 (num_classes self))
                  (repeat 0 (num_classes self)) (Fin 0)) ;;
             ret tt) st) as [r st'] eqn:E.
  simpl in H. subst r. simpl.
  step_ok E as u0 s0 E0. apply emit_run in E0.
  step_ok E as loc s1 E1. unfold ret in E. injection E as <-.
  apply for_batches_train_records in E1. destruct E1 as (Hl & _).
  rewrite Hl. subst s0. simpl. unfold enumerate.
  rewrite (proj2 (skipn_combine_seq _ _ 0%nat)). reflexivity.
Qed.

Lemma skipn_combine_head {B} (bs : list B) :
  forall s k b,
    nth_error bs s = Some b ->
    skipn s (combine (seq k (length bs)) bs)
    = ((k + s)%nat, b) :: skipn (S s) (combine (seq k (length bs)) bs).
Proof.
  induction bs as [|b0 bs IH]; intros [|s] k b H; simpl in H; try discriminate.
  - injection H as ->. cbn [length seq combine skipn]. rewrite Nat.add_0_r.
    reflexivity.
  - cbn [length seq combine skipn]. rewrite (IH s (S k) b H).
    replace (S k + s)%nat with (k + S s)%nat by lia. reflexivity.
Qed.

(** X23.  A resumed call reports over the batches it skipped.  When
    [start_index] is a log point, the first report of the call counts the
    correct pixels and the loss of the single batch processed so far, but
    divides them by the pixels and samples of [start_index + 1] batches:
    the batches skipped by the resume enter the denominators and not the
    sums. *)
Theorem resumed_train_reports_over_skipped_batches (self : trainer)
    (epoch start_index : Z) (st : state) (b : batch) :
  fst (train self epoch start_index st) = Ok tt ->
  0 <= start_index ->
  nth_error (batches (train_loader self)) (Z.to_nat start_index) = Some b ->
  start_index mod log_spacing self = 0 ->
  let pred := torch_argmax (forward (model_weights st) (b_data b)) in
  exists l a j rest,
    py_truediv (fl_add (Fin 0) (fl_sum (loss_vector self (model_weights st) b)))
               ((start_index + 1) * batch_size (train_loader self)) = Ok l /\
    report_lines (snd (train self epoch start_index st))
    = report_lines st
      ++ Print_report "Training Set" l
           (sumZ (map (correct_pixels pred (b_target b)) (range (num_classes self))))
           ((start_index + 1) * batch_size (train_loader self) * 1280 * 720) a j
         :: rest.
Proof.
  rewrite train_from_start_index. intros H Hs Hb Hlog pred.
  destruct ((emit Call_train_mode ;;
             for_batches (skipn (Z.to_nat start_index)
                            (enumerate (batches (train_loader self))))
               (train_batch self)
               (mk_train_locals (repeat 0 (num_classes self))
                  (repeat 0 (num_classes self)) (Fin 0)) ;;
             ret tt) st) as [r st'] eqn:E.
  simpl in H. subst r. simpl.
  step_ok E as u0 s0 E0. apply emit_run in E0.
  step_ok E as loc s1 E1. unfold ret in E. injection E as <-.
  unfold enumerate in E1. rewrite (skipn_combine_head _ _ 0%nat b Hb) in E1.
  simpl for_batches in E1. step_ok E1 as loc1 s2 B1.
  apply train_batch_records in B1. cbv zeta in B1.
  destruct B1 as (Hr & Hsum & _ & rs & Hrs & Hrep).
  apply for_batches_train_records in E1. destruct E1 as (_ & rest & Hrest).
  assert (Ew : model_weights s0 = model_weights st) by (subst s0; reflexivity).
  rewrite Ew in *.
  cbn [tl_class_correct tl_class_jacard_or tl_sum_loss] in Hr, Hsum.
  rewrite record_pixel_measurements_from_zero in Hr. injection Hr as Hcc _.
  rewrite Z2Nat.id in Hrep by assumption.
  destruct (Hrep Hlog) as (l & a & j & Hl & ->).
  exists l, a, j, rest. split.
  - rewrite Hsum in Hl. exact Hl.
  - rewrite Hrest, Hrs, <- Hcc. subst s0. unfold report_lines. simpl.
    rewrite filter_app. simpl. rewrite app_nil_r, <- app_assoc. reflexivity.
Qed.

End TrainingRecords.

Lemma train_records_a_loss_vector_per_batch_witness :
  fst (@train counting_net (counting_trainer 3 2 100) 0 1 counting_state) = Ok tt /\
  length (Stats.per_class_loss
            (@train_stats counting_net
               (snd (@train counting_net (counting_trainer 3 2 100) 0 1
                            counting_state)))) = 2%nat.
Proof.
  assert (H : fst (@train counting_net (counting_trainer 3 2 100) 0 1 counting_state)
              = Ok tt) by (vm_compute; reflexivity).
  split; [exact H|].
  rewrite (@train_records_a_loss_vector_per_batch counting_net
             (counting_trainer 3 2 100) 0 1 counting_state H).
  reflexivity.
Defined.

Lemma resumed_train_reports_over_skipped_batches_witness :
  fst (@train counting_net (counting_trainer 3 2 100) 0 2 counting_state) = Ok tt /\
  exists l a j rest,
    @report_lines counting_net
      (snd (@train counting_net (counting_trainer 3 2 100) 0 2 counting_state))
    = @Print_report counting_net "Training Set" l 3 (3 * 1 * 1280 * 720) a j :: rest.
Proof.
  assert (H : fst (@train counting_net (counting_trainer 3 2 100) 0 2 counting_state)
              = Ok tt) by (vm_compute; reflexivity).
  split; [exact H|].
  destruct (@resumed_train_reports_over_skipped_batches counting_net
              (counting_trainer 3 2 100) 0 2 counting_state counting_batch H)
    as (l & a & j & rest & _ & Hr).
  - lia.
  - reflexivity.
  - reflexivity.
  - exists l, a, j, rest. exact Hr.
Defined.

(** ** The training loop of the two-class script *)

Section TwoClassTraining.
Context `{net : Network}.


(** X24.  Whatever its outcome, [fcn_2class.train] leaves both statistics
    records of the model as they were: its counters and its confusion
    matrix are locals that start afresh at every call, and only the
    weights change. *)
Theorem two_class_train_keeps_no_statistics (train_loader : loader)
    (epoch log_spacing save_spacing : Z) (per_class : bool) (st : state) :
  let st' := snd (TwoClassTrain.train train_loader epoch log_spacing save_spacing
                                      per_class st) in
  train_stats st' = train_stats st /\ test_stats st' = test_stats st.
Proof.
  intros st'.
  assert (H : (fun s => (train_stats s, test_stats s)) st'
              = (fun s => (train_stats s, test_stats s)) st).
  { subst st'. revert st.
    change (preserves (fun s => (train_stats s, test_stats s))
              (TwoClassTrain.train train_loader epoch log_spacing save_spacing
                                   per_class)).
    unfold TwoClassTrain.train, TwoClassTrain.train_batch, TwoClass.print_log,
      print_table_row.
    repeat first [ apply preserves_raise | progress frame ]. }
  cbv beta in H. injection H as H1 H2. auto.
Qed.




End TwoClassTraining.


(** ** Evaluation runs shorter than the log spacing *)

Section ShortRuns.
Context `{net : Network}.


End ShortRuns.

